(** * Message classification over a durable workflow: the TypeScript core

    A shallow embedding of [src/typescript/src/llm-config.ts],
    [src/typescript/src/activities.ts], [src/typescript/src/workflows.ts]
    and [src/typescript/src/types.ts], followed by the properties of the
    provider registry, the classification activity and the two workflows.

    Conventions.
    - A JavaScript string is its sequence of UTF-16 code units, [list N].
    - [process.env] and the provider table are JavaScript objects used as
      maps: [gmap].
    - A JSON number is kept at the exact value of its decimal literal, in
      [Q]; rounding to a double is not modelled.
    - [console.log] and [console.error] have no effect on any result and
      are left out. *)

From Stdlib Require Import ZArith NArith QArith Lia Ascii String List Bool.
From stdpp Require Import base gmap strings list fin_maps.

#[local] Set Warnings "-register-all".

Close Scope Q_scope.
Open Scope string_scope.
Open Scope list_scope.

(* ===================================================================== *)
(** ** JavaScript strings and the built-ins the code calls on them *)
(* ===================================================================== *)

Module JS.

(** A source literal, as code units. *)
Definition lit (s : string) : list N := map N_of_ascii (list_ascii_of_string s).

(** The double quote, which a literal cannot hold. *)
Definition dq : list N := [34%N].

(** ECMAScript [WhiteSpace] and [LineTerminator] code points, the ones
    [String.prototype.trim] strips. *)
Definition isWhiteSpace (c : N) : bool :=
  (  (c =? 9) || (c =? 10) || (c =? 11) || (c =? 12) || (c =? 13)
  || (c =? 32) || (c =? 160) || (c =? 5760)
  || ((8192 <=? c) && (c <=? 8202))
  || (c =? 8232) || (c =? 8233) || (c =? 8239) || (c =? 8287)
  || (c =? 12288) || (c =? 65279))%N.

Fixpoint trimStart (s : list N) : list N :=
  match s with
  | c :: r => if isWhiteSpace c then trimStart r else s
  | [] => []
  end.

Definition trimEnd (s : list N) : list N := rev (trimStart (rev s)).

(** [s.trim()] *)
Definition trim (s : list N) : list N := trimEnd (trimStart s).

(** Truthiness of a string: [""] is falsy. *)
Definition truthy (s : list N) : bool :=
  match s with [] => false | _ :: _ => true end.

(** Truthiness of a possibly absent string ([undefined] is falsy). *)
Definition truthyOpt (o : option (list N)) : bool :=
  match o with Some s => truthy s | None => false end.

(** [a || b] on two possibly absent strings. *)
Definition orOpt (a b : option (list N)) : option (list N) :=
  if truthyOpt a then a else b.

(** [a || 'literal'] on a possibly absent string with a string default. *)
Definition orElse (o : option (list N)) (d : list N) : list N :=
  match o with
  | Some s => if truthy s then s else d
  | None => d
  end.

Fixpoint eqb (a b : list N) : bool :=
  match a, b with
  | [], [] => true
  | x :: a', y :: b' => (x =? y)%N && eqb a' b'
  | _, _ => false
  end.

Fixpoint startsWith (s pat : list N) {struct pat} : bool :=
  match pat, s with
  | [], _ => true
  | p :: pat', c :: s' => (c =? p)%N && startsWith s' pat'
  | _ :: _, [] => false
  end.

(** [s.indexOf(pat)], [None] for [-1]. *)
Fixpoint indexOf (s pat : list N) : option nat :=
  if startsWith s pat then Some 0
  else match s with
       | [] => None
       | _ :: s' => option_map S (indexOf s' pat)
       end.

(** [s.includes(pat)] *)
Definition includes (s pat : list N) : bool :=
  match indexOf s pat with Some _ => true | None => false end.

(** [arr.includes(x)] on an array of strings. *)
Definition arrayIncludes (arr : list (list N)) (x : list N) : bool :=
  existsb (eqb x) arr.

(** [arr.join(sep)] *)
Fixpoint join (sep : list N) (arr : list (list N)) : list N :=
  match arr with
  | [] => []
  | [x] => x
  | x :: rest => x ++ sep ++ join sep rest
  end.

(** [GetSubstitution] for a string pattern: there are no captures, so the
    only special forms in the replacement are [$$], [$&], [$`] and [$']. *)
Fixpoint getSubstitution (matched before after repl : list N) : list N :=
  match repl with
  | [] => []
  | c :: r =>
      if (c =? 36)%N then
        match r with
        | d :: r' =>
            if (d =? 36)%N then 36%N :: getSubstitution matched before after r'
            else if (d =? 38)%N then matched ++ getSubstitution matched before after r'
            else if (d =? 96)%N then before ++ getSubstitution matched before after r'
            else if (d =? 39)%N then after ++ getSubstitution matched before after r'
            else c :: getSubstitution matched before after r
        | [] => [c]
        end
      else c :: getSubstitution matched before after r
  end.

(** [s.replace(pat, repl)] with a string pattern: the first occurrence
    only. *)
Definition replace (s pat repl : list N) : list N :=
  match indexOf s pat with
  | None => s
  | Some i =>
      let before := take i s in
      let after := drop (i + length pat) s in
      before ++ getSubstitution pat before after repl ++ after
  end.

(** Index of the first code unit equal to [c]. *)
Fixpoint indexOfUnit (c : N) (s : list N) : option nat :=
  match s with
  | [] => None
  | x :: r => if (x =? c)%N then Some 0 else option_map S (indexOfUnit c r)
  end.

(** Index of the last code unit equal to [c]. *)
Fixpoint lastIndexOfUnit (c : N) (s : list N) : option nat :=
  match s with
  | [] => None
  | x :: r =>
      match lastIndexOfUnit c r with
      | Some j => Some (S j)
      | None => if (x =? c)%N then Some 0 else None
      end
  end.

(** [s.match(/\{[\s\S]*\}/)]: the match starts at the leftmost [{]; the
    star is greedy over every code unit, so the match ends at the last [}]
    after it. When no [}] follows the first [{], none follows a later one
    either and the result is [null]. *)
Definition matchBraces (s : list N) : option (list N) :=
  match indexOfUnit 123 s with
  | None => None
  | Some i =>
      let rest := drop i s in
      match lastIndexOfUnit 125 rest with
      | Some j => Some (take (S j) rest)
      | None => None
      end
  end.

End JS.

(* ===================================================================== *)
(** ** JSON values and [JSON.parse] *)
(* ===================================================================== *)

Module Json.

Inductive json : Type :=
| JNull
| JBool (b : bool)
| JNumber (q : Q)
| JString (s : list N)
| JArray (items : list json)
| JObject (members : list (list N * json)).

(** Property read [obj[k]] on a parsed object: [JSON.parse] lets the last
    of several equal keys win. *)
Fixpoint getProp (k : list N) (members : list (list N * json)) : option json :=
  match members with
  | [] => None
  | (k', v) :: rest =>
      match getProp k rest with
      | Some v' => Some v'
      | None => if JS.eqb k k' then Some v else None
      end
  end.

Definition isJsonWs (c : N) : bool :=
  ((c =? 32) || (c =? 9) || (c =? 10) || (c =? 13))%N.

Fixpoint skipWs (s : list N) : list N :=
  match s with
  | c :: r => if isJsonWs c then skipWs r else s
  | [] => []
  end.

Definition isDigit (c : N) : bool := ((48 <=? c) && (c <=? 57))%N.

Fixpoint takeDigits (s : list N) : list N * list N :=
  match s with
  | c :: r =>
      if isDigit c then let '(ds, rest) := takeDigits r in (c :: ds, rest)
      else ([], s)
  | [] => ([], [])
  end.

Definition digitsValue (ds : list N) : Z :=
  fold_left (fun acc d => acc * 10 + (Z.of_N d - 48))%Z ds 0%Z.

(** [m * 10^e] as a rational. *)
Definition decimal (m e : Z) : Q :=
  if (0 <=? e)%Z then inject_Z (m * 10 ^ e)
  else Qmake m (Z.to_pos (10 ^ (- e))).

(** number = [-]? int frac? exp?, with int = 0 | [1-9][0-9]* *)
Definition parseNumber (s : list N) : option (Q * list N) :=
  let '(neg, s1) :=
    match s with
    | c :: r => if (c =? 45)%N then (true, r) else (false, s)
    | [] => (false, s)
    end in
  let '(intDs, s2) := takeDigits s1 in
  match intDs with
  | [] => None
  | d :: ds =>
      if (d =? 48)%N && JS.truthy ds then None
      else
        '(fracDs, s3) ←
          match s2 with
          | c :: r =>
              if (c =? 46)%N then
                let '(fs, r') := takeDigits r in
                if JS.truthy fs then Some (fs, r') else None
              else Some ([], s2)
          | [] => Some ([], s2)
          end;
        '(ex, s4) ←
          match s3 with
          | c :: r =>
              if (c =? 101)%N || (c =? 69)%N then
                let '(eneg, r1) :=
                  match r with
                  | g :: r0 =>
                      if (g =? 45)%N then (true, r0)
                      else if (g =? 43)%N then (false, r0)
                      else (false, r)
                  | [] => (false, r)
                  end in
                let '(es, r2) := takeDigits r1 in
                if JS.truthy es
                then Some (if eneg then (- digitsValue es)%Z else digitsValue es, r2)
                else None
              else Some (0%Z, s3)
          | [] => Some (0%Z, s3)
          end;
        let m := digitsValue (intDs ++ fracDs) in
        let m := if neg then (- m)%Z else m in
        Some (decimal m (ex - Z.of_nat (length fracDs)), s4)
  end.

Definition hexDigit (c : N) : option N :=
  if isDigit c then Some (c - 48)%N
  else if ((97 <=? c) && (c <=? 102))%N then Some (c - 87)%N
  else if ((65 <=? c) && (c <=? 70))%N then Some (c - 55)%N
  else None.

Definition hex4 (a b c d : N) : option N :=
  x ← hexDigit a; y ← hexDigit b; z ← hexDigit c; w ← hexDigit d;
  Some (((x * 16 + y) * 16 + z) * 16 + w)%N.

Definition unescape (e : N) : option N :=
  if (e =? 34)%N then Some 34%N
  else if (e =? 92)%N then Some 92%N
  else if (e =? 47)%N then Some 47%N
  else if (e =? 98)%N then Some 8%N
  else if (e =? 102)%N then Some 12%N
  else if (e =? 110)%N then Some 10%N
  else if (e =? 114)%N then Some 13%N
  else if (e =? 116)%N then Some 9%N
  else None.

(** The characters of a string after its opening quote, up to and
    including the closing quote. *)
Fixpoint parseStringBody (s : list N) : option (list N * list N) :=
  match s with
  | [] => None
  | c :: r =>
      if (c =? 34)%N then Some ([], r)
      else if (c =? 92)%N then
        match r with
        | [] => None
        | e :: r' =>
            if (e =? 117)%N then
              match r' with
              | h1 :: h2 :: h3 :: h4 :: r'' =>
                  u ← hex4 h1 h2 h3 h4;
                  '(str, rest) ← parseStringBody r'';
                  Some (u :: str, rest)
              | _ => None
              end
            else
              u ← unescape e;
              '(str, rest) ← parseStringBody r';
              Some (u :: str, rest)
        end
      else if (c <? 32)%N then None
      else
        '(str, rest) ← parseStringBody r;
        Some (c :: str, rest)
  end.

Fixpoint parseValue (fuel : nat) (s : list N) : option (json * list N) :=
  match fuel with
  | O => None
  | S f =>
      match skipWs s with
      | [] => None
      | c :: r =>
          if (c =? 123)%N then
            match skipWs r with
            | [] => None
            | c2 :: r2 =>
                if (c2 =? 125)%N then Some (JObject [], r2)
                else '(ms, rest) ← parseMembers f (c2 :: r2); Some (JObject ms, rest)
            end
          else if (c =? 91)%N then
            match skipWs r with
            | [] => None
            | c2 :: r2 =>
                if (c2 =? 93)%N then Some (JArray [], r2)
                else '(vs, rest) ← parseElements f (c2 :: r2); Some (JArray vs, rest)
            end
          else if (c =? 34)%N then
            '(str, rest) ← parseStringBody r; Some (JString str, rest)
          else if JS.startsWith (c :: r) (JS.lit "true") then Some (JBool true, drop 4 (c :: r))
          else if JS.startsWith (c :: r) (JS.lit "false") then Some (JBool false, drop 5 (c :: r))
          else if JS.startsWith (c :: r) (JS.lit "null") then Some (JNull, drop 4 (c :: r))
          else '(q, rest) ← parseNumber (c :: r); Some (JNumber q, rest)
      end
  end
with parseElements (fuel : nat) (s : list N) : option (list json * list N) :=
  match fuel with
  | O => None
  | S f =>
      '(v, r) ← parseValue f s;
      match skipWs r with
      | [] => None
      | c :: r' =>
          if (c =? 44)%N then '(vs, rest) ← parseElements f r'; Some (v :: vs, rest)
          else if (c =? 93)%N then Some ([v], r')
          else None
      end
  end
with parseMembers (fuel : nat) (s : list N) : option (list (list N * json) * list N) :=
  match fuel with
  | O => None
  | S f =>
      match skipWs s with
      | [] => None
      | c :: r =>
          if (c =? 34)%N then
            '(k, r1) ← parseStringBody r;
            match skipWs r1 with
            | [] => None
            | c1 :: r2 =>
                if (c1 =? 58)%N then
                  '(v, r3) ← parseValue f r2;
                  match skipWs r3 with
                  | [] => None
                  | c3 :: r4 =>
                      if (c3 =? 44)%N then
                        '(ms, rest) ← parseMembers f r4; Some ((k, v) :: ms, rest)
                      else if (c3 =? 125)%N then Some ([(k, v)], r4)
                      else None
                  end
                else None
            end
          else None
      end
  end.

(** [JSON.parse(text)]: one value between optional white space. [inl] is
    the message of the [SyntaxError] thrown; its wording differs between
    engines and no property depends on it. Each call of the three parsers
    above consumes a code unit before it recurses twice, so twice the
    length of the text is fuel enough ([parse_fuel_enough] below). *)
Definition parse (text : list N) : list N + json :=
  match parseValue (2 * length text + 2) text with
  | Some (v, rest) =>
      match skipWs rest with
      | [] => inr v
      | _ :: _ => inl (JS.lit "Unexpected non-whitespace character after JSON")
      end
  | None => inl (JS.lit "Unexpected token or end of JSON input")
  end.

End Json.

(* ===================================================================== *)
(** ** types.ts *)
(* ===================================================================== *)

Module Types.

(** [MessageClassificationRequest]. The declared type of [message] is
    [string]; the run-time checks of both workflows and of the activity
    also cover a missing one, which is [None] here. *)
Record MessageClassificationRequest : Type := {
  message : option (list N);
  userId : option (list N);
  metadata : option (list (list N * Json.json))
}.

(** [MessageClassificationResult] *)
Record MessageClassificationResult : Type := {
  resultMessage : list N;
  isOffensive : bool;
  confidence : option Q;
  reasoning : option (list N);
  provider : list N;
  model : list N;
  timestamp : Z
}.

(** What a [throw] can carry: the two error classes of [types.ts], any
    other [Error] instance (with its [name] and [message]), or a value
    that is not an [Error] at all. *)
Inductive Exn : Type :=
| Error (name message : list N)
| LLMProviderError (message provider : list N) (originalError : option Exn)
| ClassificationError (message : list N) (request : MessageClassificationRequest)
    (originalError : option Exn)
| Thrown.

(** [e instanceof Error] *)
Definition instanceofError (e : Exn) : bool :=
  match e with Thrown => false | _ => true end.

(** [e instanceof LLMProviderError || e instanceof ClassificationError] *)
Definition isDomainError (e : Exn) : bool :=
  match e with
  | LLMProviderError _ _ _ | ClassificationError _ _ _ => true
  | _ => false
  end.

Definition isClassificationError (e : Exn) : bool :=
  match e with ClassificationError _ _ _ => true | _ => false end.

(** [e.message] of an [Error] instance. *)
Definition errorMessage (e : Exn) : list N :=
  match e with
  | Error _ m | LLMProviderError m _ _ | ClassificationError m _ _ => m
  | Thrown => []
  end.

End Types.

(* ===================================================================== *)
(** ** llm-config.ts *)
(* ===================================================================== *)

Module LlmConfig.
Import JS Json Types.

(** [process.env]: variable name to value; an unset variable has no
    entry. *)
Abbreviation Env := (gmap string (list N)).

(** What [createOpenAI] and [createOpenAICompatible] are given. *)
Inductive Provider : Type :=
| OpenAI (apiKey : list N) (baseURL : option (list N))
| OpenAICompatible (name apiKey baseURL : list N).

(** A language model of a provider, as [provider.languageModel(modelId)]
    hands it out: no request is made to build it. *)
Record ModelHandle : Type := {
  handleProvider : Provider;
  handleModelId : list N
}.

(** [createRegistry()]: the providers whose variable is set and not
    empty, or the error of the constructor when there is none. *)
Definition createRegistry (env : Env) : Exn + gmap (list N) Provider :=
  let providers : gmap (list N) Provider := ∅ in
  let providers :=
    match env !! "OPENAI_API_KEY" with
    | Some key =>
        if truthy key
        then <[lit "openai" := OpenAI key (env !! "OPENAI_BASE_URL")]> providers
        else providers
    | None => providers
    end in
  let providers :=
    match env !! "LMSTUDIO_BASE_URL" with
    | Some url =>
        if truthy url
        then <[lit "lmstudio" :=
                 OpenAICompatible (lit "lmstudio")
                   (orElse (env !! "LMSTUDIO_API_KEY") (lit "not-needed"))
                   (orElse (env !! "LMSTUDIO_BASE_URL") (lit "http://localhost:1234/v1"))]>
               providers
        else providers
    | None => providers
    end in
  if decide (size providers = 0)
  then inl (LLMProviderError
              (lit "No LLM providers configured. Please check your environment variables.")
              (lit "none") None)
  else inr providers.

(** [registry.languageModel(id)] of the [ai] package: the id is split at
    its first [:]; an unknown provider id throws. (A provider id that
    names a property of [Object.prototype] finds no [languageModel]
    factory and throws as well.) *)
Definition languageModel (registry : gmap (list N) Provider) (id : list N)
  : Exn + ModelHandle :=
  match indexOfUnit 58 id with
  | None =>
      inl (Error (lit "AI_NoSuchModelError") (lit "Invalid languageModel id: " ++ id))
  | Some i =>
      let providerId := take i id in
      let modelId := drop (S i) id in
      match registry !! providerId with
      | Some p => inr {| handleProvider := p; handleModelId := modelId |}
      | None =>
          inl (Error (lit "AI_NoSuchProviderError") (lit "No such provider: " ++ providerId))
      end
  end.

(** The provider id that [registry.languageModel] looks up when the id
    is built from [provider] the way [getModel] builds it: what stands
    before the first [:] of [provider], all of it when it holds none. *)
Definition registryKey (provider : list N) : list N :=
  match indexOfUnit 58 provider with
  | Some i => take i provider
  | None => provider
  end.

(** [Partial<LLMProviderConfig>], the fields [getModel] reads. *)
Record PartialConfig : Type := {
  configProvider : option (list N);
  configModel : option (list N)
}.

(** [config?.provider || process.env.LLM_PROVIDER || 'openai'] *)
Definition getModelProvider (config : option PartialConfig) (env : Env) : list N :=
  orElse (orOpt (config ≫= configProvider) (env !! "LLM_PROVIDER")) (lit "openai").

(** [config?.model || process.env.DEFAULT_MODEL || 'gpt-4o-mini'] *)
Definition getModelName (config : option PartialConfig) (env : Env) : list N :=
  orElse (orOpt (config ≫= configModel) (env !! "DEFAULT_MODEL")) (lit "gpt-4o-mini").

(** [getModel(config?)] *)
Definition getModel (registry : gmap (list N) Provider)
    (config : option PartialConfig) (env : Env) : Exn + ModelHandle :=
  let provider := getModelProvider config env in
  let model := getModelName config env in
  match languageModel registry (provider ++ lit ":" ++ model) with
  | inr h => inr h
  | inl error =>
      inl (LLMProviderError
             (lit "Failed to get model " ++ model ++ lit " from provider " ++ provider)
             provider (Some error))
  end.

(** [getAvailableProviders()] *)
Definition getAvailableProviders (env : Env) : list (list N) :=
  let providers := [] in
  let providers :=
    if truthyOpt (env !! "OPENAI_API_KEY") then providers ++ [lit "openai"] else providers in
  let providers :=
    if truthyOpt (env !! "LMSTUDIO_BASE_URL") then providers ++ [lit "lmstudio"] else providers in
  providers.

Record Validation : Type := {
  isValid : bool;
  errors : list (list N)
}.

(** [selectedProvider === name], where [selectedProvider] may be
    [undefined]. *)
Definition optEqb (o : option (list N)) (name : list N) : bool :=
  match o with Some s => eqb s name | None => false end.

(** [validateConfiguration()] *)
Definition validateConfiguration (env : Env) : Validation :=
  let errors := [] in
  let availableProviders := getAvailableProviders env in
  let errors :=
    if (length availableProviders =? 0)%nat
    then errors ++ [lit "No LLM providers are configured"] else errors in
  let selectedProvider := env !! "LLM_PROVIDER" in
  let errors :=
    match selectedProvider with
    | Some sel =>
        if truthy sel && negb (arrayIncludes availableProviders sel)
        then errors ++
               [lit "Selected provider '" ++ sel
                ++ lit "' is not available. Available providers: "
                ++ join (lit ", ") availableProviders]
        else errors
    | None => errors
    end in
  let errors :=
    if optEqb selectedProvider (lit "openai") && negb (truthyOpt (env !! "OPENAI_API_KEY"))
    then errors ++ [lit "OpenAI provider selected but OPENAI_API_KEY is not set"]
    else errors in
  let errors :=
    if optEqb selectedProvider (lit "lmstudio") && negb (truthyOpt (env !! "LMSTUDIO_BASE_URL"))
    then errors ++ [lit "LM Studio provider selected but LMSTUDIO_BASE_URL is not set"]
    else errors in
  {| isValid := (length errors =? 0)%nat; errors := errors |}.

(** The fields [classificationSchema.parse] returns. *)
Record ClassificationData : Type := {
  dataIsOffensive : bool;
  dataConfidence : Q;
  dataReasoning : list N;
  dataCategories : option (list (list N))
}.

(** [z.boolean()] *)
Definition zBoolean (path : list N) (v : option json) : list N + bool :=
  match v with
  | Some (JBool b) => inr b
  | _ => inl (path ++ lit ": expected boolean")
  end.

(** [z.number().min(lo).max(hi)] *)
Definition zNumberMinMax (lo hi : Q) (path : list N) (v : option json) : list N + Q :=
  match v with
  | Some (JNumber q) =>
      if negb (Qle_bool lo q) then inl (path ++ lit ": number too small")
      else if negb (Qle_bool q hi) then inl (path ++ lit ": number too big")
      else inr q
  | _ => inl (path ++ lit ": expected number")
  end.

(** [z.string()] *)
Definition zString (path : list N) (v : option json) : list N + list N :=
  match v with
  | Some (JString s) => inr s
  | _ => inl (path ++ lit ": expected string")
  end.

Fixpoint allStrings (items : list json) : option (list (list N)) :=
  match items with
  | [] => Some []
  | JString s :: rest => ss ← allStrings rest; Some (s :: ss)
  | _ :: _ => None
  end.

(** [z.array(z.string()).optional()]: a missing key is accepted, [null]
    is not. *)
Definition zOptionalStringArray (path : list N) (v : option json)
  : list N + option (list (list N)) :=
  match v with
  | None => inr None
  | Some (JArray items) =>
      match allStrings items with
      | Some ss => inr (Some ss)
      | None => inl (path ++ lit ": expected array of strings")
      end
  | Some _ => inl (path ++ lit ": expected array")
  end.

Definition issueOf {A} (r : list N + A) : list (list N) :=
  match r with inl i => [i] | inr _ => [] end.

(** [classificationSchema.parse(data)]: the four declared keys, every
    other key dropped; [inl] is the [ZodError] thrown, whose message lists
    every issue found (the wording is the library's; no property depends
    on it). *)
Definition classificationSchema (data : json) : Exn + ClassificationData :=
  match data with
  | JObject members =>
      let r1 := zBoolean (lit "isOffensive") (getProp (lit "isOffensive") members) in
      let r2 := zNumberMinMax 0%Q 1%Q (lit "confidence") (getProp (lit "confidence") members) in
      let r3 := zString (lit "reasoning") (getProp (lit "reasoning") members) in
      let r4 := zOptionalStringArray (lit "categories") (getProp (lit "categories") members) in
      match r1, r2, r3, r4 with
      | inr b, inr q, inr s, inr c =>
          inr {| dataIsOffensive := b; dataConfidence := q;
                 dataReasoning := s; dataCategories := c |}
      | _, _, _, _ =>
          inl (Error (lit "ZodError")
                     (join (lit "; ") (issueOf r1 ++ issueOf r2 ++ issueOf r3 ++ issueOf r4)))
      end
  | _ => inl (Error (lit "ZodError") (lit "expected object"))
  end.

(** [CLASSIFICATION_PROMPTS] *)
Definition systemPrompt : list N :=
  lit "You are an expert content moderator. Your task is to classify whether a message contains offensive content.

Offensive content includes:
- Hate speech or discriminatory language based on race, gender, religion, etc.
- Harassment, bullying, or personal threats
- Explicit sexual content or graphic descriptions
- Graphic violence, gore, or disturbing content
- Spam, scams, or malicious content
- Content that promotes illegal activities or self-harm

Analyze the message carefully and provide:
1. A boolean classification (offensive or not)
2. Your confidence level (0.0 to 1.0)
3. Clear reasoning for your decision
4. Optional categories if the content is offensive

Be accurate, consistent, and err on the side of caution for borderline cases.".

Definition userPromptTemplate : list N :=
  lit "Classify this message for offensive content: " ++ dq ++ lit "{message}" ++ dq.

End LlmConfig.

(* ===================================================================== *)
(** ** activities.ts *)
(* ===================================================================== *)

Module Activities.
Import JS Json Types LlmConfig.

(** The options object given to [generateText] and [generateObject]
    (the schema of [generateObject] is a separate argument below). *)
Record GenerateArgs : Type := {
  argModel : ModelHandle;
  argSystem : list N;
  argPrompt : list N;
  argTemperature : Q;
  argMaxOutputTokens : N
}.

(** What an activity attempt does that an observer can count: the
    lookup of the model handle and the invocations of [generateText] and
    [generateObject]. An event stands for one invocation of the [ai]
    package's function, not for one request on the wire: the activity
    passes no [maxRetries], so the package may send the request of one
    invocation again, inside that invocation. *)
Inductive Event : Type :=
| GetModel (provider model : list N)
| GenerateText (args : GenerateArgs)
| GenerateObject (args : GenerateArgs).

(** The invocations of [generateText] and [generateObject]. *)
Definition isModelCall (ev : Event) : bool :=
  match ev with
  | GenerateText _ | GenerateObject _ => true
  | GetModel _ _ => false
  end.

(** The outside of one activity attempt: what an invocation of
    [generateText] comes back with (the text, or the error it throws once
    the package has given up), what the provider behind an invocation of
    [generateObject] generates (a JSON value, or the error thrown), and
    the clock read by [new Date()]. *)
Record World : Type := {
  textOf : GenerateArgs -> Exn + list N;
  objectOf : GenerateArgs -> Exn + json;
  now : Z
}.

(** A computation that records its events and returns or throws. *)
Definition M (A : Type) : Type := list Event * (Exn + A).

Definition ret {A} (a : A) : M A := ([], inr a).
Definition throw {A} (e : Exn) : M A := ([], inl e).
Definition emit (ev : Event) : M unit := ([ev], inr tt).

Definition bind {A B} (m : M A) (k : A -> M B) : M B :=
  match m with
  | (t, inl e) => (t, inl e)
  | (t, inr a) => let '(t', r) := k a in (t ++ t', r)
  end.

(** [try { m } catch (e) { handler(e) }] *)
Definition tryCatch {A} (m : M A) (handler : Exn -> M A) : M A :=
  match m with
  | (t, inl e) => let '(t', r) := handler e in (t ++ t', r)
  | (t, inr a) => (t, inr a)
  end.

Definition liftSum {A} (r : Exn + A) : M A :=
  match r with inl e => throw e | inr a => ret a end.

Declare Scope act_scope.
Delimit Scope act_scope with act.
Notation "x <- m ;; k" := (bind m (fun x => k))
  (at level 100, m at next level, right associativity) : act_scope.
Notation "m ;;; k" := (bind m (fun _ => k))
  (at level 100, right associativity) : act_scope.

Definition trace {A} (m : M A) : list Event := fst m.
Definition outcome {A} (m : M A) : Exn + A := snd m.

(** [llmProvider.getModel()] as the activity calls it. *)
Definition getModelM (registry : gmap (list N) Provider) (env : Env) : M ModelHandle :=
  (emit (GetModel (getModelProvider None env) (getModelName None env)) ;;;
   liftSum (getModel registry None env))%act.

(** [generateText] of the [ai] package: one invocation, with what it
    returns or throws in the end. The requests the package sends within
    it, its own retries included, are not told apart. *)
Definition generateText (w : World) (args : GenerateArgs) : M (list N) :=
  (emit (GenerateText args) ;;; liftSum (textOf w args))%act.

(** [generateObject] of the [ai] package: one invocation, whose answer
    is returned only when the schema accepts it; otherwise the
    invocation throws the package's error about the schema (the error
    that the activity's last handler looks for by the word [schema]).
    As for [generateText], the requests sent within the invocation are
    not told apart. *)
Definition generateObject {A} (w : World) (schema : json -> Exn + A)
    (args : GenerateArgs) : M A :=
  (emit (GenerateObject args) ;;;
   match objectOf w args with
   | inl e => throw e
   | inr raw =>
       match schema raw with
       | inr object => ret object
       | inl _ =>
           throw (Error (lit "AI_NoObjectGeneratedError")
                        (lit "No object generated: response did not match schema."))
       end
   end)%act.

(** The instruction appended to the system prompt on the LM Studio path. *)
Definition jsonOnlyInstruction : list N :=
  [10%N; 10%N]
  ++ lit "Respond with ONLY a valid JSON object in this exact format: {"
  ++ dq ++ lit "isOffensive" ++ dq ++ lit ": boolean, "
  ++ dq ++ lit "confidence" ++ dq ++ lit ": number, "
  ++ dq ++ lit "reasoning" ++ dq ++ lit ": " ++ dq ++ lit "string" ++ dq ++ lit "}".

(** The body of the inner [try]: match, [JSON.parse], schema. *)
Definition extractClassification (text : list N) : Exn + ClassificationData :=
  match matchBraces text with
  | Some jsonMatch =>
      match Json.parse jsonMatch with
      | inr parsedData => classificationSchema parsedData
      | inl syntaxError => inl (Error (lit "SyntaxError") syntaxError)
      end
  | None => inl (Error (lit "Error") (lit "No JSON found in response"))
  end.

(** The message built by the inner [catch]. *)
Definition parseFailureMessage (parseError : Exn) (text : list N) : list N :=
  lit "Failed to parse LM Studio response: "
  ++ (if instanceofError parseError then errorMessage parseError
      else lit "Unknown parsing error")
  ++ lit ". Response was: " ++ text.

(** The outer [catch]. *)
Definition handleActivityError (request : MessageClassificationRequest)
    (error : Exn) : M MessageClassificationResult :=
  if isDomainError error then throw error
  else if instanceofError error && includes (errorMessage error) (lit "schema") then
    throw (ClassificationError
             (lit "LLM response validation failed: " ++ errorMessage error
              ++ lit ". This indicates the model couldn't generate properly structured output.")
             request (Some error))
  else
    throw (ClassificationError
             (lit "Failed to classify message: "
              ++ (if instanceofError error then errorMessage error else lit "Unknown error"))
             request
             (if instanceofError error then Some error else None)).

(** [CLASSIFICATION_PROMPTS.userPromptTemplate.replace('{message}', ...)] *)
Definition userPromptOf (msg : list N) : list N :=
  replace userPromptTemplate (lit "{message}") msg.

(** The argument of [generateText]. *)
Definition textArgs (model : ModelHandle) (userPrompt : list N) : GenerateArgs :=
  {| argModel := model;
     argSystem := systemPrompt ++ jsonOnlyInstruction;
     argPrompt := userPrompt;
     argTemperature := (1 # 10)%Q;
     argMaxOutputTokens := 300 |}.

(** The argument of [generateObject], next to the schema. *)
Definition objectArgs (model : ModelHandle) (userPrompt : list N) : GenerateArgs :=
  {| argModel := model;
     argSystem := systemPrompt;
     argPrompt := userPrompt;
     argTemperature := (1 # 10)%Q;
     argMaxOutputTokens := 300 |}.

(** [process.env.LLM_PROVIDER || 'openai'] *)
Definition envProvider (env : Env) : list N :=
  orElse (env !! "LLM_PROVIDER") (lit "openai").

(** [process.env.DEFAULT_MODEL || 'gpt-4o-mini'] *)
Definition envModelName (env : Env) : list N :=
  orElse (env !! "DEFAULT_MODEL") (lit "gpt-4o-mini").

(** [classifyMessage(request)] *)
Definition classifyMessage (registry : gmap (list N) Provider) (env : Env)
    (w : World) (request : MessageClassificationRequest)
  : M MessageClassificationResult :=
  tryCatch
    (msg <- match message request with
            | Some m =>
                if negb (truthy m) || (length (trim m) =? 0)%nat
                then throw (ClassificationError (lit "Message cannot be empty") request None)
                else ret m
            | None =>
                throw (ClassificationError (lit "Message cannot be empty") request None)
            end ;;
     model <- getModelM registry env ;;
     let provider := envProvider env in
     let modelName := envModelName env in
     let userPrompt := userPromptOf msg in
     classificationData <-
       (if eqb provider (lit "lmstudio") then
          text <- generateText w (textArgs model userPrompt) ;;
          tryCatch (liftSum (extractClassification text))
            (fun parseError =>
               throw (ClassificationError (parseFailureMessage parseError text) request
                        (if instanceofError parseError then Some parseError else None)))
        else
          generateObject w classificationSchema (objectArgs model userPrompt)) ;;
     ret {| resultMessage := msg;
            isOffensive := dataIsOffensive classificationData;
            confidence := Some (dataConfidence classificationData);
            reasoning := Some (dataReasoning classificationData);
            provider := provider;
            model := modelName;
            timestamp := now w |})%act
    (handleActivityError request).

(** The error [generateObject] throws on a schema mismatch, as the outer
    [catch] rewrites it. *)
Definition schemaMismatch (request : MessageClassificationRequest) : Exn :=
  let cause := Error (lit "AI_NoObjectGeneratedError")
                     (lit "No object generated: response did not match schema.") in
  ClassificationError
    (lit "LLM response validation failed: " ++ errorMessage cause
     ++ lit ". This indicates the model couldn't generate properly structured output.")
    request (Some cause).

(** The guard at the head of [classifyMessage], on its own:
    [!request.message || request.message.trim().length === 0]. *)
Definition messageRejected (m : option (list N)) : bool :=
  match m with
  | Some s => negb (truthy s) || (length (trim s) =? 0)%nat
  | None => true
  end.

End Activities.

(* ===================================================================== *)
(** ** workflows.ts *)
(* ===================================================================== *)

Module Workflows.
Import JS Json Types LlmConfig Activities.

(** Durations are in milliseconds. *)
Record RetryPolicy : Type := {
  initialInterval : Z;
  maximumInterval : Z;
  maximumAttempts : nat;
  backoffCoefficient : Z
}.

Record ActivityOptions : Type := {
  startToCloseTimeout : Z;
  retry : RetryPolicy
}.

(** The options given to [proxyActivities]. *)
Definition activityOptions : ActivityOptions :=
  {| startToCloseTimeout := 2 * 60 * 1000;
     retry := {| initialInterval := 1000;
                 maximumInterval := 30 * 1000;
                 maximumAttempts := 3;
                 backoffCoefficient := 2 |} |}.

(** *** The workflow engine behind [proxyActivities]

    The engine is not part of the repository. What follows is its
    documented reading of the options: an attempt that runs past
    [startToCloseTimeout] fails; a failed attempt is retried while fewer
    than [maximumAttempts] attempts were made (no error type is declared
    non-retryable); before retry number [n] the engine waits
    [initialInterval * backoffCoefficient^(n-1)], at most
    [maximumInterval]; the caller gets the outcome of the last attempt.
    The envelope the engine puts around a failure on its way to the
    workflow is not modelled, and neither is [maximumAttempts = 0], which
    the engine reads as no limit. *)

(** One attempt as the worker runs it: how long it took, its events and
    how it ended. *)
Record AttemptRun (A : Type) : Type := {
  duration : Z;
  run : M A
}.
Arguments duration {A} _.
Arguments run {A} _.

(** One attempt as the engine records it. *)
Record AttemptLog (A : Type) : Type := {
  attemptNumber : nat;
  waitedBefore : Z;
  attemptEvents : list Event;
  attemptOutcome : Exn + A
}.
Arguments attemptNumber {A} _.
Arguments waitedBefore {A} _.
Arguments attemptEvents {A} _.
Arguments attemptOutcome {A} _.

(** The wait before retry number [n] (the attempt numbered [n + 1]). *)
Definition backoff (p : RetryPolicy) (n : nat) : Z :=
  Z.min (maximumInterval p)
        (initialInterval p * backoffCoefficient p ^ (Z.of_nat n - 1)).

Definition observe {A} (opts : ActivityOptions) (r : AttemptRun A) : Exn + A :=
  if (startToCloseTimeout opts <? duration r)%Z
  then inl (Error (lit "TimeoutFailure") (lit "activity StartToClose timeout"))
  else outcome (run r).

Fixpoint attemptFrom {A} (opts : ActivityOptions) (attempts : nat -> AttemptRun A)
    (n retriesLeft : nat) : list (AttemptLog A) * (Exn + A) :=
  let out := observe opts (attempts n) in
  let log := {| attemptNumber := n;
                waitedBefore := if (n =? 1)%nat then 0%Z else backoff (retry opts) (n - 1);
                attemptEvents := trace (run (attempts n));
                attemptOutcome := out |} in
  match out, retriesLeft with
  | inl _, S k =>
      let '(logs, final) := attemptFrom opts attempts (S n) k in
      (log :: logs, final)
  | _, _ => ([log], out)
  end.

(** The call of a proxied activity: attempt 1, then the retries. *)
Definition executeActivity {A} (opts : ActivityOptions)
    (attempts : nat -> AttemptRun A) : list (AttemptLog A) * (Exn + A) :=
  attemptFrom opts attempts 1 (maximumAttempts (retry opts) - 1).

(** The record the engine keeps of attempt [k] under the options of the
    source, after a wait of [waited]. *)
Definition logOf {A} (attempts : nat -> AttemptRun A) (k : nat) (waited : Z)
  : AttemptLog A :=
  {| attemptNumber := k;
     waitedBefore := waited;
     attemptEvents := trace (run (attempts k));
     attemptOutcome := observe activityOptions (attempts k) |}.

(** The outside of one attempt of [classifyMessage]. *)
Record AttemptWorld : Type := {
  elapsed : Z;
  world : World
}.

(** Attempt [k] of [classifyMessage] on [request], which meets
    [worlds k]. *)
Definition classifyAttempt (registry : gmap (list N) Provider) (env : Env)
    (worlds : nat -> AttemptWorld) (request : MessageClassificationRequest)
    (k : nat) : AttemptRun MessageClassificationResult :=
  {| duration := elapsed (worlds k);
     run := classifyMessage registry env (world (worlds k)) request |}.

(** The proxied [classifyMessage]. *)
Definition classifyMessageProxy (registry : gmap (list N) Provider) (env : Env)
    (worlds : nat -> AttemptWorld) (request : MessageClassificationRequest)
  : list (AttemptLog MessageClassificationResult)
    * (Exn + MessageClassificationResult) :=
  executeActivity activityOptions (classifyAttempt registry env worlds request).

(** An activity the workflow scheduled, with the attempts it took. *)
Record Scheduled : Type := {
  scheduledRequest : MessageClassificationRequest;
  scheduledAttempts : list (AttemptLog MessageClassificationResult)
}.

(** The input check of [messageClassificationWorkflow]:
    [!request || !request.message]. *)
Definition invalidRequest (request : option MessageClassificationRequest) : bool :=
  match request with
  | None => true
  | Some r => negb (truthyOpt (message r))
  end.

(** [messageClassificationWorkflow(request)]: the activities it scheduled
    and how it ended. *)
Definition messageClassificationWorkflow (registry : gmap (list N) Provider)
    (env : Env) (worlds : nat -> AttemptWorld)
    (request : option MessageClassificationRequest)
  : list Scheduled * (Exn + MessageClassificationResult) :=
  match request with
  | Some r =>
      if invalidRequest request
      then ([], inl (Error (lit "Error") (lit "Invalid request: message is required")))
      else
        let '(logs, result) := classifyMessageProxy registry env worlds r in
        ([{| scheduledRequest := r; scheduledAttempts := logs |}],
         match result with
         | inr result => inr result
         | inl error => inl error
         end)
  | None => ([], inl (Error (lit "Error") (lit "Invalid request: message is required")))
  end.

(** *** [Promise.all] *)

Inductive Settled (A : Type) : Type :=
| Fulfilled (a : A)
| Rejected (e : Exn)
| Pending.
Arguments Fulfilled {A} _.
Arguments Rejected {A} _.
Arguments Pending {A}.

(** The promises settle in the order [completion] lists their indices.
    A fulfilment stores its value in the slot of its index and counts
    down; the count reaching zero fulfils the whole with the slots. The
    first rejection rejects the whole. A second settlement of the same
    index and an index out of range do nothing. *)
Fixpoint promiseAllLoop {A} (outs : list (Exn + A)) (completion : list nat)
    (values : list (option A)) (remaining : nat) : Settled (list A) :=
  match completion with
  | [] => Pending
  | i :: rest =>
      match outs !! i with
      | Some (inl e) => Rejected e
      | Some (inr v) =>
          match values !! i with
          | Some None =>
              let values := <[i := Some v]> values in
              let remaining := (remaining - 1)%nat in
              if (remaining =? 0)%nat then Fulfilled (omap id values)
              else promiseAllLoop outs rest values remaining
          | _ => promiseAllLoop outs rest values remaining
          end
      | None => promiseAllLoop outs rest values remaining
      end
  end.

(** The slots still waiting for their value: what [remaining] counts. *)
Fixpoint unfilled {A} (values : list (option A)) : nat :=
  match values with
  | [] => 0
  | None :: rest => S (unfilled rest)
  | Some _ :: rest => unfilled rest
  end.

(** What [promiseAllLoop] keeps true of its slots and its counter: one
    slot per promise, the counter equal to the number of empty slots, and
    every filled slot holding the value its promise fulfilled with. *)
Definition slotsAgree {A} (outs : list (Exn + A)) (values : list (option A))
    (remaining : nat) : Prop :=
  length values = length outs
  /\ remaining = unfilled values
  /\ forall i v, values !! i = Some (Some v) -> outs !! i = Some (inr v).

(** [Promise.all(promises)] *)
Definition promiseAll {A} (outs : list (Exn + A)) (completion : list nat)
  : Settled (list A) :=
  match outs with
  | [] => Fulfilled []
  | _ :: _ => promiseAllLoop outs completion (replicate (length outs) None) (length outs)
  end.

(** [requests.map(request => classifyMessage(request))]: the activity of
    position [i] meets [worlds i]. *)
Definition scheduleAll (registry : gmap (list N) Provider) (env : Env)
    (worlds : nat -> nat -> AttemptWorld)
    (requests : list MessageClassificationRequest)
  : list (list (AttemptLog MessageClassificationResult)
          * (Exn + MessageClassificationResult)) :=
  imap (fun i request => classifyMessageProxy registry env (worlds i) request) requests.

(** [batchMessageClassificationWorkflow(requests)] *)
Definition batchMessageClassificationWorkflow (registry : gmap (list N) Provider)
    (env : Env) (worlds : nat -> nat -> AttemptWorld) (completion : list nat)
    (requests : option (list MessageClassificationRequest))
  : list Scheduled * Settled (list MessageClassificationResult) :=
  match requests with
  | Some (r :: rs) =>
      let calls := scheduleAll registry env worlds (r :: rs) in
      (zip_with (fun request call =>
                   {| scheduledRequest := request; scheduledAttempts := call.1 |})
                (r :: rs) calls,
       match promiseAll (snd <$> calls) completion with
       | Fulfilled results => Fulfilled results
       | Rejected error => Rejected error
       | Pending => Pending
       end)
  | Some [] | None =>
      ([], Rejected (Error (lit "Error")
                           (lit "Invalid request: at least one message is required")))
  end.

End Workflows.

(* ===================================================================== *)
(** ** Concrete environments, requests and provider answers *)
(* ===================================================================== *)

Module Examples.
Import JS Json Types LlmConfig Activities Workflows.

(** Only LM Studio is configured and it is the selected provider. *)
Definition envLmStudio : Env :=
  <["LLM_PROVIDER" := lit "lmstudio"]>
    (<["LMSTUDIO_BASE_URL" := lit "http://localhost:1234/v1"]> ∅).

(** Only LM Studio is configured and [LLM_PROVIDER] is not set. *)
Definition envLmStudioUnselected : Env :=
  <["LMSTUDIO_BASE_URL" := lit "http://localhost:1234/v1"]> ∅.

(** Only OpenAI is configured and [LLM_PROVIDER] is not set. *)
Definition envOpenAI : Env := <["OPENAI_API_KEY" := lit "sk-test"]> ∅.

(** OpenAI is configured and a provider without registration is
    selected. *)
Definition envUnregistered : Env :=
  <["LLM_PROVIDER" := lit "anthropic"]> (<["OPENAI_API_KEY" := lit "sk-test"]> ∅).

(** LM Studio is configured and the selected name is [lmstudio:x],
    which is no registered name but starts with one. *)
Definition envLmStudioQualified : Env :=
  <["LLM_PROVIDER" := lit "lmstudio:x"]>
    (<["LMSTUDIO_BASE_URL" := lit "http://localhost:1234/v1"]> ∅).

(** The registry the singleton builds when the module is loaded. *)
Definition registryOf (env : Env) : gmap (list N) Provider :=
  match createRegistry env with
  | inr registry => registry
  | inl _ => ∅
  end.

Definition requestOf (text : list N) : MessageClassificationRequest :=
  {| message := Some text; userId := None; metadata := None |}.

Definition hello : MessageClassificationRequest := requestOf (lit "hello").

(** [{"isOffensive":false,"confidence":0.9,"reasoning":"ok"}] *)
Definition objectText : list N :=
  lit "{" ++ dq ++ lit "isOffensive" ++ dq ++ lit ":false,"
  ++ dq ++ lit "confidence" ++ dq ++ lit ":0.9,"
  ++ dq ++ lit "reasoning" ++ dq ++ lit ":" ++ dq ++ lit "ok" ++ dq ++ lit "}".

Definition objectValue : json :=
  JObject [(lit "isOffensive", JBool false);
           (lit "confidence", JNumber (9 # 10)%Q);
           (lit "reasoning", JString (lit "ok"))].

Definition objectData : ClassificationData :=
  {| dataIsOffensive := false; dataConfidence := (9 # 10)%Q;
     dataReasoning := lit "ok"; dataCategories := None |}.

(** A provider that answers every call with [text], or with
    [objectValue] where an object is asked for. *)
Definition answering (text : list N) : World :=
  {| textOf := fun _ => inr text; objectOf := fun _ => inr objectValue; now := 0 |}.

(** A provider whose every call fails with [e]. *)
Definition failing (e : Exn) : World :=
  {| textOf := fun _ => inl e; objectOf := fun _ => inl e; now := 0 |}.

Definition unavailable : Exn := Error (lit "APICallError") (lit "Service Unavailable").

(** Two attempts that meet an unavailable provider in 50 ms each, then
    attempts that are answered. *)
Definition recovering (k : nat) : AttemptWorld :=
  if (k <? 3)%nat
  then {| elapsed := 50; world := failing unavailable |}
  else {| elapsed := 50; world := answering [] |}.

(** Prose around the object that has braces of its own. *)
Definition proseWithBrace : list N := lit "Note {draft}: ".

(** The pieces of [text] that start with [{], end with [}] and are, on
    their own, the text of a JSON object: (start, length) of each. This
    is how [a response containing exactly one JSON object] is read. *)
Definition isObjectText (s : list N) : bool :=
  match head s, last s, Json.parse s with
  | Some a, Some b, inr (JObject _) => ((a =? 123) && (b =? 125))%N
  | _, _, _ => false
  end.

Definition jsonObjectsIn (text : list N) : list (nat * nat) :=
  flat_map
    (fun start =>
       flat_map
         (fun len =>
            if isObjectText (take len (drop start text)) then [(start, len)] else [])
         (seq 1 (length text - start)))
    (seq 0 (length text)).

End Examples.

(* ===================================================================== *)
(** ** The rest of activities.ts and workflows.ts: the greeting *)
(* ===================================================================== *)

Module Greeting.
Import JS Types Activities Workflows.

(** [sayName(name)]: a falsy name is replaced before the greeting is
    built. *)
Definition sayName (name : option (list N)) : M (list N) :=
  let name := orElse name (lit "anonymous human") in
  ret (lit "Hello, " ++ name ++ lit "!").

(** Attempt [k] of the proxied [sayName], which takes [elapsedOf k]. *)
Definition sayNameAttempt (elapsedOf : nat -> Z) (name : option (list N)) (k : nat)
  : AttemptRun (list N) :=
  {| duration := elapsedOf k; run := sayName name |}.

(** [helloWorldWorkflow(name)] *)
Definition helloWorldWorkflow (elapsedOf : nat -> Z) (name : option (list N))
  : list (AttemptLog (list N)) * (Exn + list N) :=
  executeActivity activityOptions (sayNameAttempt elapsedOf name).

End Greeting.

(* ===================================================================== *)
(** ** The rest of llm-config.ts: the singleton *)
(* ===================================================================== *)

Module Singleton.
Import JS Types LlmConfig.

(** An [LLMProviderManager]: its private [registry]. *)
Record LLMProviderManager : Type := {
  registry : gmap (list N) Provider
}.

(** [LLMProviderManager.getInstance()]: [instance] is the static field
    before the call; the result is what the call returns or throws, and
    the static field after it. The constructor runs [createRegistry] on
    the environment of that moment; when it throws, nothing is stored. *)
Definition getInstance (instance : option LLMProviderManager) (env : Env)
  : (Exn + LLMProviderManager) * option LLMProviderManager :=
  match instance with
  | Some manager => (inr manager, Some manager)
  | None =>
      match createRegistry env with
      | inr r => (inr {| registry := r |}, Some {| registry := r |})
      | inl e => (inl e, None)
      end
  end.

(** The static field after a series of calls, one per environment the
    process went through. *)
Fixpoint instanceAfter (instance : option LLMProviderManager) (envs : list Env)
  : option LLMProviderManager :=
  match envs with
  | [] => instance
  | env :: rest => instanceAfter (getInstance instance env).2 rest
  end.

End Singleton.

(* ===================================================================== *)
(** ** worker.ts and client.ts: the two processes *)
(* ===================================================================== *)

Module Process.
Import JS Types LlmConfig.

(** What a process does that its operator sees. Of the console, the
    lines of the start-up check and every reported error are kept; the
    other [console.log] lines (results, banners) are left out. *)
Inductive Event : Type :=
| Stdout (line : list N)
| Stderr (line : list N)
| StderrValue (label : list N) (e : Exn)
| Connect (address : option (list N)) (tls : bool) (apiKey : option (list N))
| CloseConnection
| CreateWorker (namespace : option (list N)) (taskQueue : list N)
| RunWorker
| StartWorkflow (workflowType taskQueue workflowId : list N)
| AwaitResult
| Exit (code : Z).

(** How a piece of a process ends: it returns, it throws, or
    [process.exit] has stopped the process. *)
Inductive Stop (A : Type) : Type :=
| Done (a : A)
| Raised (e : Exn)
| Halted (code : Z).
Arguments Done {A} _.
Arguments Raised {A} _.
Arguments Halted {A} _.

Definition Proc (A : Type) : Type := list Event * Stop A.

Definition pret {A} (a : A) : Proc A := ([], Done a).
Definition emit (ev : Event) : Proc unit := ([ev], Done tt).

(** [process.exit(code)] *)
Definition exit {A} (code : Z) : Proc A := ([Exit code], Halted code).

(** A call that leaves the process: its event, then what came back. *)
Definition call {A} (ev : Event) (result : Exn + A) : Proc A :=
  ([ev], match result with inl e => Raised e | inr a => Done a end).

Definition pbind {A B} (m : Proc A) (k : A -> Proc B) : Proc B :=
  match m with
  | (t, Done a) => let '(t', r) := k a in (t ++ t', r)
  | (t, Raised e) => (t, Raised e)
  | (t, Halted c) => (t, Halted c)
  end.

(** [try { m } catch (e) { handler(e) }] *)
Definition pcatch {A} (m : Proc A) (handler : Exn -> Proc A) : Proc A :=
  match m with
  | (t, Raised e) => let '(t', r) := handler e in (t ++ t', r)
  | other => other
  end.

(** [try { m } finally { cleanup }]: the cleanup runs whether [m] returned
    or threw, and what it throws replaces the ending of [m]; a process
    that has exited runs nothing more. *)
Definition pfinally {A} (m : Proc A) (cleanup : Proc unit) : Proc A :=
  match m with
  | (t, Halted c) => (t, Halted c)
  | (t, r) =>
      match cleanup with
      | (t', Done _) => (t ++ t', r)
      | (t', Raised e) => (t ++ t', Raised e)
      | (t', Halted c) => (t ++ t', Halted c)
      end
  end.

Declare Scope proc_scope.
Delimit Scope proc_scope with proc.
Notation "x <- m ;; k" := (pbind m (fun x => k))
  (at level 100, m at next level, right associativity) : proc_scope.
Notation "m ;;; k" := (pbind m (fun _ => k))
  (at level 100, right associativity) : proc_scope.

Fixpoint emitAll (evs : list Event) : Proc unit :=
  match evs with
  | [] => pret tt
  | ev :: rest => (emit ev ;;; emitAll rest)%proc
  end.

(** The exit status of a finished process: that of [process.exit] when
    it was called, 0 otherwise. *)
Fixpoint exitCode (events : list Event) : Z :=
  match events with
  | [] => 0
  | Exit code :: _ => code
  | _ :: rest => exitCode rest
  end.

(** [Connection.connect] and [NativeConnection.connect] get the same
    three settings. *)
Definition connectEvent (env : Env) : Event :=
  Connect (env !! "TEMPORAL_ADDRESS")
          (optEqb (env !! "TEMPORAL_TLS") (lit "true"))
          (env !! "TEMPORAL_API_KEY").

End Process.

Module Worker.
Import JS Types LlmConfig Process.

(** What the engine's client library answers the worker at each of its
    four calls. *)
Record WorkerWorld : Type := {
  connectResult : Exn + unit;
  createResult : Exn + unit;
  runResult : Exn + unit;
  closeResult : Exn + unit
}.

(** [run()]. [taskQueue] is [TASK_QUEUE_NAME] of [./shared]. *)
Definition run (env : Env) (taskQueue : list N) (w : WorkerWorld) : Proc unit :=
  (let validation := validateConfiguration env in
   (if negb (isValid validation) then
      emit (Stderr (lit "LLM configuration validation failed:")) ;;;
      emitAll (map (fun error => Stderr (lit "  - " ++ error)) (errors validation)) ;;;
      exit 1
    else pret tt) ;;;
   emit (Stdout (lit "LLM configuration validated successfully")) ;;;
   emit (Stdout (lit "Available providers: "
                 ++ join (lit ", ") (getAvailableProviders env))) ;;;
   emit (Stdout (lit "Selected provider: "
                 ++ orElse (env !! "LLM_PROVIDER") (lit "openai"))) ;;;
   call (connectEvent env) (connectResult w) ;;;
   pfinally
     (call (CreateWorker (env !! "TEMPORAL_NAMESPACE") taskQueue) (createResult w) ;;;
      call RunWorker (runResult w))
     (call CloseConnection (closeResult w)))%proc.

(** The worker process: loading [llm-config] builds the singleton, and a
    constructor that throws ends the process there; otherwise
    [run().catch(err => { console.error(err); process.exit(1) })]. *)
Definition main (env : Env) (taskQueue : list N) (w : WorkerWorld) : list Event :=
  match createRegistry env with
  | inl e => [StderrValue [] e; Exit 1]
  | inr _ =>
      (pcatch (run env taskQueue w)
         (fun err => (emit (StderrValue [] err) ;;; exit 1)%proc)).1
  end.

End Worker.

Module Client.
Import JS Types LlmConfig Process.

(** What the engine answers the client, and the id [nanoid()] draws. *)
Record ClientWorld : Type := {
  connectResult : Exn + unit;
  startResult : Exn + unit;
  singleResult : Exn + MessageClassificationResult;
  batchResult : Exn + list MessageClassificationResult;
  closeResult : Exn + unit;
  nanoid : list N
}.

(** [runSingleClassification()] *)
Definition runSingleClassification (env : Env) (taskQueue : list N) (w : ClientWorld)
  : Proc unit :=
  (call (connectEvent env) (connectResult w) ;;;
   call (StartWorkflow (lit "messageClassificationWorkflow") taskQueue
           (lit "message-classification-" ++ nanoid w))
        (startResult w) ;;;
   pcatch (call AwaitResult (singleResult w) ;;; pret tt)
          (fun error => emit (StderrValue (lit "Workflow failed:") error)) ;;;
   call CloseConnection (closeResult w))%proc.

(** [runBatchClassification()] *)
Definition runBatchClassification (env : Env) (taskQueue : list N) (w : ClientWorld)
  : Proc unit :=
  (call (connectEvent env) (connectResult w) ;;;
   call (StartWorkflow (lit "batchMessageClassificationWorkflow") taskQueue
           (lit "batch-classification-" ++ nanoid w))
        (startResult w) ;;;
   pcatch (call AwaitResult (batchResult w) ;;; pret tt)
          (fun error => emit (StderrValue (lit "Batch workflow failed:") error)) ;;;
   call CloseConnection (closeResult w))%proc.

(** [main()], on [process.argv]. *)
Definition main (argv : list (list N)) (env : Env) (taskQueue : list N)
    (w : ClientWorld) : list Event :=
  let args := drop 2 argv in
  let mode := orElse (head args) (lit "single") in
  (pcatch
     (if eqb mode (lit "batch") then runBatchClassification env taskQueue w
      else runSingleClassification env taskQueue w)
     (fun error => (emit (StderrValue (lit "Error:") error) ;;; exit 1)%proc)).1.

End Client.

(* ===================================================================== *)
(** ** Vocabulary of the further properties *)
(* ===================================================================== *)

Module Reading.
Import JS Json Types LlmConfig Activities Workflows.

(** The invocations of [generateText] and [generateObject] among the
    events of an attempt. *)
Definition modelCalls (events : list Activities.Event) : list Activities.Event :=
  List.filter isModelCall events.

(** [c] does not occur in [s]. *)
Definition lacks (c : N) (s : list N) : Prop := Forall (fun x => x <> c) s.

(** A provider that throws no error of the two domain classes. *)
Definition plainFailures (w : World) : Prop :=
  (forall args e, textOf w args = inl e -> isDomainError e = false)
  /\ (forall args e, objectOf w args = inl e -> isDomainError e = false).

(** What the outer [catch] makes of an error. *)
Definition wrapped (request : MessageClassificationRequest) (e : Exn) : Exn :=
  match e with
  | LLMProviderError _ _ _ | ClassificationError _ _ _ => e
  | Error _ m =>
      if includes m (lit "schema") then
        ClassificationError
          (lit "LLM response validation failed: " ++ m
           ++ lit ". This indicates the model couldn't generate properly structured output.")
          request (Some e)
      else
        ClassificationError (lit "Failed to classify message: " ++ m) request (Some e)
  | Thrown =>
      ClassificationError (lit "Failed to classify message: Unknown error") request None
  end.

(** The failure the engine records for an attempt that ran past
    [startToCloseTimeout]. *)
Definition timeoutFailure : Exn :=
  Error (lit "TimeoutFailure") (lit "activity StartToClose timeout").

(** The first index in [completion] whose promise rejected, with its
    error. *)
Fixpoint firstRejection {A} (outs : list (Exn + A)) (completion : list nat)
  : option (nat * Exn) :=
  match completion with
  | [] => None
  | i :: rest =>
      match outs !! i with
      | Some (inl e) => Some (i, e)
      | _ => firstRejection outs rest
      end
  end.

(** A call that came back without throwing. *)
Definition succeeded {A} (result : Exn + A) : Prop :=
  match result with inr _ => True | inl _ => False end.

Definition isClose (ev : Process.Event) : bool :=
  match ev with Process.CloseConnection => true | _ => false end.

(** The connections a process closed. *)
Definition closes (events : list Process.Event) : nat :=
  length (List.filter isClose events).

(** The lines the worker prints once its check has passed. *)
Definition banner (env : Env) : list Process.Event :=
  [Process.Stdout (lit "LLM configuration validated successfully");
   Process.Stdout (lit "Available providers: "
                   ++ join (lit ", ") (getAvailableProviders env));
   Process.Stdout (lit "Selected provider: "
                   ++ orElse (env !! "LLM_PROVIDER") (lit "openai"))].

End Reading.

(* ===================================================================== *)
(** ** Facts about the string built-ins *)
(* ===================================================================== *)

Section StringFacts.
Import JS.

Lemma JS_eqb_eq (a b : list N) : eqb a b = true <-> a = b.
Proof.
  revert b. induction a as [|x a IH]; intros [|y b]; simpl; split; try congruence; try done.
  - intros [Hxy Hab]%andb_prop. apply N.eqb_eq in Hxy. apply IH in Hab. congruence.
  - intros [= -> ->]. rewrite N.eqb_refl. simpl. by apply IH.
Qed.

Lemma JS_eqb_neq (a b : list N) : eqb a b = false <-> a <> b.
Proof.
  rewrite <- JS_eqb_eq. destruct (eqb a b); split; congruence.
Qed.

Lemma trimStart_blank (s : list N) :
  Forall (fun c => isWhiteSpace c = true) s -> trimStart s = [].
Proof.
  induction 1 as [|c s Hc _ IH]; simpl; [done|]. by rewrite Hc.
Qed.

Lemma trim_blank (s : list N) :
  Forall (fun c => isWhiteSpace c = true) s -> trim s = [].
Proof.
  intros H. unfold trim, trimEnd. by rewrite (trimStart_blank s H).
Qed.






Lemma indexOfUnit_app_first (c : N) (pre rest : list N) :
  indexOfUnit c pre = None ->
  indexOfUnit c (pre ++ c :: rest) = Some (length pre).
Proof.
  induction pre as [|x pre IH]; simpl.
  - by rewrite N.eqb_refl.
  - destruct (x =? c)%N; [done|].
    destruct (indexOfUnit c pre); [done|]. intros _. by rewrite IH.
Qed.

(** The first [c] of [pre ++ c :: rest] is the first [c] of [pre], or
    the [c] that follows [pre] when [pre] holds none. *)
Lemma indexOfUnit_app_unit (c : N) (pre rest : list N) :
  let key := match indexOfUnit c pre with
             | Some i => take i pre
             | None => pre
             end in
  indexOfUnit c (pre ++ c :: rest) = Some (length key)
  /\ take (length key) (pre ++ c :: rest) = key.
Proof.
  induction pre as [|x pre IH]; simpl.
  - by rewrite N.eqb_refl.
  - destruct (x =? c)%N; [done|].
    destruct IH as [IHi IHt]. rewrite IHi.
    destruct (indexOfUnit c pre) as [i|]; simpl; by rewrite IHt.
Qed.

Lemma lastIndexOfUnit_none_app (c : N) (s post : list N) :
  lastIndexOfUnit c post = None ->
  lastIndexOfUnit c (s ++ post) = lastIndexOfUnit c s.
Proof.
  intros Hpost. induction s as [|x s IH]; simpl; [done|]. by rewrite IH.
Qed.

Lemma lastIndexOfUnit_snoc (c : N) (s : list N) :
  lastIndexOfUnit c (s ++ [c]) = Some (length s).
Proof.
  induction s as [|x s IH]; simpl.
  - by rewrite N.eqb_refl.
  - by rewrite IH.
Qed.

Lemma indexOfUnit_none_last (c : N) (s : list N) :
  indexOfUnit c s = None <-> lastIndexOfUnit c s = None.
Proof.
  induction s as [|x s IH]; simpl; [done|].
  destruct (x =? c)%N.
  - split; [done|]. destruct (lastIndexOfUnit c s); done.
  - destruct (indexOfUnit c s), (lastIndexOfUnit c s); simpl; try done.
    + destruct IH as [_ IH]. by specialize (IH eq_refl).
    + destruct IH as [IH _]. by specialize (IH eq_refl).
Qed.

(** The match is exactly the embedded text when no [{] comes before it
    and no [}] comes after it. *)
Lemma matchBraces_embedded (pre body post : list N) :
  indexOfUnit 123 pre = None ->
  indexOfUnit 125 post = None ->
  matchBraces (pre ++ (123%N :: body ++ [125%N]) ++ post)
  = Some (123%N :: body ++ [125%N]).
Proof.
  intros Hpre Hpost. unfold matchBraces.
  set (obj := 123%N :: body ++ [125%N]).
  assert (Hfirst : indexOfUnit 123 (pre ++ obj ++ post) = Some (length pre)).
  { subst obj. change ((123%N :: body ++ [125%N]) ++ post)
      with (123%N :: (body ++ [125%N]) ++ post).
    by apply indexOfUnit_app_first. }
  rewrite Hfirst, drop_app_length.
  apply indexOfUnit_none_last in Hpost.
  rewrite (lastIndexOfUnit_none_app 125 obj post Hpost).
  assert (Hlast : lastIndexOfUnit 125 obj = Some (length (123%N :: body))).
  { subst obj. change (123%N :: body ++ [125%N]) with ((123%N :: body) ++ [125%N]).
    apply lastIndexOfUnit_snoc. }
  rewrite Hlast.
  replace (S (length (123%N :: body))) with (length obj).
  - by rewrite take_app_length.
  - subst obj. simpl. rewrite length_app. simpl. lia.
Qed.

End StringFacts.

(* ===================================================================== *)
(** ** [JSON.parse] never runs out of fuel *)
(* ===================================================================== *)

Section JsonFuel.
Import JS Json.

Lemma skipWs_length (s : list N) : length (skipWs s) <= length s.
Proof.
  induction s as [|c s IH]; simpl; [done|]. destruct (isJsonWs c); simpl; lia.
Qed.

Lemma skipWs_cons_length (s r : list N) (c : N) :
  skipWs s = c :: r -> S (length r) <= length s.
Proof.
  intros H. pose proof (skipWs_length s) as Hl. rewrite H in Hl. exact Hl.
Qed.

Lemma takeDigits_length (s : list N) : length (takeDigits s).2 <= length s.
Proof.
  induction s as [|c s IH]; simpl; [done|].
  destruct (isDigit c); [|simpl; lia].
  destruct (takeDigits s) as [ds rest]. simpl in *. lia.
Qed.

Lemma parseStringBody_length (s str r : list N) :
  parseStringBody s = Some (str, r) -> length r <= length s.
Proof.
  remember (length s) as n eqn:Hn. revert s str r Hn.
  induction n as [n IH] using lt_wf_ind. intros s str r ->.
  destruct s as [|c s]; simpl; [done|].
  destruct (c =? 34)%N; [intros [= _ <-]; lia|].
  destruct (c =? 92)%N.
  - destruct s as [|e s]; [done|].
    destruct (e =? 117)%N.
    + destruct s as [|h1 [|h2 [|h3 [|h4 s]]]]; try done.
      destruct (hex4 h1 h2 h3 h4); [|done]. simpl.
      destruct (parseStringBody s) as [[str' r']|] eqn:Hb; [|done]. simpl.
      intros [= _ <-]. specialize (IH (length s)). simpl in IH.
      specialize (IH ltac:(lia) s str' r' eq_refl Hb). lia.
    + destruct (unescape e); [|done]. simpl.
      destruct (parseStringBody s) as [[str' r']|] eqn:Hb; [|done]. simpl.
      intros [= _ <-]. specialize (IH (length s)). simpl in IH.
      specialize (IH ltac:(lia) s str' r' eq_refl Hb). lia.
  - destruct (c <? 32)%N; [done|].
    destruct (parseStringBody s) as [[str' r']|] eqn:Hb; [|done]. simpl.
    intros [= _ <-]. specialize (IH (length s)). simpl in IH.
    specialize (IH ltac:(lia) s str' r' eq_refl Hb). lia.
Qed.

Lemma parseNumber_length (s r : list N) (q : Q) :
  parseNumber s = Some (q, r) -> length r <= length s.
Proof.
  unfold parseNumber.
  set (sign := match s with
               | c :: r0 => if (c =? 45)%N then (true, r0) else (false, s)
               | [] => (false, s)
               end).
  assert (Hsign : length sign.2 <= length s).
  { subst sign. destruct s as [|c s]; [done|]. destruct (c =? 45)%N; simpl; lia. }
  destruct sign as [neg s1]. simpl in Hsign.
  pose proof (takeDigits_length s1) as H1.
  destruct (takeDigits s1) as [intDs s2]. simpl in H1.
  destruct intDs as [|d ds]; [done|].
  destruct ((d =? 48)%N && truthy ds); [done|].
  set (frac := match s2 with
               | c :: r0 =>
                   if (c =? 46)%N
                   then let '(fs, r') := takeDigits r0 in
                        if truthy fs then Some (fs, r') else None
                   else Some ([], s2)
               | [] => Some ([], s2)
               end).
  assert (Hfrac : forall fs s3, frac = Some (fs, s3) -> length s3 <= length s2).
  { subst frac. intros fs s3. destruct s2 as [|c s2']; [by intros [= _ <-]|].
    destruct (c =? 46)%N; [|by intros [= _ <-]].
    pose proof (takeDigits_length s2') as H2.
    destruct (takeDigits s2') as [fs' r']. simpl in H2.
    destruct (truthy fs'); [|done]. intros [= _ <-]. simpl. lia. }
  destruct frac as [[fracDs s3]|]; [|done]. simpl.
  specialize (Hfrac fracDs s3 eq_refl).
  set (ex := match s3 with
             | c :: r0 => _
             | [] => Some (0%Z, s3)
             end).
  assert (Hex : forall e s4, ex = Some (e, s4) -> length s4 <= length s3).
  { subst ex. intros e s4. destruct s3 as [|c s3']; [by intros [= _ <-]|].
    destruct ((c =? 101)%N || (c =? 69)%N); [|by intros [= _ <-]].
    set (esign := match s3' with
                  | g :: r0 => _
                  | [] => (false, s3')
                  end).
    assert (Hes : length esign.2 <= length s3').
    { subst esign. destruct s3' as [|g s3'']; [done|].
      destruct (g =? 45)%N; [simpl; lia|]. destruct (g =? 43)%N; simpl; lia. }
    destruct esign as [eneg r1]. simpl in Hes.
    pose proof (takeDigits_length r1) as H3.
    destruct (takeDigits r1) as [es r2]. simpl in H3.
    destruct (truthy es); [|done]. intros [= _ <-]. simpl. lia. }
  destruct ex as [[e s4]|]; [|done]. simpl.
  specialize (Hex e s4 eq_refl). intros [= _ <-]. lia.
Qed.

(** One step of each of the three parsers. *)
Lemma parseValue_step (f : nat) (s : list N) :
  parseValue (S f) s =
  match skipWs s with
  | [] => None
  | c :: r =>
      if (c =? 123)%N then
        match skipWs r with
        | [] => None
        | c2 :: r2 =>
            if (c2 =? 125)%N then Some (JObject [], r2)
            else '(ms, rest) ← parseMembers f (c2 :: r2); Some (JObject ms, rest)
        end
      else if (c =? 91)%N then
        match skipWs r with
        | [] => None
        | c2 :: r2 =>
            if (c2 =? 93)%N then Some (JArray [], r2)
            else '(vs, rest) ← parseElements f (c2 :: r2); Some (JArray vs, rest)
        end
      else if (c =? 34)%N then
        '(str, rest) ← parseStringBody r; Some (JString str, rest)
      else if startsWith (c :: r) (lit "true") then Some (JBool true, drop 4 (c :: r))
      else if startsWith (c :: r) (lit "false") then Some (JBool false, drop 5 (c :: r))
      else if startsWith (c :: r) (lit "null") then Some (JNull, drop 4 (c :: r))
      else '(q, rest) ← parseNumber (c :: r); Some (JNumber q, rest)
  end.
Proof. reflexivity. Qed.

Lemma parseElements_step (f : nat) (s : list N) :
  parseElements (S f) s =
  '(v, r) ← parseValue f s;
  match skipWs r with
  | [] => None
  | c :: r' =>
      if (c =? 44)%N then '(vs, rest) ← parseElements f r'; Some (v :: vs, rest)
      else if (c =? 93)%N then Some ([v], r')
      else None
  end.
Proof. reflexivity. Qed.

Lemma parseMembers_step (f : nat) (s : list N) :
  parseMembers (S f) s =
  match skipWs s with
  | [] => None
  | c :: r =>
      if (c =? 34)%N then
        '(k, r1) ← parseStringBody r;
        match skipWs r1 with
        | [] => None
        | c1 :: r2 =>
            if (c1 =? 58)%N then
              '(v, r3) ← parseValue f r2;
              match skipWs r3 with
              | [] => None
              | c3 :: r4 =>
                  if (c3 =? 44)%N then
                    '(ms, rest) ← parseMembers f r4; Some ((k, v) :: ms, rest)
                  else if (c3 =? 125)%N then Some ([(k, v)], r4)
                  else None
              end
            else None
        end
      else None
  end.
Proof. reflexivity. Qed.

(** No parser returns more text than it was given. *)
Lemma parsers_length (f : nat) :
  (forall s v r, parseValue f s = Some (v, r) -> length r <= length s)
  /\ (forall s vs r, parseElements f s = Some (vs, r) -> length r <= length s)
  /\ (forall s ms r, parseMembers f s = Some (ms, r) -> length r <= length s).
Proof.
  induction f as [|f (IHv & IHe & IHm)]; [by repeat split|].
  split; [|split]; intros s.
  - intros v r. rewrite parseValue_step.
    destruct (skipWs s) as [|c t] eqn:Hs; [done|].
    apply skipWs_cons_length in Hs.
    destruct (c =? 123)%N.
    { destruct (skipWs t) as [|c2 t2] eqn:Ht; [done|].
      apply skipWs_cons_length in Ht.
      destruct (c2 =? 125)%N; [intros [= _ <-]; lia|].
      destruct (parseMembers f (c2 :: t2)) as [[ms rest]|] eqn:Hm; [|done].
      simpl. intros [= _ <-]. apply IHm in Hm. simpl in Hm. lia. }
    destruct (c =? 91)%N.
    { destruct (skipWs t) as [|c2 t2] eqn:Ht; [done|].
      apply skipWs_cons_length in Ht.
      destruct (c2 =? 93)%N; [intros [= _ <-]; lia|].
      destruct (parseElements f (c2 :: t2)) as [[vs rest]|] eqn:He; [|done].
      simpl. intros [= _ <-]. apply IHe in He. simpl in He. lia. }
    destruct (c =? 34)%N.
    { destruct (parseStringBody t) as [[str rest]|] eqn:Hb; [|done].
      simpl. intros [= _ <-]. apply parseStringBody_length in Hb. lia. }
    destruct (startsWith (c :: t) (lit "true")).
    { intros [= _ <-]. rewrite length_drop. simpl. lia. }
    destruct (startsWith (c :: t) (lit "false")).
    { intros [= _ <-]. rewrite length_drop. simpl. lia. }
    destruct (startsWith (c :: t) (lit "null")).
    { intros [= _ <-]. rewrite length_drop. simpl. lia. }
    destruct (parseNumber (c :: t)) as [[q rest]|] eqn:Hn; [|done].
    simpl. intros [= _ <-]. apply parseNumber_length in Hn. simpl in Hn. lia.
  - intros vs r. rewrite parseElements_step.
    destruct (parseValue f s) as [[v t]|] eqn:Hv; [|done]. simpl.
    apply IHv in Hv.
    destruct (skipWs t) as [|c t'] eqn:Ht; [done|].
    apply skipWs_cons_length in Ht.
    destruct (c =? 44)%N.
    { destruct (parseElements f t') as [[vs' rest]|] eqn:He; [|done].
      simpl. intros [= _ <-]. apply IHe in He. lia. }
    destruct (c =? 93)%N; [|done]. intros [= _ <-]. lia.
  - intros ms r. rewrite parseMembers_step.
    destruct (skipWs s) as [|c t] eqn:Hs; [done|].
    apply skipWs_cons_length in Hs.
    destruct (c =? 34)%N; [|done].
    destruct (parseStringBody t) as [[k t1]|] eqn:Hb; [|done]. simpl.
    apply parseStringBody_length in Hb.
    destruct (skipWs t1) as [|c1 t2] eqn:Ht1; [done|].
    apply skipWs_cons_length in Ht1.
    destruct (c1 =? 58)%N; [|done].
    destruct (parseValue f t2) as [[v t3]|] eqn:Hv; [|done]. simpl.
    apply IHv in Hv.
    destruct (skipWs t3) as [|c3 t4] eqn:Ht3; [done|].
    apply skipWs_cons_length in Ht3.
    destruct (c3 =? 44)%N.
    { destruct (parseMembers f t4) as [[ms' rest]|] eqn:Hm; [|done].
      simpl. intros [= _ <-]. apply IHm in Hm. lia. }
    destruct (c3 =? 125)%N; [|done]. intros [= _ <-]. lia.
Qed.

(** From twice the length of the text on, more fuel changes nothing. *)
Lemma parsers_stable (f : nat) :
  (forall s f', 2 * length s + 1 <= f -> f <= f' -> parseValue f' s = parseValue f s)
  /\ (forall s f', 2 * length s + 2 <= f -> f <= f' ->
        parseElements f' s = parseElements f s)
  /\ (forall s f', 2 * length s + 2 <= f -> f <= f' ->
        parseMembers f' s = parseMembers f s).
Proof.
  induction f as [|f (IHv & IHe & IHm)]; [repeat split; intros; lia|].
  destruct (parsers_length f) as (Lv & _ & _).
  split; [|split]; intros s [|f'] Hf Hle; try lia.
  - rewrite !parseValue_step.
    destruct (skipWs s) as [|c t] eqn:Hs; [done|].
    apply skipWs_cons_length in Hs.
    destruct (c =? 123)%N.
    { destruct (skipWs t) as [|c2 t2] eqn:Ht; [done|].
      apply skipWs_cons_length in Ht.
      destruct (c2 =? 125)%N; [done|].
      rewrite (IHm (c2 :: t2) f'); [done|simpl; lia|lia]. }
    destruct (c =? 91)%N; [|done].
    destruct (skipWs t) as [|c2 t2] eqn:Ht; [done|].
    apply skipWs_cons_length in Ht.
    destruct (c2 =? 93)%N; [done|].
    rewrite (IHe (c2 :: t2) f'); [done|simpl; lia|lia].
  - rewrite !parseElements_step.
    rewrite (IHv s f'); [|lia|lia].
    destruct (parseValue f s) as [[v t]|] eqn:Hv; [|done]. simpl.
    apply Lv in Hv.
    destruct (skipWs t) as [|c t'] eqn:Ht; [done|].
    apply skipWs_cons_length in Ht.
    destruct (c =? 44)%N; [|done].
    rewrite (IHe t' f'); [done|lia|lia].
  - rewrite !parseMembers_step.
    destruct (skipWs s) as [|c t] eqn:Hs; [done|].
    apply skipWs_cons_length in Hs.
    destruct (c =? 34)%N; [|done].
    destruct (parseStringBody t) as [[k t1]|] eqn:Hb; [|done]. simpl.
    apply parseStringBody_length in Hb.
    destruct (skipWs t1) as [|c1 t2] eqn:Ht1; [done|].
    apply skipWs_cons_length in Ht1.
    destruct (c1 =? 58)%N; [|done].
    rewrite (IHv t2 f'); [|lia|lia].
    destruct (parseValue f t2) as [[v t3]|] eqn:Hv; [|done]. simpl.
    apply Lv in Hv.
    destruct (skipWs t3) as [|c3 t4] eqn:Ht3; [done|].
    apply skipWs_cons_length in Ht3.
    destruct (c3 =? 44)%N; [|done].
    rewrite (IHm t4 f'); [done|lia|lia].
Qed.

(** The fuel [parse] gives is enough: any larger amount parses the text
    to the same value or the same failure. *)
Lemma parse_fuel_enough (text : list N) (fuel : nat) :
  2 * length text + 2 <= fuel ->
  parseValue fuel text = parseValue (2 * length text + 2) text.
Proof.
  intros H. destruct (parsers_stable (2 * length text + 2)) as (Hv & _ & _).
  apply Hv; lia.
Qed.

End JsonFuel.

(* ===================================================================== *)
(** ** Facts about the schema and the activity *)
(* ===================================================================== *)

Section ActivityFacts.
Import JS Json Types LlmConfig Activities.

#[local] Arguments lit : simpl never.
#[local] Arguments userPromptOf : simpl never.
#[local] Arguments textArgs : simpl never.
#[local] Arguments objectArgs : simpl never.
#[local] Arguments extractClassification : simpl never.
#[local] Arguments classificationSchema : simpl never.
#[local] Arguments getModel : simpl never.
#[local] Arguments parseFailureMessage : simpl never.
#[local] Arguments handleActivityError : simpl never.

Lemma zNumberMinMax_bounds (lo hi : Q) (path : list N) (v : option json) (q : Q) :
  zNumberMinMax lo hi path v = inr q -> (lo <= q)%Q /\ (q <= hi)%Q.
Proof.
  unfold zNumberMinMax. destruct v as [[| | q' | | |]|]; try discriminate.
  destruct (Qle_bool lo q') eqn:Hlo; simpl; [|discriminate].
  destruct (Qle_bool q' hi) eqn:Hhi; simpl; [|discriminate].
  intros [= <-]. split; by apply Qle_bool_iff.
Qed.

(** Whatever the schema accepts has its confidence in [0, 1]. *)
Lemma classificationSchema_confidence (data : json) (d : ClassificationData) :
  classificationSchema data = inr d ->
  (0 <= dataConfidence d)%Q /\ (dataConfidence d <= 1)%Q.
Proof.
  unfold classificationSchema. destruct data; try discriminate.
  destruct (zBoolean _ _); [discriminate|].
  destruct (zNumberMinMax _ _ _ _) as [|q] eqn:Hq; [discriminate|].
  destruct (zString _ _); [discriminate|].
  destruct (zOptionalStringArray _ _); [discriminate|].
  intros [= <-]. simpl. by apply zNumberMinMax_bounds in Hq.
Qed.

Lemma extractClassification_confidence (text : list N) (d : ClassificationData) :
  extractClassification text = inr d ->
  (0 <= dataConfidence d)%Q /\ (dataConfidence d <= 1)%Q.
Proof.
  unfold extractClassification.
  destruct (matchBraces text); [|discriminate].
  destruct (Json.parse _); [discriminate|].
  apply classificationSchema_confidence.
Qed.



(** The outer handler always throws, and what it throws is one of the two
    domain errors. *)
Lemma handleActivityError_throws (request : MessageClassificationRequest) (error : Exn) :
  exists e, handleActivityError request error = ([], inl e) /\ isDomainError e = true
            /\ (isDomainError error = true -> e = error).
Proof.
  unfold handleActivityError.
  destruct (isDomainError error) eqn:Hd; [by exists error|].
  destruct (instanceofError error && includes (errorMessage error) (lit "schema"));
    eexists; (split; [reflexivity|]); split; done.
Qed.

Lemma handleActivityError_schema_mismatch (request : MessageClassificationRequest) :
  handleActivityError request
    (Error (lit "AI_NoObjectGeneratedError")
           (lit "No object generated: response did not match schema."))
  = ([], inl (schemaMismatch request)).
Proof.
  unfold handleActivityError, schemaMismatch.
  replace (includes _ _) with true by (vm_compute; reflexivity). done.
Qed.

#[local] Opaque handleActivityError.

Lemma classifyMessage_rejected registry env w request :
  messageRejected (message request) = true ->
  classifyMessage registry env w request
  = ([], inl (ClassificationError (lit "Message cannot be empty") request None)).
Proof.
  unfold classifyMessage, messageRejected.
  destruct (message request) as [s|]; [|done]. by intros ->.
Qed.

(** The run of the activity on a message that passes the check, when the
    model handle cannot be resolved. *)
Lemma classifyMessage_unresolved registry env w request e :
  messageRejected (message request) = false ->
  getModel registry None env = inl e ->
  classifyMessage registry env w request
  = ([GetModel (getModelProvider None env) (getModelName None env)], inl e).
Proof.
  unfold classifyMessage, messageRejected.
  destruct (message request) as [s|]; [|done]. intros -> Hm.
  unfold getModelM. simpl. rewrite Hm. simpl.
  revert Hm. unfold getModel. destruct (languageModel _ _); [|done].
  by intros [= <-].
Qed.

(** The run on the free-text path. *)
Lemma classifyMessage_lmstudio registry env w request msg handle :
  message request = Some msg ->
  messageRejected (Some msg) = false ->
  getModel registry None env = inr handle ->
  envProvider env = lit "lmstudio" ->
  classifyMessage registry env w request
  = ([GetModel (getModelProvider None env) (getModelName None env);
      GenerateText (textArgs handle (userPromptOf msg))],
     match textOf w (textArgs handle (userPromptOf msg)) with
     | inl e => (handleActivityError request e).2
     | inr text =>
         match extractClassification text with
         | inl parseError =>
             inl (ClassificationError (parseFailureMessage parseError text) request
                    (if instanceofError parseError then Some parseError else None))
         | inr d =>
             inr {| resultMessage := msg;
                    isOffensive := dataIsOffensive d;
                    confidence := Some (dataConfidence d);
                    reasoning := Some (dataReasoning d);
                    provider := envProvider env;
                    model := envModelName env;
                    timestamp := now w |}
         end
     end).
Proof.
  intros Hmsg Hok Hm Hp. unfold classifyMessage. rewrite Hmsg.
  simpl in Hok. rewrite Hok. unfold getModelM. simpl. rewrite Hm. simpl.
  rewrite Hp. replace (eqb (lit "lmstudio") (lit "lmstudio")) with true
    by (symmetry; by apply JS_eqb_eq).
  unfold generateText. simpl.
  destruct (textOf w _) as [e|text]; simpl.
  - destruct (handleActivityError_throws request e) as (e' & -> & _). done.
  - destruct (extractClassification text); done.
Qed.

(** The run on the schema-constrained path. *)
Lemma classifyMessage_structured registry env w request msg handle :
  message request = Some msg ->
  messageRejected (Some msg) = false ->
  getModel registry None env = inr handle ->
  envProvider env <> lit "lmstudio" ->
  classifyMessage registry env w request
  = ([GetModel (getModelProvider None env) (getModelName None env);
      GenerateObject (objectArgs handle (userPromptOf msg))],
     match objectOf w (objectArgs handle (userPromptOf msg)) with
     | inl e => (handleActivityError request e).2
     | inr raw =>
         match classificationSchema raw with
         | inl _ => inl (schemaMismatch request)
         | inr d =>
             inr {| resultMessage := msg;
                    isOffensive := dataIsOffensive d;
                    confidence := Some (dataConfidence d);
                    reasoning := Some (dataReasoning d);
                    provider := envProvider env;
                    model := envModelName env;
                    timestamp := now w |}
         end
     end).
Proof.
  intros Hmsg Hok Hm Hp. unfold classifyMessage. rewrite Hmsg.
  simpl in Hok. rewrite Hok. unfold getModelM. simpl. rewrite Hm. simpl.
  apply JS_eqb_neq in Hp. rewrite Hp.
  unfold generateObject. simpl.
  destruct (objectOf w _) as [e|raw]; simpl.
  - destruct (handleActivityError_throws request e) as (e' & -> & _). done.
  - destruct (classificationSchema raw); [|done].
    simpl. by rewrite handleActivityError_schema_mismatch.
Qed.

Lemma messageRejected_blank (s : list N) :
  Forall (fun c => isWhiteSpace c = true) s -> messageRejected (Some s) = true.
Proof.
  intros H. simpl. rewrite (trim_blank s H). simpl. apply orb_true_r.
Qed.

End ActivityFacts.

(* ===================================================================== *)
(** ** The classification activity *)
(* ===================================================================== *)

Section ActivityClaims.
Import JS Json Types LlmConfig Activities Examples.

(** C2. A request whose message is empty or made of white space only
    makes [classifyMessage] throw a [ClassificationError] with no event
    at all: the model handle is not asked for and neither [generateText]
    nor [generateObject] is called. *)
Theorem C2_blank_message_rejected_before_any_call
    (registry : gmap (list N) Provider) (env : Env) (w : World)
    (request : MessageClassificationRequest) (s : list N) :
  message request = Some s ->
  Forall (fun c => isWhiteSpace c = true) s ->
  trace (classifyMessage registry env w request) = []
  /\ outcome (classifyMessage registry env w request)
     = inl (ClassificationError (lit "Message cannot be empty") request None).
Proof.
  intros Hmsg Hblank.
  rewrite classifyMessage_rejected; [done|].
  rewrite Hmsg. by apply messageRejected_blank.
Qed.

Lemma C2_witness_spaces_and_tab :
  trace (classifyMessage (registryOf envOpenAI) envOpenAI (answering [])
           (requestOf [32%N; 9%N; 160%N])) = []
  /\ outcome (classifyMessage (registryOf envOpenAI) envOpenAI (answering [])
                (requestOf [32%N; 9%N; 160%N]))
     = inl (ClassificationError (lit "Message cannot be empty")
              (requestOf [32%N; 9%N; 160%N]) None).
Proof.
  apply (C2_blank_message_rejected_before_any_call _ _ _ _ [32%N; 9%N; 160%N]).
  - reflexivity.
  - repeat constructor.
Defined.

(** What the schema returns is what the object holds under the three
    required keys. *)
Lemma classificationSchema_fields (parsed : json) (d : ClassificationData) :
  classificationSchema parsed = inr d ->
  exists members,
    parsed = JObject members
    /\ getProp (lit "isOffensive") members = Some (JBool (dataIsOffensive d))
    /\ getProp (lit "confidence") members = Some (JNumber (dataConfidence d))
    /\ getProp (lit "reasoning") members = Some (JString (dataReasoning d)).
Proof.
  unfold classificationSchema. destruct parsed as [| | | | |members]; try discriminate.
  unfold zBoolean, zNumberMinMax, zString.
  destruct (getProp (lit "isOffensive") members) as [[| b | | | |]|] eqn:H1;
    try discriminate.
  destruct (getProp (lit "confidence") members) as [[| | q | | |]|] eqn:H2;
    try discriminate.
  destruct (negb (Qle_bool 0 q)); [discriminate|].
  destruct (negb (Qle_bool q 1)); [discriminate|].
  destruct (getProp (lit "reasoning") members) as [[| | | s | |]|] eqn:H3;
    try discriminate.
  destruct (zOptionalStringArray _ _); [discriminate|].
  intros [= <-]. exists members. simpl. by rewrite H1, H2, H3.
Qed.

(** C3, as amended. On the LM Studio path, when the answer is an object
    text (from its [{] to its [}]) between a prose prefix without [{] and
    a prose suffix without [}], and the object parses and satisfies the
    schema, the match is exactly the object text and the activity returns
    the object's [isOffensive], [confidence] and [reasoning]. *)
Theorem C3_embedded_object_is_extracted
    (registry : gmap (list N) Provider) (env : Env) (w : World)
    (request : MessageClassificationRequest) (msg : list N) (handle : ModelHandle)
    (pre body post : list N) (parsed : json) (d : ClassificationData) :
  message request = Some msg ->
  messageRejected (Some msg) = false ->
  envProvider env = lit "lmstudio" ->
  getModel registry None env = inr handle ->
  textOf w (textArgs handle (userPromptOf msg))
    = inr (pre ++ (123%N :: body ++ [125%N]) ++ post) ->
  indexOfUnit 123 pre = None ->
  indexOfUnit 125 post = None ->
  Json.parse (123%N :: body ++ [125%N]) = inr parsed ->
  classificationSchema parsed = inr d ->
  matchBraces (pre ++ (123%N :: body ++ [125%N]) ++ post)
    = Some (123%N :: body ++ [125%N])
  /\ outcome (classifyMessage registry env w request)
     = inr {| resultMessage := msg;
              isOffensive := dataIsOffensive d;
              confidence := Some (dataConfidence d);
              reasoning := Some (dataReasoning d);
              provider := lit "lmstudio";
              model := envModelName env;
              timestamp := now w |}
  /\ exists members,
       parsed = JObject members
       /\ getProp (lit "isOffensive") members = Some (JBool (dataIsOffensive d))
       /\ getProp (lit "confidence") members = Some (JNumber (dataConfidence d))
       /\ getProp (lit "reasoning") members = Some (JString (dataReasoning d)).
Proof.
  intros Hmsg Hok Hp Hm Htext Hpre Hpost Hparse Hschema.
  pose proof (matchBraces_embedded pre body post Hpre Hpost) as Hmatch.
  split; [exact Hmatch|]. split; [|by apply classificationSchema_fields].
  rewrite (classifyMessage_lmstudio _ _ _ _ _ _ Hmsg Hok Hm Hp).
  unfold outcome. simpl. rewrite Htext.
  unfold extractClassification. rewrite Hmatch, Hparse, Hschema. by rewrite Hp.
Qed.

Lemma C3_witness_plain_prose :
  matchBraces (lit "Sure: " ++ objectText ++ lit " Done.") = Some objectText
  /\ outcome (classifyMessage (registryOf envLmStudio) envLmStudio
                (answering (lit "Sure: " ++ objectText ++ lit " Done.")) hello)
     = inr {| resultMessage := lit "hello";
              isOffensive := false;
              confidence := Some (9 # 10)%Q;
              reasoning := Some (lit "ok");
              provider := lit "lmstudio";
              model := lit "gpt-4o-mini";
              timestamp := 0 |}.
Proof.
  pose proof (C3_embedded_object_is_extracted
                (registryOf envLmStudio) envLmStudio
                (answering (lit "Sure: " ++ objectText ++ lit " Done.")) hello
                (lit "hello")
                {| handleProvider :=
                     OpenAICompatible (lit "lmstudio") (lit "not-needed")
                       (lit "http://localhost:1234/v1");
                   handleModelId := lit "gpt-4o-mini" |}
                (lit "Sure: ")
                (removelast (tail objectText))
                (lit " Done.") objectValue objectData) as H.
  destruct H as (H1 & H2 & _); try (vm_compute; reflexivity).
  split; [exact H1 | exact H2].
Defined.

(** C3, as stated, fails: the answer below holds exactly one JSON object,
    which on its own parses and satisfies the schema, after a prose
    prefix that has braces of its own. The match then runs from the brace
    of the prose to the end of the object, [JSON.parse] rejects it, and
    the activity throws. *)
Lemma C3_counterexample_brace_in_prose :
  jsonObjectsIn (proseWithBrace ++ objectText)
    = [(length proseWithBrace, length objectText)]
  /\ extractClassification objectText = inr objectData
  /\ matchBraces (proseWithBrace ++ objectText) = Some (lit "{draft}: " ++ objectText)
  /\ outcome (classifyMessage (registryOf envLmStudio) envLmStudio
                (answering (proseWithBrace ++ objectText)) hello)
     = inl (ClassificationError
              (lit "Failed to parse LM Studio response: "
               ++ lit "Unexpected token or end of JSON input"
               ++ lit ". Response was: " ++ proseWithBrace ++ objectText)
              hello
              (Some (Error (lit "SyntaxError")
                           (lit "Unexpected token or end of JSON input")))).
Proof.
  repeat split; vm_compute; reflexivity.
Qed.



End ActivityClaims.

Section ActivityResultClaims.
Import JS Json Types LlmConfig Activities Examples.

#[local] Arguments lit : simpl never.

(** A result comes out of one of the two paths, with the handle resolved
    and the message accepted. *)
Lemma classifyMessage_success registry env w request r :
  outcome (classifyMessage registry env w request) = inr r ->
  exists msg handle d,
    message request = Some msg
    /\ messageRejected (Some msg) = false
    /\ getModel registry None env = inr handle
    /\ ((envProvider env = lit "lmstudio"
         /\ exists text, textOf w (textArgs handle (userPromptOf msg)) = inr text
                         /\ extractClassification text = inr d)
        \/ (envProvider env <> lit "lmstudio"
            /\ exists raw, objectOf w (objectArgs handle (userPromptOf msg)) = inr raw
                           /\ classificationSchema raw = inr d))
    /\ r = {| resultMessage := msg;
              isOffensive := dataIsOffensive d;
              confidence := Some (dataConfidence d);
              reasoning := Some (dataReasoning d);
              provider := envProvider env;
              model := envModelName env;
              timestamp := now w |}.
Proof.
  intros Hr.
  destruct (messageRejected (message request)) eqn:Hrej.
  { rewrite (classifyMessage_rejected _ _ _ _ Hrej) in Hr. discriminate. }
  destruct (message request) as [msg|] eqn:Hmsg; [|discriminate].
  assert (Hrej' : messageRejected (message request) = false) by (by rewrite Hmsg).
  destruct (getModel registry None env) as [e|handle] eqn:Hm.
  { rewrite (classifyMessage_unresolved _ _ _ _ _ Hrej' Hm) in Hr. discriminate. }
  exists msg, handle.
  destruct (decide (envProvider env = lit "lmstudio")) as [Hp|Hp].
  - rewrite (classifyMessage_lmstudio _ _ _ _ _ _ Hmsg Hrej Hm Hp) in Hr.
    unfold outcome in Hr. simpl in Hr.
    destruct (textOf w _) as [e|text] eqn:Ht.
    { destruct (handleActivityError_throws request e) as (e' & He & _).
      rewrite He in Hr. discriminate. }
    destruct (extractClassification text) as [e|d] eqn:Hx; [discriminate|].
    exists d. injection Hr as <-. repeat split; try done. left. eauto.
  - rewrite (classifyMessage_structured _ _ _ _ _ _ Hmsg Hrej Hm Hp) in Hr.
    unfold outcome in Hr. simpl in Hr.
    destruct (objectOf w _) as [e|raw] eqn:Ht.
    { destruct (handleActivityError_throws request e) as (e' & He & _).
      rewrite He in Hr. discriminate. }
    destruct (classificationSchema raw) as [e|d] eqn:Hx; [discriminate|].
    exists d. injection Hr as <-. repeat split; try done. right. eauto.
Qed.

(** C7. A result of [classifyMessage] carries the message of the request
    as it came in, which is not empty, and a confidence, wherever
    present, between 0 and 1. *)
Theorem C7_result_keeps_message_and_bounds_confidence
    (registry : gmap (list N) Provider) (env : Env) (w : World)
    (request : MessageClassificationRequest) (r : MessageClassificationResult) :
  outcome (classifyMessage registry env w request) = inr r ->
  message request = Some (resultMessage r)
  /\ resultMessage r <> []
  /\ forall c, confidence r = Some c -> (0 <= c)%Q /\ (c <= 1)%Q.
Proof.
  intros (msg & handle & d & Hmsg & Hok & _ & Hpath & ->)%classifyMessage_success.
  simpl. split; [exact Hmsg|]. split.
  - intros ->. discriminate.
  - intros c [= <-].
    destruct Hpath as [(_ & text & _ & Hx) | (_ & raw & _ & Hx)].
    + by apply extractClassification_confidence in Hx.
    + by apply classificationSchema_confidence in Hx.
Qed.

Lemma C7_witness_structured_output :
  message hello = Some (lit "hello")
  /\ lit "hello" <> []
  /\ forall c, Some (9 # 10)%Q = Some c -> (0 <= c)%Q /\ (c <= 1)%Q.
Proof.
  exact (C7_result_keeps_message_and_bounds_confidence
           (registryOf envOpenAI) envOpenAI (answering []) hello
           {| resultMessage := lit "hello";
              isOffensive := false;
              confidence := Some (9 # 10)%Q;
              reasoning := Some (lit "ok");
              provider := lit "openai";
              model := lit "gpt-4o-mini";
              timestamp := 0 |}
           eq_refl).
Defined.

(** The registry resolves the id that [getModel] builds by the part of
    the provider name that stands before its first colon. *)
Lemma languageModel_registryKey
    (registry : gmap (list N) Provider) (providerName modelName : list N) :
  languageModel registry (providerName ++ lit ":" ++ modelName)
  = match registry !! registryKey providerName with
    | Some p =>
        inr {| handleProvider := p;
               handleModelId := drop (S (length (registryKey providerName)))
                                     (providerName ++ lit ":" ++ modelName) |}
    | None =>
        inl (Error (lit "AI_NoSuchProviderError")
                   (lit "No such provider: " ++ registryKey providerName))
    end.
Proof.
  unfold languageModel, registryKey.
  change (lit ":" ++ modelName) with (58%N :: modelName).
  destruct (indexOfUnit_app_unit 58 providerName modelName) as [Hi Ht].
  cbv zeta in Hi, Ht. by rewrite Hi, Ht.
Qed.

Lemma getModel_registryKey
    (registry : gmap (list N) Provider) (config : option PartialConfig) (env : Env) :
  getModel registry config env
  = match registry !! registryKey (getModelProvider config env) with
    | Some p =>
        inr {| handleProvider := p;
               handleModelId :=
                 drop (S (length (registryKey (getModelProvider config env))))
                      (getModelProvider config env ++ lit ":" ++ getModelName config env) |}
    | None =>
        inl (LLMProviderError
               (lit "Failed to get model " ++ getModelName config env
                ++ lit " from provider " ++ getModelProvider config env)
               (getModelProvider config env)
               (Some (Error (lit "AI_NoSuchProviderError")
                            (lit "No such provider: "
                             ++ registryKey (getModelProvider config env)))))
    end.
Proof.
  unfold getModel. cbv zeta. rewrite languageModel_registryKey.
  by destruct (registry !! registryKey (getModelProvider config env)).
Qed.

(** C10, as amended. For a message that passes the check:
    - an unset (or empty) [LLM_PROVIDER] selects [openai], an unset
      [DEFAULT_MODEL] selects [gpt-4o-mini];
    - when [getModel] returns a handle, the only invocation made is
      [generateText] if the selected provider is [lmstudio] and
      [generateObject] for every other value;
    - when [getModel] throws, no invocation is made on either path and
      the activity throws that [LLMProviderError];
    - a result is stamped with the provider and model names read from
      the environment;
    - [getModel] returns a handle exactly when the registry holds the
      part of the selected name that stands before its first colon (the
      whole name when it holds none), and throws its [LLMProviderError],
      after the lookup alone, when the registry does not hold it;
    - so [generateText] is invoked exactly when the selected provider is
      [lmstudio] and [lmstudio] is registered, and [generateObject]
      exactly when the selected provider is another name whose part
      before the first colon is registered. *)
Theorem C10_strategy_follows_environment
    (registry : gmap (list N) Provider) (env : Env) (w : World)
    (request : MessageClassificationRequest) (msg : list N) :
  message request = Some msg ->
  messageRejected (Some msg) = false ->
  (env !! "LLM_PROVIDER" = None -> envProvider env = lit "openai")
  /\ (env !! "DEFAULT_MODEL" = None -> envModelName env = lit "gpt-4o-mini")
  /\ (forall handle, getModel registry None env = inr handle ->
        (envProvider env = lit "lmstudio" ->
           trace (classifyMessage registry env w request)
           = [GetModel (envProvider env) (envModelName env);
              GenerateText (textArgs handle (userPromptOf msg))])
        /\ (envProvider env <> lit "lmstudio" ->
              trace (classifyMessage registry env w request)
              = [GetModel (envProvider env) (envModelName env);
                 GenerateObject (objectArgs handle (userPromptOf msg))]))
  /\ (forall e, getModel registry None env = inl e ->
        trace (classifyMessage registry env w request)
        = [GetModel (envProvider env) (envModelName env)]
        /\ outcome (classifyMessage registry env w request) = inl e
        /\ exists cause,
             e = LLMProviderError
                   (lit "Failed to get model " ++ envModelName env
                    ++ lit " from provider " ++ envProvider env)
                   (envProvider env) (Some cause))
  /\ (forall r, outcome (classifyMessage registry env w request) = inr r ->
        provider r = envProvider env /\ model r = envModelName env)
  /\ ((exists handle, getModel registry None env = inr handle) <->
      is_Some (registry !! registryKey (envProvider env)))
  /\ (registry !! registryKey (envProvider env) = None ->
        trace (classifyMessage registry env w request)
        = [GetModel (envProvider env) (envModelName env)]
        /\ exists cause,
             outcome (classifyMessage registry env w request)
             = inl (LLMProviderError
                      (lit "Failed to get model " ++ envModelName env
                       ++ lit " from provider " ++ envProvider env)
                      (envProvider env) (Some cause)))
  /\ ((exists args, GenerateText args ∈ trace (classifyMessage registry env w request)) <->
      envProvider env = lit "lmstudio" /\ is_Some (registry !! lit "lmstudio"))
  /\ ((exists args, GenerateObject args ∈ trace (classifyMessage registry env w request)) <->
      envProvider env <> lit "lmstudio"
      /\ is_Some (registry !! registryKey (envProvider env))).
Proof.
  intros Hmsg Hok.
  assert (Hprov : getModelProvider None env = envProvider env) by done.
  assert (Hname : getModelName None env = envModelName env) by done.
  assert (Hrej : messageRejected (message request) = false) by (by rewrite Hmsg).
  assert (Hkey := getModel_registryKey registry None env).
  rewrite Hprov, Hname in Hkey.
  assert (Hlm : registryKey (lit "lmstudio") = lit "lmstudio") by reflexivity.
  assert (Hunresolved : forall e, getModel registry None env = inl e ->
            classifyMessage registry env w request
            = ([GetModel (envProvider env) (envModelName env)], inl e)).
  { intros e Hm. rewrite (classifyMessage_unresolved _ _ _ _ _ Hrej Hm).
    by rewrite Hprov, Hname. }
  assert (Htext : forall handle, getModel registry None env = inr handle ->
            envProvider env = lit "lmstudio" ->
            trace (classifyMessage registry env w request)
            = [GetModel (envProvider env) (envModelName env);
               GenerateText (textArgs handle (userPromptOf msg))]).
  { intros handle Hm Hp.
    rewrite (classifyMessage_lmstudio _ _ _ _ _ _ Hmsg Hok Hm Hp).
    unfold trace. simpl. by rewrite Hprov, Hname. }
  assert (Hobject : forall handle, getModel registry None env = inr handle ->
            envProvider env <> lit "lmstudio" ->
            trace (classifyMessage registry env w request)
            = [GetModel (envProvider env) (envModelName env);
               GenerateObject (objectArgs handle (userPromptOf msg))]).
  { intros handle Hm Hp.
    rewrite (classifyMessage_structured _ _ _ _ _ _ Hmsg Hok Hm Hp).
    unfold trace. simpl. by rewrite Hprov, Hname. }
  split; [|split; [|split; [|split; [|split; [|split; [|split; [|split]]]]]]].
  - unfold envProvider. by intros ->.
  - unfold envModelName. by intros ->.
  - intros handle Hm. split; intros Hp; [by apply Htext | by apply Hobject].
  - intros e Hm. rewrite (Hunresolved e Hm). unfold trace, outcome. simpl.
    split; [done|]. split; [done|].
    revert Hm. unfold getModel. rewrite Hprov, Hname.
    destruct (languageModel _ _) as [cause|]; [|discriminate].
    intros [= <-]. by exists cause.
  - intros r (msg' & handle & d & _ & _ & _ & _ & ->)%classifyMessage_success. done.
  - destruct (registry !! registryKey (envProvider env)) as [p|].
    + split; [by eauto | intros _; by eauto].
    + split; [intros [handle Hm]; congruence | intros [p Hp]; discriminate].
  - intros Hnone. rewrite Hnone in Hkey. rewrite (Hunresolved _ Hkey).
    unfold trace, outcome. simpl. split; [done|]. by eexists.
  - destruct (registry !! registryKey (envProvider env)) as [p|] eqn:Hreg.
    + destruct (decide (envProvider env = lit "lmstudio")) as [Hp|Hp].
      * rewrite (Htext _ Hkey Hp). split.
        -- intros _. split; [done|]. rewrite Hp, Hlm in Hreg. by eauto.
        -- intros _. eexists. apply elem_of_cons. right. apply elem_of_cons. by left.
      * rewrite (Hobject _ Hkey Hp). split.
        -- intros [args Hin]. apply elem_of_cons in Hin as [Hin|Hin]; [discriminate|].
           apply list_elem_of_singleton in Hin. discriminate.
        -- intros [Hp' _]. done.
    + rewrite (Hunresolved _ Hkey). unfold trace. simpl. split.
      * intros [args Hin]. apply list_elem_of_singleton in Hin. discriminate.
      * intros [Hp [q Hq]]. rewrite Hp, Hlm in Hreg. congruence.
  - destruct (registry !! registryKey (envProvider env)) as [p|] eqn:Hreg.
    + destruct (decide (envProvider env = lit "lmstudio")) as [Hp|Hp].
      * rewrite (Htext _ Hkey Hp). split.
        -- intros [args Hin]. apply elem_of_cons in Hin as [Hin|Hin]; [discriminate|].
           apply list_elem_of_singleton in Hin. discriminate.
        -- intros [Hp' _]. done.
      * rewrite (Hobject _ Hkey Hp). split.
        -- intros _. split; [done | by eauto].
        -- intros _. eexists. apply elem_of_cons. right. apply elem_of_cons. by left.
    + rewrite (Hunresolved _ Hkey). unfold trace. simpl. split.
      * intros [args Hin]. apply list_elem_of_singleton in Hin. discriminate.
      * intros [_ [q Hq]]. discriminate.
Qed.

Lemma C10_witness_default_provider :
  trace (classifyMessage (registryOf envOpenAI) envOpenAI (answering []) hello)
  = [GetModel (lit "openai") (lit "gpt-4o-mini");
     GenerateObject
       (objectArgs {| handleProvider := OpenAI (lit "sk-test") None;
                      handleModelId := lit "gpt-4o-mini" |}
                   (userPromptOf (lit "hello")))].
Proof.
  destruct (C10_strategy_follows_environment
              (registryOf envOpenAI) envOpenAI (answering []) hello (lit "hello")
              eq_refl eq_refl) as (_ & _ & H & _).
  destruct (H {| handleProvider := OpenAI (lit "sk-test") None;
                 handleModelId := lit "gpt-4o-mini" |} eq_refl) as [_ H2].
  apply H2. vm_compute. discriminate.
Defined.

(** C10, as stated, fails on [anthropic], a name the registry holds no
    part of: [getModel] throws before the branch is reached,
    [generateObject] is never called and the activity throws an
    [LLMProviderError]. *)
Lemma C10_counterexample_unregistered_provider :
  envProvider envUnregistered = lit "anthropic"
  /\ createRegistry envUnregistered = inr (registryOf envUnregistered)
  /\ trace (classifyMessage (registryOf envUnregistered) envUnregistered
              (answering []) hello)
     = [GetModel (lit "anthropic") (lit "gpt-4o-mini")]
  /\ outcome (classifyMessage (registryOf envUnregistered) envUnregistered
                (answering []) hello)
     = inl (LLMProviderError
              (lit "Failed to get model gpt-4o-mini from provider anthropic")
              (lit "anthropic")
              (Some (Error (lit "AI_NoSuchProviderError")
                           (lit "No such provider: anthropic")))).
Proof.
  repeat split; vm_compute; reflexivity.
Qed.

(** A selected name that is not registered but starts with a registered
    one and a colon is resolved all the same: the registry looks up
    [lmstudio], hands the rest of the id to it as the model id, and the
    activity, whose test is on the whole name, takes the
    [generateObject] path. *)
Lemma classifyMessage_qualified_provider :
  envProvider envLmStudioQualified = lit "lmstudio:x"
  /\ registryOf envLmStudioQualified !! lit "lmstudio:x" = None
  /\ registryKey (lit "lmstudio:x") = lit "lmstudio"
  /\ trace (classifyMessage (registryOf envLmStudioQualified) envLmStudioQualified
              (answering []) hello)
     = [GetModel (lit "lmstudio:x") (lit "gpt-4o-mini");
        GenerateObject
          (objectArgs
             {| handleProvider :=
                  OpenAICompatible (lit "lmstudio") (lit "not-needed")
                    (lit "http://localhost:1234/v1");
                handleModelId := lit "x:gpt-4o-mini" |}
             (userPromptOf (lit "hello")))].
Proof.
  repeat split; vm_compute; reflexivity.
Qed.

End ActivityResultClaims.

(* ===================================================================== *)
(** ** Facts about [Promise.all] *)
(* ===================================================================== *)

Section PromiseAllFacts.
Import Types Workflows.
Context {A : Type}.
Implicit Types (outs : list (Exn + A)) (values : list (option A)).

Lemma unfilled_replicate (n : nat) : unfilled (replicate n (@None A)) = n.
Proof. induction n; simpl; congruence. Qed.

Lemma unfilled_insert values (i : nat) (v : A) :
  values !! i = Some None ->
  unfilled values = S (unfilled (<[i := Some v]> values)).
Proof.
  revert i. induction values as [|o values IH]; intros [|i]; simpl; try done.
  - by intros [= ->].
  - intros H. destruct o; simpl; by rewrite (IH i H).
Qed.

Lemma unfilled_zero values :
  unfilled values = 0 -> values = Some <$> omap id values.
Proof.
  induction values as [|[a|] values IH]; simpl; [done| |done].
  intros H. change (Some a :: values = Some a :: (Some <$> omap id values)).
  f_equal. by apply IH.
Qed.

Lemma unfilled_pending values (j : nat) :
  values !! j = Some None -> 0 < unfilled values.
Proof.
  revert j. induction values as [|o values IH]; intros [|j]; simpl; try done.
  - intros [= ->]. lia.
  - intros H. specialize (IH j H). destruct o; lia.
Qed.

Lemma unfilled_exists values :
  0 < unfilled values -> exists j, values !! j = Some None.
Proof.
  induction values as [|[a|] values IH]; simpl; [lia| |].
  - intros H. destruct (IH H) as [j Hj]. by exists (S j).
  - intros _. by exists 0.
Qed.

Lemma slotsAgree_start outs :
  slotsAgree outs (replicate (length outs) None) (length outs).
Proof.
  split; [by rewrite length_replicate|]. split; [by rewrite unfilled_replicate|].
  intros i v [[=] _]%lookup_replicate.
Qed.

Lemma slotsAgree_fill outs values remaining (i : nat) (v : A) :
  slotsAgree outs values remaining ->
  outs !! i = Some (inr v) ->
  values !! i = Some None ->
  slotsAgree outs (<[i := Some v]> values) (remaining - 1).
Proof.
  intros (Hlen & Hrem & Hval) Hout Hslot. split; [by rewrite length_insert|]. split.
  - rewrite Hrem, (unfilled_insert values i v Hslot). lia.
  - intros j u. destruct (decide (i = j)) as [<-|Hne].
    + rewrite list_lookup_insert_eq by (by eapply lookup_lt_Some). by intros [= <-].
    + rewrite list_lookup_insert_ne by done. apply Hval.
Qed.

Lemma slotsAgree_done outs values :
  slotsAgree outs values 0 -> inr <$> omap id values = outs.
Proof.
  intros (Hlen & Hrem & Hval).
  pose proof (unfilled_zero values (eq_sym Hrem)) as Hall.
  assert (Hl : length (omap id values) = length outs).
  { rewrite <- Hlen. rewrite Hall at 2. by rewrite length_fmap. }
  apply list_eq. intros j. rewrite list_lookup_fmap.
  destruct (omap id values !! j) as [v|] eqn:Hj; simpl.
  - symmetry. apply Hval. rewrite Hall, list_lookup_fmap, Hj. done.
  - symmetry. apply lookup_ge_None. apply lookup_ge_None in Hj. lia.
Qed.

(** A fulfilled [Promise.all] holds the value of every promise, each at
    the index of its promise. *)
Lemma promiseAllLoop_fulfilled outs (completion : list nat) values remaining
    (results : list A) :
  slotsAgree outs values remaining ->
  promiseAllLoop outs completion values remaining = Fulfilled results ->
  inr <$> results = outs.
Proof.
  revert values remaining.
  induction completion as [|i rest IH]; intros values remaining Hinv; simpl; [done|].
  destruct (outs !! i) as [[e|v]|] eqn:Hout; [done| |by apply IH].
  destruct (values !! i) as [[u|]|] eqn:Hslot; [by apply IH| |by apply IH].
  pose proof (slotsAgree_fill _ _ _ _ _ Hinv Hout Hslot) as Hinv'.
  destruct (remaining - 1 =? 0)%nat eqn:Hz.
  - apply Nat.eqb_eq in Hz. rewrite Hz in Hinv'. intros [= <-].
    by apply slotsAgree_done.
  - by apply IH.
Qed.

(** When every promise fulfils and every index settles at some point,
    [Promise.all] fulfils. *)
Lemma promiseAllLoop_completes outs (completion : list nat) values remaining
    (results : list A) :
  slotsAgree outs values remaining ->
  0 < remaining ->
  outs = inr <$> results ->
  (forall j, values !! j = Some None -> j ∈ completion) ->
  promiseAllLoop outs completion values remaining = Fulfilled results.
Proof.
  intros Hinv Hpos Houts Hcover.
  assert (H : exists x, promiseAllLoop outs completion values remaining = Fulfilled x).
  { revert values remaining Hinv Hpos Hcover.
    induction completion as [|i rest IH]; intros values remaining Hinv Hpos Hcover.
    - destruct Hinv as (_ & -> & _).
      destruct (unfilled_exists values Hpos) as [j Hj].
      specialize (Hcover j Hj). by apply elem_of_nil in Hcover.
    - assert (Hrest : values !! i <> Some None ->
                      forall j, values !! j = Some None -> j ∈ rest).
      { intros Hi j Hj. specialize (Hcover j Hj).
        apply elem_of_cons in Hcover as [->|]; done. }
      simpl. destruct (outs !! i) as [[e|v]|] eqn:Hout.
      + rewrite Houts, list_lookup_fmap in Hout.
        destruct (results !! i); discriminate.
      + destruct (values !! i) as [[u|]|] eqn:Hslot.
        * apply IH; try done. by apply Hrest.
        * pose proof (slotsAgree_fill _ _ _ _ _ Hinv Hout Hslot) as Hinv'.
          destruct (remaining - 1 =? 0)%nat eqn:Hz; [by eexists|].
          apply Nat.eqb_neq in Hz. apply IH; [done|lia|].
          intros j Hj. destruct (decide (i = j)) as [<-|Hne].
          -- rewrite list_lookup_insert_eq in Hj by (by eapply lookup_lt_Some).
             discriminate.
          -- rewrite list_lookup_insert_ne in Hj by done.
             specialize (Hcover j Hj). apply elem_of_cons in Hcover as [->|]; done.
        * apply IH; try done. by apply Hrest.
      + apply IH; try done. apply Hrest.
        intros Hslot. apply lookup_lt_Some in Hslot. apply lookup_ge_None in Hout.
        destruct Hinv as (Hlen & _). lia. }
  destruct H as [x Hx]. rewrite Hx. f_equal.
  pose proof (promiseAllLoop_fulfilled _ _ _ _ _ Hinv Hx) as Hfx.
  rewrite Houts in Hfx. apply (list_fmap_eq_inj (@inr Exn A)); [|exact Hfx].
  by intros ?? [=].
Qed.

(** When a promise rejects and every index settles at some point,
    [Promise.all] rejects, with the error of one of the promises. *)
Lemma promiseAllLoop_rejects outs (completion : list nat) values remaining
    (k : nat) (e : Exn) :
  slotsAgree outs values remaining ->
  outs !! k = Some (inl e) ->
  (forall j, values !! j = Some None -> j ∈ completion) ->
  exists e' k', promiseAllLoop outs completion values remaining = Rejected e'
                /\ outs !! k' = Some (inl e').
Proof.
  intros Hinv Hk. revert values remaining Hinv.
  assert (Hpending : forall values remaining,
             slotsAgree outs values remaining -> values !! k = Some None).
  { intros values remaining (Hlen & _ & Hval).
    destruct (values !! k) as [[v|]|] eqn:Hs; [|done|].
    - apply Hval in Hs. congruence.
    - apply lookup_ge_None in Hs. apply lookup_lt_Some in Hk. lia. }
  induction completion as [|i rest IH]; intros values remaining Hinv Hcover.
  - specialize (Hcover k (Hpending _ _ Hinv)). by apply elem_of_nil in Hcover.
  - assert (Hrest : values !! i <> Some None ->
                    forall j, values !! j = Some None -> j ∈ rest).
    { intros Hi j Hj. specialize (Hcover j Hj).
      apply elem_of_cons in Hcover as [->|]; done. }
    simpl. destruct (outs !! i) as [[e0|v]|] eqn:Hout.
    + by exists e0, i.
    + destruct (values !! i) as [[u|]|] eqn:Hslot.
      * apply IH; try done. by apply Hrest.
      * pose proof (slotsAgree_fill _ _ _ _ _ Hinv Hout Hslot) as Hinv'.
        pose proof (Hpending _ _ Hinv') as Hk'.
        pose proof (unfilled_pending _ _ Hk') as Hpos.
        destruct Hinv' as (Hl' & Hr' & Hv').
        destruct (remaining - 1 =? 0)%nat eqn:Hz.
        { apply Nat.eqb_eq in Hz. lia. }
        apply IH; [done|].
        intros j Hj. destruct (decide (i = j)) as [<-|Hne].
        -- rewrite list_lookup_insert_eq in Hj by (by eapply lookup_lt_Some).
           discriminate.
        -- rewrite list_lookup_insert_ne in Hj by done.
           specialize (Hcover j Hj). apply elem_of_cons in Hcover as [->|]; done.
      * apply IH; try done. by apply Hrest.
    + apply IH; try done. apply Hrest.
      intros Hslot. apply lookup_lt_Some in Hslot. apply lookup_ge_None in Hout.
      destruct Hinv as (Hlen & _). lia.
Qed.

End PromiseAllFacts.

(* ===================================================================== *)
(** ** The workflows *)
(* ===================================================================== *)

Section WorkflowFacts.
Import JS Json Types LlmConfig Activities Workflows.

(** The call of a proxied activity under the options of the source,
    unfolded: at most three attempts, 1 s before the second and 2 s before
    the third. *)
Lemma executeActivity_unfold {A} (attempts : nat -> AttemptRun A) :
  executeActivity activityOptions attempts
  = match observe activityOptions (attempts 1) with
    | inr a => ([logOf attempts 1 0], inr a)
    | inl _ =>
        match observe activityOptions (attempts 2) with
        | inr a => ([logOf attempts 1 0; logOf attempts 2 1000], inr a)
        | inl _ =>
            ([logOf attempts 1 0; logOf attempts 2 1000; logOf attempts 3 2000],
             observe activityOptions (attempts 3))
        end
    end.
Proof.
  unfold executeActivity, logOf. cbn [activityOptions retry maximumAttempts Nat.sub].
  cbn [attemptFrom].
  destruct (observe activityOptions (attempts 1)) as [e1|a1] eqn:H1; [|done].
  destruct (observe activityOptions (attempts 2)) as [e2|a2] eqn:H2; [|done].
  destruct (observe activityOptions (attempts 3)) as [e3|a3] eqn:H3; done.
Qed.

Lemma scheduleAll_lookup registry env worlds requests (i : nat) :
  (snd <$> scheduleAll registry env worlds requests) !! i
  = (fun request => (classifyMessageProxy registry env (worlds i) request).2)
      <$> requests !! i.
Proof.
  unfold scheduleAll. rewrite list_lookup_fmap, list_lookup_imap.
  by destruct (requests !! i).
Qed.

Lemma scheduleAll_length registry env worlds requests :
  length (snd <$> scheduleAll registry env worlds requests) = length requests.
Proof. unfold scheduleAll. by rewrite length_fmap, length_imap. Qed.

(** How the batch workflow ends on a list that is not empty. *)
Lemma batch_outcome registry env worlds completion requests :
  requests <> [] ->
  (batchMessageClassificationWorkflow registry env worlds completion (Some requests)).2
  = promiseAllLoop (snd <$> scheduleAll registry env worlds requests) completion
      (replicate (length requests) None) (length requests).
Proof.
  intros Hne. destruct requests as [|r rs]; [done|].
  unfold batchMessageClassificationWorkflow.
  pose proof (scheduleAll_length registry env worlds (r :: rs)) as Hlen.
  cbn [snd]. unfold promiseAll.
  destruct (snd <$> scheduleAll registry env worlds (r :: rs)) as [|o outs] eqn:Houts;
    [discriminate|].
  rewrite Hlen.
  by destruct (promiseAllLoop _ _ _ _).
Qed.

(** A fulfilled batch holds exactly the results of its activities. *)
Lemma batch_fulfilled registry env worlds completion requests results :
  requests <> [] ->
  (batchMessageClassificationWorkflow registry env worlds completion (Some requests)).2
    = Fulfilled results ->
  inr <$> results = snd <$> scheduleAll registry env worlds requests.
Proof.
  intros Hne Hok. rewrite (batch_outcome _ _ _ _ _ Hne) in Hok.
  rewrite <- (scheduleAll_length registry env worlds requests) in Hok.
  exact (promiseAllLoop_fulfilled _ _ _ _ _ (slotsAgree_start _) Hok).
Qed.

Lemma batch_fulfilled_each registry env worlds completion requests results i request :
  requests <> [] ->
  (batchMessageClassificationWorkflow registry env worlds completion (Some requests)).2
    = Fulfilled results ->
  requests !! i = Some request ->
  exists r, results !! i = Some r
            /\ (classifyMessageProxy registry env (worlds i) request).2 = inr r.
Proof.
  intros Hne Hok Hi.
  pose proof (batch_fulfilled _ _ _ _ _ _ Hne Hok) as Houts.
  pose proof (scheduleAll_lookup registry env worlds requests i) as Hl.
  rewrite Hi, <- Houts, list_lookup_fmap in Hl. simpl in Hl.
  destruct (results !! i) as [r|]; [|discriminate].
  exists r. split; [done|]. by injection Hl as <-.
Qed.

End WorkflowFacts.

Section WorkflowClaims.
Import JS Json Types LlmConfig Activities Workflows Examples.

(** C5. A batch workflow that ends well on a list that is not empty
    returns one result per request, the result at each index being what
    the proxied [classifyMessage] returned for the request at that index,
    whatever the order in which the activities completed; and any other
    order in which all of them complete gives the same list. *)
Theorem C5_batch_results_follow_request_order
    (registry : gmap (list N) Provider) (env : Env)
    (worlds : nat -> nat -> AttemptWorld) (completion : list nat)
    (requests : list MessageClassificationRequest)
    (results : list MessageClassificationResult) :
  requests <> [] ->
  (batchMessageClassificationWorkflow registry env worlds completion (Some requests)).2
    = Fulfilled results ->
  length results = length requests
  /\ (forall i request,
        requests !! i = Some request ->
        exists r, results !! i = Some r
                  /\ (classifyMessageProxy registry env (worlds i) request).2 = inr r)
  /\ (forall completion',
        (forall i, i < length requests -> i ∈ completion') ->
        (batchMessageClassificationWorkflow registry env worlds completion'
           (Some requests)).2 = Fulfilled results).
Proof.
  intros Hne Hok.
  pose proof (scheduleAll_length registry env worlds requests) as Hlen.
  pose proof (batch_fulfilled _ _ _ _ _ _ Hne Hok) as Houts.
  split; [|split].
  - rewrite <- Hlen, <- Houts. by rewrite length_fmap.
  - intros i request Hi. by apply (batch_fulfilled_each _ _ _ completion requests).
  - intros completion' Hcover. rewrite (batch_outcome _ _ _ _ _ Hne), <- Hlen.
    apply promiseAllLoop_completes; [apply slotsAgree_start| |done|].
    + rewrite Hlen. destruct requests; [done|simpl; lia].
    + intros j [_ Hj]%lookup_replicate. apply Hcover. by rewrite <- Hlen.
Qed.

(** Three activities that complete last to first. *)
Lemma C5_witness_reverse_completion :
  (batchMessageClassificationWorkflow (registryOf envOpenAI) envOpenAI
     (fun _ _ => {| elapsed := 10; world := answering [] |}) [0; 1; 2]
     (Some [requestOf (lit "one"); requestOf (lit "two"); requestOf (lit "three")])).2
  = Fulfilled
      ((fun text =>
          {| resultMessage := text; isOffensive := false;
             confidence := Some (9 # 10)%Q; reasoning := Some (lit "ok");
             provider := lit "openai"; model := lit "gpt-4o-mini"; timestamp := 0 |})
         <$> [lit "one"; lit "two"; lit "three"]).
Proof.
  refine (proj2 (proj2
    (C5_batch_results_follow_request_order (registryOf envOpenAI) envOpenAI
       (fun _ _ => {| elapsed := 10; world := answering [] |}) [2; 1; 0]
       [requestOf (lit "one"); requestOf (lit "two"); requestOf (lit "three")]
       _ _ _)) [0; 1; 2] _).
  - discriminate.
  - vm_compute. reflexivity.
  - intros i Hi. simpl in Hi.
    destruct i as [|[|[|i]]]; [| | |lia]; repeat constructor.
Defined.

(** C6. The batch workflow rejects a missing or empty list without
    scheduling anything. On a list that is not empty it is fulfilled only
    if every proxied [classifyMessage] returned a result; when one of them
    failed the workflow is never fulfilled, and once every activity has
    completed it is rejected with the failure of one of them, which
    carries no list of results. *)
Theorem C6_batch_all_or_nothing
    (registry : gmap (list N) Provider) (env : Env)
    (worlds : nat -> nat -> AttemptWorld) (completion : list nat)
    (requests : option (list MessageClassificationRequest)) :
  (requests = None \/ requests = Some [] ->
     batchMessageClassificationWorkflow registry env worlds completion requests
     = ([], Rejected (Error (lit "Error")
                            (lit "Invalid request: at least one message is required"))))
  /\ (forall rs, requests = Some rs -> rs <> [] ->
        (forall results,
           (batchMessageClassificationWorkflow registry env worlds completion requests).2
             = Fulfilled results ->
           forall i request, rs !! i = Some request ->
             exists r, (classifyMessageProxy registry env (worlds i) request).2 = inr r)
        /\ (forall i request e,
              rs !! i = Some request ->
              (classifyMessageProxy registry env (worlds i) request).2 = inl e ->
              (forall results,
                 (batchMessageClassificationWorkflow registry env worlds completion
                    requests).2 <> Fulfilled results)
              /\ ((forall j, j < length rs -> j ∈ completion) ->
                  exists e' j request',
                    (batchMessageClassificationWorkflow registry env worlds completion
                       requests).2 = Rejected e'
                    /\ rs !! j = Some request'
                    /\ (classifyMessageProxy registry env (worlds j) request').2
                       = inl e'))).
Proof.
  split.
  - by intros [-> | ->].
  - intros rs -> Hne.
    assert (Hall : forall results,
               (batchMessageClassificationWorkflow registry env worlds completion
                  (Some rs)).2 = Fulfilled results ->
               forall i request, rs !! i = Some request ->
                 exists r, (classifyMessageProxy registry env (worlds i) request).2 = inr r).
    { intros results Hok i request Hi.
      destruct (batch_fulfilled_each _ _ _ _ _ _ _ _ Hne Hok Hi) as (r & _ & Hr).
      by exists r. }
    split; [exact Hall|].
    intros i request e Hi He. split.
    + intros results Hok. destruct (Hall results Hok i request Hi) as [r Hr]. congruence.
    + intros Hcover. rewrite (batch_outcome _ _ _ _ _ Hne).
      pose proof (scheduleAll_length registry env worlds rs) as Hlen.
      pose proof (scheduleAll_lookup registry env worlds rs i) as Hl.
      rewrite Hi in Hl. simpl in Hl. rewrite He in Hl.
      rewrite <- Hlen.
      destruct (promiseAllLoop_rejects _ completion _ _ i e (slotsAgree_start _) Hl)
        as (e' & j & Hrej & Hj).
      { intros k [_ Hk]%lookup_replicate. apply Hcover. by rewrite <- Hlen. }
      rewrite scheduleAll_lookup in Hj.
      destruct (rs !! j) as [request'|] eqn:Hj'; [|discriminate].
      exists e', j, request'. split; [done|]. split; [done|]. by injection Hj as ->.
Qed.

(** A batch whose second message is blank. *)
Lemma C6_witness_one_blank_message :
  exists e' j request',
    (batchMessageClassificationWorkflow (registryOf envOpenAI) envOpenAI
       (fun _ _ => {| elapsed := 10; world := answering [] |}) [0; 1]
       (Some [hello; requestOf (lit " ")])).2 = Rejected e'
    /\ [hello; requestOf (lit " ")] !! j = Some request'
    /\ (classifyMessageProxy (registryOf envOpenAI) envOpenAI
          (fun _ => {| elapsed := 10; world := answering [] |}) request').2 = inl e'.
Proof.
  destruct (C6_batch_all_or_nothing (registryOf envOpenAI) envOpenAI
              (fun _ _ => {| elapsed := 10; world := answering [] |}) [0; 1]
              (Some [hello; requestOf (lit " ")])) as [_ H].
  destruct (H [hello; requestOf (lit " ")] eq_refl) as [_ H2]; [discriminate|].
  destruct (H2 1 (requestOf (lit " "))
              (ClassificationError (lit "Message cannot be empty")
                 (requestOf (lit " ")) None) eq_refl) as [_ H3].
  { vm_compute. reflexivity. }
  apply H3. intros j Hj. simpl in Hj.
  destruct j as [|[|j]]; [| |lia]; repeat constructor.
Defined.

End WorkflowClaims.

Section SingleWorkflowClaims.
Import JS Json Types LlmConfig Activities Workflows Examples.

(** How the single workflow ends on a request that passes its check. *)
Lemma workflow_dispatches registry env worlds request :
  invalidRequest (Some request) = false ->
  messageClassificationWorkflow registry env worlds (Some request)
  = ([{| scheduledRequest := request;
         scheduledAttempts := (classifyMessageProxy registry env worlds request).1 |}],
     (classifyMessageProxy registry env worlds request).2).
Proof.
  intros Hok. unfold messageClassificationWorkflow. rewrite Hok.
  destruct (classifyMessageProxy registry env worlds request) as [logs [e|r]]; done.
Qed.

(** C8. Under the options given to [proxyActivities], the proxied
    [classifyMessage] is attempted at least once and at most three times;
    the engine waits 1 s before the second attempt and 2 s before the
    third, the wait before retry [n] being [1 s * 2^(n-1)] capped at 30 s;
    when the three attempts fail the workflow ends with the failure of
    the third, as it is; when the first two fail and the third returns a
    result the workflow returns that result. *)
Theorem C8_three_attempts_with_backoff
    (registry : gmap (list N) Provider) (env : Env)
    (worlds : nat -> AttemptWorld) (request : MessageClassificationRequest) :
  invalidRequest (Some request) = false ->
  let attempt k := observe activityOptions (classifyAttempt registry env worlds request k) in
  let result := messageClassificationWorkflow registry env worlds (Some request) in
  (exists logs,
     result.1 = [{| scheduledRequest := request; scheduledAttempts := logs |}]
     /\ 1 <= length logs <= 3
     /\ waitedBefore <$> logs = take (length logs) [0; 1000; 2000]%Z
     /\ forall i log, logs !! i = Some log ->
          attemptNumber log = S i /\ attemptOutcome log = attempt (S i))
  /\ (forall n, 1 <= n ->
        backoff (retry activityOptions) n
          = Z.min 30000 (1000 * 2 ^ (Z.of_nat n - 1))
        /\ (backoff (retry activityOptions) n <= 30000)%Z)
  /\ (forall e1 e2 e3,
        attempt 1 = inl e1 -> attempt 2 = inl e2 -> attempt 3 = inl e3 ->
        result.2 = inl e3)
  /\ (forall e1 e2 r,
        attempt 1 = inl e1 -> attempt 2 = inl e2 -> attempt 3 = inr r ->
        result.2 = inr r).
Proof.
  intros Hok attempt result. subst result.
  rewrite (workflow_dispatches _ _ _ _ Hok). cbn [fst snd].
  unfold classifyMessageProxy. rewrite executeActivity_unfold.
  fold (attempt 1). fold (attempt 2). fold (attempt 3).
  split; [|split; [|split]].
  - destruct (attempt 1) as [e1|r1] eqn:H1.
    2:{ eexists. split; [reflexivity|]. split; [simpl; lia|]. split; [done|].
        intros [|i] log; [|done]. by intros [= <-]. }
    destruct (attempt 2) as [e2|r2] eqn:H2.
    2:{ eexists. split; [reflexivity|]. split; [simpl; lia|]. split; [done|].
        intros [|[|i]] log; [| |done]; by intros [= <-]. }
    eexists. split; [reflexivity|]. split; [simpl; lia|]. split; [done|].
    intros [|[|[|i]]] log; [| | |done]; by intros [= <-].
  - intros n Hn. unfold backoff. cbn [activityOptions retry maximumInterval
      initialInterval backoffCoefficient].
    change (30 * 1000)%Z with 30000%Z. split; [done|]. apply Z.le_min_l.
  - intros e1 e2 e3 -> -> ->. done.
  - intros e1 e2 r -> -> ->. done.
Qed.

(** The provider is unavailable twice, then answers. *)
Lemma C8_witness_third_attempt_succeeds :
  (messageClassificationWorkflow (registryOf envOpenAI) envOpenAI recovering
     (Some hello)).2
  = inr {| resultMessage := lit "hello"; isOffensive := false;
           confidence := Some (9 # 10)%Q; reasoning := Some (lit "ok");
           provider := lit "openai"; model := lit "gpt-4o-mini"; timestamp := 0 |}.
Proof.
  destruct (C8_three_attempts_with_backoff (registryOf envOpenAI) envOpenAI
              recovering hello eq_refl) as (_ & _ & _ & H).
  eapply H; vm_compute; reflexivity.
Defined.

(** C9. A message that is not empty and holds white space only passes
    the check of the single workflow, which rejects exactly a missing
    request, a missing message and the empty message. The workflow
    therefore schedules the activity; every attempt of the activity
    throws the [ClassificationError] for an empty message without any
    call, and when no attempt times out this error is how the workflow
    ends. *)
Theorem C9_whitespace_message_reaches_activity
    (registry : gmap (list N) Provider) (env : Env)
    (worlds : nat -> AttemptWorld) (request : MessageClassificationRequest)
    (s : list N) :
  message request = Some s ->
  s <> [] ->
  Forall (fun c => isWhiteSpace c = true) s ->
  invalidRequest (Some request) = false
  /\ (forall request',
        invalidRequest request' = true <->
        request' = None
        \/ exists r, request' = Some r /\ (message r = None \/ message r = Some []))
  /\ (exists logs,
        (messageClassificationWorkflow registry env worlds (Some request)).1
          = [{| scheduledRequest := request; scheduledAttempts := logs |}]
        /\ 1 <= length logs)
  /\ (forall k,
        classifyMessage registry env (world (worlds k)) request
        = ([], inl (ClassificationError (lit "Message cannot be empty") request None)))
  /\ ((forall k, (elapsed (worlds k) <= startToCloseTimeout activityOptions)%Z) ->
      (messageClassificationWorkflow registry env worlds (Some request)).2
      = inl (ClassificationError (lit "Message cannot be empty") request None)).
Proof.
  intros Hmsg Hne Hblank.
  assert (Hok : invalidRequest (Some request) = false).
  { simpl. rewrite Hmsg. destruct s; done. }
  assert (Hrun : forall k,
             classifyMessage registry env (world (worlds k)) request
             = ([], inl (ClassificationError (lit "Message cannot be empty") request None))).
  { intros k. apply classifyMessage_rejected. rewrite Hmsg.
    by apply messageRejected_blank. }
  split; [exact Hok|]. split; [|split; [|split; [exact Hrun|]]].
  - intros [r|]; simpl.
    + destruct (message r) as [[|c m]|] eqn:Hm; simpl; split; try done.
      * intros _. right. exists r. eauto.
      * intros [? | (r' & [= <-] & [H|H])]; congruence.
      * intros _. right. exists r. eauto.
    + split; [by left|done].
  - rewrite (workflow_dispatches _ _ _ _ Hok). eexists. split; [reflexivity|].
    unfold classifyMessageProxy. rewrite executeActivity_unfold.
    repeat destruct (observe _ _); simpl; lia.
  - intros Htime. rewrite (workflow_dispatches _ _ _ _ Hok). cbn [snd].
    unfold classifyMessageProxy. rewrite executeActivity_unfold.
    assert (Hobs : forall k,
               observe activityOptions (classifyAttempt registry env worlds request k)
               = inl (ClassificationError (lit "Message cannot be empty") request None)).
    { intros k. unfold observe, classifyAttempt. cbn [duration run].
      specialize (Htime k). apply Z.ltb_ge in Htime. rewrite Htime.
      by rewrite Hrun. }
    by rewrite !Hobs.
Qed.

Lemma C9_witness_two_spaces :
  invalidRequest (Some (requestOf (lit "  "))) = false
  /\ (messageClassificationWorkflow (registryOf envOpenAI) envOpenAI
        (fun _ => {| elapsed := 5; world := answering [] |})
        (Some (requestOf (lit "  ")))).2
     = inl (ClassificationError (lit "Message cannot be empty")
              (requestOf (lit "  ")) None).
Proof.
  destruct (C9_whitespace_message_reaches_activity (registryOf envOpenAI) envOpenAI
              (fun _ => {| elapsed := 5; world := answering [] |})
              (requestOf (lit "  ")) (lit "  ") eq_refl)
    as (H1 & _ & _ & _ & H5).
  - discriminate.
  - repeat constructor.
  - split; [exact H1|]. apply H5. intros k. vm_compute. discriminate.
Defined.

End SingleWorkflowClaims.

(* ===================================================================== *)
(** ** The configuration check *)
(* ===================================================================== *)

Section ConfigurationClaims.
Import JS Json Types LlmConfig Activities Workflows Examples.

#[local] Arguments lit : simpl never.

(** The part of the check that works: a provider selected through
    [LLM_PROVIDER] that is not available is reported. *)
Lemma validateConfiguration_reports_unavailable_selection (env : Env) (sel : list N) :
  env !! "LLM_PROVIDER" = Some sel ->
  sel <> [] ->
  arrayIncludes (getAvailableProviders env) sel = false ->
  isValid (validateConfiguration env) = false
  /\ errors (validateConfiguration env) <> [].
Proof.
  intros Hsel Hne Hinc. unfold validateConfiguration. rewrite Hsel, Hinc.
  destruct sel as [|c sel]; [done|]. cbn [truthy negb andb isValid errors].
  destruct (length (getAvailableProviders env) =? 0)%nat,
    (optEqb _ (lit "openai") && _), (optEqb _ (lit "lmstudio") && _);
    split; done.
Qed.

(** C1, at the input where the code departs from it: only LM Studio is
    configured and [LLM_PROVIDER] is not set. The check reports nothing,
    although the provider every classification will use, [openai], is not
    among the available ones, and every classification then fails in
    [getModel]. *)
Theorem C1_validation_passes_with_unavailable_default :
  validateConfiguration envLmStudioUnselected = {| isValid := true; errors := [] |}
  /\ getAvailableProviders envLmStudioUnselected = [lit "lmstudio"]
  /\ envProvider envLmStudioUnselected = lit "openai"
  /\ getModelProvider None envLmStudioUnselected = lit "openai"
  /\ arrayIncludes (getAvailableProviders envLmStudioUnselected)
       (envProvider envLmStudioUnselected) = false
  /\ createRegistry envLmStudioUnselected = inr (registryOf envLmStudioUnselected)
  /\ outcome (classifyMessage (registryOf envLmStudioUnselected) envLmStudioUnselected
                (answering []) hello)
     = inl (LLMProviderError
              (lit "Failed to get model gpt-4o-mini from provider openai")
              (lit "openai")
              (Some (Error (lit "AI_NoSuchProviderError")
                           (lit "No such provider: openai")))).
Proof.
  repeat split; vm_compute; reflexivity.
Qed.

End ConfigurationClaims.

#[local] Set Warnings "-clear-no-such-hyp".

(* ===================================================================== *)
(** ** Further properties: the provider registry and its check *)
(* ===================================================================== *)

Section RegistryProperties.
Import JS Json Types LlmConfig Activities Examples Reading.

#[local] Arguments lit : simpl never.

Lemma arrayIncludes_elem_of (arr : list (list N)) (x : list N) :
  arrayIncludes arr x = true <-> x ∈ arr.
Proof.
  unfold arrayIncludes. rewrite existsb_exists. split.
  - intros (y & Hy & ->%JS_eqb_eq). by apply list_elem_of_In.
  - intros H. exists x. split; [by apply list_elem_of_In | by apply JS_eqb_eq].
Qed.

Lemma openai_is_not_lmstudio : lit "openai" <> lit "lmstudio".
Proof. vm_compute. discriminate. Qed.

(** The available providers, by the two variables. *)
Lemma getAvailableProviders_elem_of (env : Env) (name : list N) :
  name ∈ getAvailableProviders env <->
  (name = lit "openai" /\ truthyOpt (env !! "OPENAI_API_KEY") = true)
  \/ (name = lit "lmstudio" /\ truthyOpt (env !! "LMSTUDIO_BASE_URL") = true).
Proof.
  unfold getAvailableProviders.
  destruct (truthyOpt (env !! "OPENAI_API_KEY")),
    (truthyOpt (env !! "LMSTUDIO_BASE_URL")); simpl;
    rewrite ?elem_of_cons, ?elem_of_nil; naive_solver.
Qed.

Lemma getAvailableProviders_nil (env : Env) :
  getAvailableProviders env = [] <->
  truthyOpt (env !! "OPENAI_API_KEY") = false
  /\ truthyOpt (env !! "LMSTUDIO_BASE_URL") = false.
Proof.
  unfold getAvailableProviders.
  destruct (truthyOpt (env !! "OPENAI_API_KEY")),
    (truthyOpt (env !! "LMSTUDIO_BASE_URL")); simpl; naive_solver.
Qed.

(** The provider table of [createRegistry], by the two variables. *)
Lemma createRegistry_cases (env : Env) :
  match createRegistry env with
  | inr registry =>
      (truthyOpt (env !! "OPENAI_API_KEY") = true
       \/ truthyOpt (env !! "LMSTUDIO_BASE_URL") = true)
      /\ registry !! lit "openai"
         = (if truthyOpt (env !! "OPENAI_API_KEY")
            then Some (OpenAI (default [] (env !! "OPENAI_API_KEY"))
                              (env !! "OPENAI_BASE_URL"))
            else None)
      /\ registry !! lit "lmstudio"
         = (if truthyOpt (env !! "LMSTUDIO_BASE_URL")
            then Some (OpenAICompatible (lit "lmstudio")
                         (orElse (env !! "LMSTUDIO_API_KEY") (lit "not-needed"))
                         (default [] (env !! "LMSTUDIO_BASE_URL")))
            else None)
      /\ forall name, name <> lit "openai" -> name <> lit "lmstudio" ->
           registry !! name = None
  | inl e =>
      truthyOpt (env !! "OPENAI_API_KEY") = false
      /\ truthyOpt (env !! "LMSTUDIO_BASE_URL") = false
      /\ e = LLMProviderError
               (lit "No LLM providers configured. Please check your environment variables.")
               (lit "none") None
  end.
Proof.
  pose proof openai_is_not_lmstudio as Hne.
  unfold createRegistry.
  destruct (env !! "OPENAI_API_KEY") as [[|k key]|] eqn:Hk;
    destruct (env !! "LMSTUDIO_BASE_URL") as [[|u url]|] eqn:Hu;
    cbn [truthy truthyOpt orElse default];
    match goal with
    | |- context [decide (size ?m = 0)] =>
        destruct (decide (size m = 0)) as [Hs|Hs]
    end;
    try (apply map_size_empty_inv in Hs;
         exfalso; apply (insert_non_empty _ _ _ Hs));
    try (exfalso; apply Hs; apply map_size_empty);
    try done;
    (split; [by (left + right)|]);
    (split; [by simplify_map_eq|]);
    (split; [by simplify_map_eq|]);
    intros name H1 H2; by simplify_map_eq.
Qed.

(** X1. [createRegistry] throws exactly when [getAvailableProviders] is
    empty, and otherwise the names it registers are exactly the names
    [getAvailableProviders] lists. *)
Theorem X1_registry_holds_the_available_providers (env : Env) :
  match createRegistry env with
  | inr registry =>
      getAvailableProviders env <> []
      /\ forall name, is_Some (registry !! name) <-> name ∈ getAvailableProviders env
  | inl e =>
      getAvailableProviders env = []
      /\ e = LLMProviderError
               (lit "No LLM providers configured. Please check your environment variables.")
               (lit "none") None
  end.
Proof.
  pose proof (createRegistry_cases env) as H.
  destruct (createRegistry env) as [e|registry].
  - destruct H as (H1 & H2 & ->). split; [|done]. by apply getAvailableProviders_nil.
  - destruct H as (Hsome & Ho & Hl & Hother). split.
    + intros [H1 H2]%getAvailableProviders_nil. destruct Hsome; congruence.
    + intros name. rewrite getAvailableProviders_elem_of.
      destruct (decide (name = lit "openai")) as [->|Hno].
      { rewrite Ho. destruct (truthyOpt (env !! "OPENAI_API_KEY")).
        - split; [by left | by eexists].
        - split; [by intros [? [=]] |].
          intros [[_ [=]] | [H _]]. by apply openai_is_not_lmstudio in H. }
      destruct (decide (name = lit "lmstudio")) as [->|Hnl].
      { rewrite Hl. destruct (truthyOpt (env !! "LMSTUDIO_BASE_URL")).
        - split; [by right | by eexists].
        - split; [by intros [? [=]] |].
          intros [[H _] | [_ [=]]]. done. }
      rewrite (Hother name Hno Hnl). split; [by intros [? [=]] | naive_solver].
Qed.

(** X2. The credentials of a registered provider are those of the
    environment: the OpenAI entry holds the key that is set, which is not
    empty, and [OPENAI_BASE_URL] as it is (set, empty or missing); the LM
    Studio entry holds [LMSTUDIO_BASE_URL] itself, which is not empty, so
    that the [localhost] default of the source is never used, and an API
    key that is [LMSTUDIO_API_KEY] when set and not empty and
    [not-needed] otherwise. *)
Theorem X2_registered_credentials
    (env : Env) (registry : gmap (list N) Provider) :
  createRegistry env = inr registry ->
  (forall p, registry !! lit "openai" = Some p ->
     exists key, env !! "OPENAI_API_KEY" = Some key /\ key <> []
                 /\ p = OpenAI key (env !! "OPENAI_BASE_URL"))
  /\ (forall p, registry !! lit "lmstudio" = Some p ->
        exists url apiKey,
          env !! "LMSTUDIO_BASE_URL" = Some url /\ url <> []
          /\ apiKey <> []
          /\ (truthyOpt (env !! "LMSTUDIO_API_KEY") = true ->
              env !! "LMSTUDIO_API_KEY" = Some apiKey)
          /\ (truthyOpt (env !! "LMSTUDIO_API_KEY") = false ->
              apiKey = lit "not-needed")
          /\ p = OpenAICompatible (lit "lmstudio") apiKey url).
Proof.
  intros Hreg. pose proof (createRegistry_cases env) as H. rewrite Hreg in H.
  destruct H as (_ & Ho & Hl & _). split.
  - intros p Hp. rewrite Hp in Ho.
    destruct (env !! "OPENAI_API_KEY") as [[|k key]|]; simpl in Ho; try discriminate.
    injection Ho as ->. by exists (k :: key).
  - intros p Hp. rewrite Hp in Hl.
    destruct (env !! "LMSTUDIO_BASE_URL") as [[|u url]|]; simpl in Hl; try discriminate.
    injection Hl as ->.
    exists (u :: url), (orElse (env !! "LMSTUDIO_API_KEY") (lit "not-needed")).
    split; [done|]. split; [done|].
    destruct (env !! "LMSTUDIO_API_KEY") as [[|a key]|]; simpl; repeat split; try done.
Qed.

Lemma X2_witness_lmstudio_default_key :
  exists url apiKey,
    envLmStudio !! "LMSTUDIO_BASE_URL" = Some url /\ url <> []
    /\ apiKey <> []
    /\ (truthyOpt (envLmStudio !! "LMSTUDIO_API_KEY") = true ->
        envLmStudio !! "LMSTUDIO_API_KEY" = Some apiKey)
    /\ (truthyOpt (envLmStudio !! "LMSTUDIO_API_KEY") = false ->
        apiKey = lit "not-needed")
    /\ OpenAICompatible (lit "lmstudio") (lit "not-needed")
         (lit "http://localhost:1234/v1")
       = OpenAICompatible (lit "lmstudio") apiKey url.
Proof.
  apply (proj2 (X2_registered_credentials envLmStudio (registryOf envLmStudio) eq_refl)).
  vm_compute. reflexivity.
Defined.

End RegistryProperties.

Section ValidationProperties.
Import JS Json Types LlmConfig Activities Examples Reading.

#[local] Arguments lit : simpl never.

Lemma optEqb_true (o : option (list N)) (name : list N) :
  optEqb o name = true <-> o = Some name.
Proof.
  destruct o as [s|]; simpl; [|done]. rewrite JS_eqb_eq. naive_solver.
Qed.

Lemma validateConfiguration_valid_iff (env : Env) :
  isValid (validateConfiguration env) = true <->
  getAvailableProviders env <> []
  /\ (truthyOpt (env !! "LLM_PROVIDER") = false
      \/ exists sel, env !! "LLM_PROVIDER" = Some sel
                     /\ sel ∈ getAvailableProviders env).
Proof.
  unfold validateConfiguration. cbn [isValid].
  destruct (env !! "LLM_PROVIDER") as [sel|] eqn:Hsel.
  2:{ simpl. destruct (getAvailableProviders env); simpl; naive_solver. }
  destruct (arrayIncludes (getAvailableProviders env) sel) eqn:Hinc.
  - assert (Hin : sel ∈ getAvailableProviders env) by (by apply arrayIncludes_elem_of).
    rewrite andb_false_r.
    assert (Hav : getAvailableProviders env <> []) by (intros E; rewrite E in Hin; inversion Hin).
    assert (H1 : optEqb (Some sel) (lit "openai")
                 && negb (truthyOpt (env !! "OPENAI_API_KEY")) = false).
    { destruct (optEqb (Some sel) (lit "openai")) eqn:E; [|done].
      apply optEqb_true in E as [= ->].
      apply getAvailableProviders_elem_of in Hin as [[_ ->] | [H _]]; [done|].
      by apply openai_is_not_lmstudio in H. }
    assert (H2 : optEqb (Some sel) (lit "lmstudio")
                 && negb (truthyOpt (env !! "LMSTUDIO_BASE_URL")) = false).
    { destruct (optEqb (Some sel) (lit "lmstudio")) eqn:E; [|done].
      apply optEqb_true in E as [= ->].
      apply getAvailableProviders_elem_of in Hin as [[H _] | [_ ->]]; [|done].
      symmetry in H. by apply openai_is_not_lmstudio in H. }
    rewrite H1, H2.
    destruct (getAvailableProviders env) eqn:E; [done|]. simpl.
    split; [|done]. intros _. split; [done|]. right. by exists sel.
  - assert (Hnin : sel ∉ getAvailableProviders env).
    { intros H%arrayIncludes_elem_of. congruence. }
    destruct sel as [|c sel].
    + assert (H1 : optEqb (Some []) (lit "openai") = false) by done.
      assert (H2 : optEqb (Some []) (lit "lmstudio") = false) by done.
      rewrite H1, H2. cbn [truthy truthyOpt andb].
      destruct (getAvailableProviders env); simpl; naive_solver.
    + cbn [truthy negb andb].
      destruct (length (getAvailableProviders env) =? 0)%nat,
        (optEqb _ (lit "openai") && _), (optEqb _ (lit "lmstudio") && _);
        (split; [done|]); intros [_ [H | (s & [= <-] & H)]]; done.
Qed.

(** X3. [validateConfiguration] reports no error exactly when some
    provider is available and [LLM_PROVIDER] is unset, empty, or the name
    of an available provider. *)
Theorem X3_validation_passes_exactly_when (env : Env) :
  isValid (validateConfiguration env) = true <->
  getAvailableProviders env <> []
  /\ (truthyOpt (env !! "LLM_PROVIDER") = false
      \/ exists sel, env !! "LLM_PROVIDER" = Some sel
                     /\ sel ∈ getAvailableProviders env).
Proof.
  split.
  - intros Hvalid. by apply validateConfiguration_valid_iff.
  - intros Hcond. by apply validateConfiguration_valid_iff.
Qed.

(** X4. When the selected provider is one of the two known names and its
    own variable is missing, the same fault is reported twice: once as
    [not available] and once by the check of that provider; a third
    error is added when the other provider is missing too. *)
Theorem X4_missing_credentials_reported_twice (env : Env) :
  (env !! "LLM_PROVIDER" = Some (lit "openai") ->
   truthyOpt (env !! "OPENAI_API_KEY") = false ->
   errors (validateConfiguration env)
   = (if truthyOpt (env !! "LMSTUDIO_BASE_URL") then []
      else [lit "No LLM providers are configured"])
     ++ [lit "Selected provider 'openai' is not available. Available providers: "
         ++ join (lit ", ") (getAvailableProviders env);
         lit "OpenAI provider selected but OPENAI_API_KEY is not set"])
  /\ (env !! "LLM_PROVIDER" = Some (lit "lmstudio") ->
      truthyOpt (env !! "LMSTUDIO_BASE_URL") = false ->
      errors (validateConfiguration env)
      = (if truthyOpt (env !! "OPENAI_API_KEY") then []
         else [lit "No LLM providers are configured"])
        ++ [lit "Selected provider 'lmstudio' is not available. Available providers: "
            ++ join (lit ", ") (getAvailableProviders env);
            lit "LM Studio provider selected but LMSTUDIO_BASE_URL is not set"]).
Proof.
  split; intros Hsel Hkey; unfold validateConfiguration; rewrite Hsel;
    unfold getAvailableProviders; rewrite Hkey;
    [destruct (truthyOpt (env !! "LMSTUDIO_BASE_URL"))
    |destruct (truthyOpt (env !! "OPENAI_API_KEY"))];
    vm_compute; reflexivity.
Qed.

Lemma X4_witness_openai_without_key :
  errors (validateConfiguration
            (<["LLM_PROVIDER" := lit "openai"]> envLmStudioUnselected))
  = [lit "Selected provider 'openai' is not available. Available providers: lmstudio";
     lit "OpenAI provider selected but OPENAI_API_KEY is not set"].
Proof.
  exact (proj1 (X4_missing_credentials_reported_twice
                  (<["LLM_PROVIDER" := lit "openai"]> envLmStudioUnselected))
           eq_refl eq_refl).
Defined.

Lemma indexOfUnit_lacks (c : N) (s rest : list N) :
  lacks c s -> indexOfUnit c (s ++ c :: rest) = Some (length s).
Proof.
  intros H. apply indexOfUnit_app_first.
  induction H as [|x s Hx _ IH]; simpl; [done|].
  apply N.eqb_neq in Hx. by rewrite Hx, IH.
Qed.

(** The id built by [getModel] splits back into its two parts when the
    provider name holds no colon. *)
Lemma languageModel_compose (registry : gmap (list N) Provider)
    (providerName modelName : list N) :
  lacks 58 providerName ->
  languageModel registry (providerName ++ lit ":" ++ modelName)
  = match registry !! providerName with
    | Some p => inr {| handleProvider := p; handleModelId := modelName |}
    | None => inl (Error (lit "AI_NoSuchProviderError")
                         (lit "No such provider: " ++ providerName))
    end.
Proof.
  intros H. unfold languageModel.
  change (lit ":" ++ modelName) with (58%N :: modelName).
  rewrite (indexOfUnit_lacks 58 providerName modelName H).
  rewrite take_app_length.
  replace (drop (S (length providerName)) (providerName ++ 58%N :: modelName))
    with modelName; [done|].
  change (providerName ++ 58%N :: modelName)
    with (providerName ++ [58%N] ++ modelName).
  rewrite app_assoc.
  replace (S (length providerName)) with (length (providerName ++ [58%N]))
    by (rewrite length_app; simpl; lia).
  by rewrite drop_app_length.
Qed.

Lemma getModel_by_registry
    (registry : gmap (list N) Provider) (config : option PartialConfig) (env : Env) :
  lacks 58 (getModelProvider config env) ->
  getModel registry config env
  = match registry !! getModelProvider config env with
    | Some p =>
        inr {| handleProvider := p; handleModelId := getModelName config env |}
    | None =>
        inl (LLMProviderError
               (lit "Failed to get model " ++ getModelName config env
                ++ lit " from provider " ++ getModelProvider config env)
               (getModelProvider config env)
               (Some (Error (lit "AI_NoSuchProviderError")
                            (lit "No such provider: " ++ getModelProvider config env))))
    end.
Proof.
  intros H. unfold getModel. rewrite (languageModel_compose _ _ _ H).
  by destruct (registry !! getModelProvider config env).
Qed.

(** X5. For a provider name without a colon, from [config] or from the
    environment, [getModel] returns a handle exactly when the registry
    holds that name; the handle is that of the registered provider and
    its model id is the whole model name (colons included). Otherwise it
    throws the [LLMProviderError] that names the model and the provider
    and keeps the registry's error as its cause. *)
Theorem X5_getModel_follows_the_registry
    (registry : gmap (list N) Provider) (config : option PartialConfig) (env : Env) :
  lacks 58 (getModelProvider config env) ->
  getModel registry config env
  = match registry !! getModelProvider config env with
    | Some p =>
        inr {| handleProvider := p; handleModelId := getModelName config env |}
    | None =>
        inl (LLMProviderError
               (lit "Failed to get model " ++ getModelName config env
                ++ lit " from provider " ++ getModelProvider config env)
               (getModelProvider config env)
               (Some (Error (lit "AI_NoSuchProviderError")
                            (lit "No such provider: " ++ getModelProvider config env))))
    end.
Proof.
  intros Hcolon. unfold getModel. rewrite (languageModel_compose _ _ _ Hcolon).
  by destruct (registry !! getModelProvider config env).
Qed.

Lemma X5_witness_config_overrides_environment :
  getModel (registryOf envOpenAI)
    (Some {| configProvider := Some (lit "openai");
             configModel := Some (lit "ft:gpt-4o:acme") |})
    envLmStudio
  = inr {| handleProvider := OpenAI (lit "sk-test") None;
           handleModelId := lit "ft:gpt-4o:acme" |}.
Proof.
  rewrite (X5_getModel_follows_the_registry (registryOf envOpenAI)
             (Some {| configProvider := Some (lit "openai");
                      configModel := Some (lit "ft:gpt-4o:acme") |})
             envLmStudio).
  - vm_compute. reflexivity.
  - vm_compute. repeat constructor; discriminate.
Defined.

Lemma lacks_colon_openai : lacks 58 (lit "openai").
Proof. vm_compute. repeat constructor; discriminate. Qed.

Lemma lacks_colon_lmstudio : lacks 58 (lit "lmstudio").
Proof. vm_compute. repeat constructor; discriminate. Qed.

(** X6. Start-up check and model lookup together: in an environment
    whose registry was built and whose check passed, [getModel] as the
    activity calls it fails exactly when [LLM_PROVIDER] is unset or empty
    and [OPENAI_API_KEY] is missing. With [LLM_PROVIDER] set it always
    returns a handle, whose model id is the model name of the
    environment. *)
Theorem X6_after_a_passed_check_getModel_fails_only_by_default
    (env : Env) (registry : gmap (list N) Provider) :
  createRegistry env = inr registry ->
  isValid (validateConfiguration env) = true ->
  ((exists e, getModel registry None env = inl e) <->
   truthyOpt (env !! "LLM_PROVIDER") = false
   /\ truthyOpt (env !! "OPENAI_API_KEY") = false)
  /\ (forall handle, getModel registry None env = inr handle ->
        handleModelId handle = envModelName env).
Proof.
  intros Hreg [Hav Hsel]%validateConfiguration_valid_iff.
  pose proof (createRegistry_cases env) as Hc. rewrite Hreg in Hc.
  destruct Hc as (_ & Ho & Hl & _).
  assert (Hprov : getModelProvider None env = lit "openai"
                  /\ truthyOpt (env !! "LLM_PROVIDER") = false
                  \/ exists sel, env !! "LLM_PROVIDER" = Some sel
                                 /\ truthyOpt (Some sel) = true
                                 /\ getModelProvider None env = sel
                                 /\ sel ∈ getAvailableProviders env).
  { destruct Hsel as [Hf | (sel & Hs & Hin)].
    - left. split; [|done]. unfold getModelProvider, orOpt. simpl.
      destruct (env !! "LLM_PROVIDER") as [[|c s]|]; done.
    - right. exists sel.
      assert (Ht : truthy sel = true).
      { apply getAvailableProviders_elem_of in Hin as [[-> _] | [-> _]]; done. }
      repeat split; try done.
      unfold getModelProvider, orOpt. simpl. rewrite Hs. simpl. by rewrite Ht. }
  assert (Hname : getModelName None env = envModelName env).
  { unfold getModelName, envModelName, orOpt. simpl.
    by destruct (env !! "DEFAULT_MODEL") as [[|c s]|]. }
  destruct Hprov as [[Hp Hf] | (sel & Hs & Ht & Hp & Hin)].
  - rewrite getModel_by_registry
      by (rewrite Hp; apply lacks_colon_openai).
    rewrite Hp, Ho, Hname.
    destruct (truthyOpt (env !! "OPENAI_API_KEY")).
    + split; [|by intros handle [= <-]].
      split; [by intros [e [=]] | by intros [_ [=]]].
    + split; [|by intros handle [=]]. split; [done | by eexists].
  - assert (Hlk : is_Some (registry !! sel)).
    { apply getAvailableProviders_elem_of in Hin as [[-> Hk] | [-> Hk]].
      - rewrite Ho, Hk. by eexists.
      - rewrite Hl, Hk. by eexists. }
    assert (Hlacks : lacks 58 sel).
    { apply getAvailableProviders_elem_of in Hin as [[-> _] | [-> _]];
        [apply lacks_colon_openai | apply lacks_colon_lmstudio]. }
    rewrite getModel_by_registry by (by rewrite Hp).
    rewrite Hp, Hname. destruct Hlk as [p ->].
    split; [|by intros handle [= <-]].
    split; [by intros [e [=]]|]. simpl in Ht. rewrite Hs. simpl.
    intros [H _]. congruence.
Qed.

Lemma X6_witness_selected_lmstudio :
  handleModelId
    {| handleProvider :=
         OpenAICompatible (lit "lmstudio") (lit "not-needed")
           (lit "http://localhost:1234/v1");
       handleModelId := lit "gpt-4o-mini" |}
  = envModelName envLmStudio.
Proof.
  apply (proj2 (X6_after_a_passed_check_getModel_fails_only_by_default
                  envLmStudio (registryOf envLmStudio) eq_refl eq_refl)).
  vm_compute. reflexivity.
Defined.

End ValidationProperties.

Section SingletonProperties.
Import JS Types LlmConfig Singleton Examples.

Lemma instanceAfter_set (manager : LLMProviderManager) (envs : list Env) :
  instanceAfter (Some manager) envs = Some manager.
Proof. induction envs as [|env envs IH]; simpl; done. Qed.

(** X7. The singleton keeps the registry of the first environment in
    which its constructor did not throw: calls made while no provider is
    configured throw and store nothing, the first call that builds a
    registry stores it, and every later call returns that manager
    whatever the environment has become. *)
Theorem X7_singleton_keeps_first_registry
    (before : list Env) (env : Env) (after : list Env)
    (r : gmap (list N) Provider) :
  Forall (fun e => exists err, createRegistry e = inl err) before ->
  createRegistry env = inr r ->
  instanceAfter None before = None
  /\ instanceAfter None (before ++ env :: after) = Some {| registry := r |}
  /\ forall later,
       getInstance (instanceAfter None (before ++ env :: after)) later
       = (inr {| registry := r |}, Some {| registry := r |}).
Proof.
  intros Hbefore Henv.
  assert (Hnone : instanceAfter None before = None).
  { induction Hbefore as [|e before [err He] _ IH]; simpl; [done|].
    rewrite He. simpl. exact IH. }
  assert (H : instanceAfter None (before ++ env :: after) = Some {| registry := r |}).
  { clear Hnone. induction Hbefore as [|e before [err He] _ IH]; simpl.
    - rewrite Henv. simpl. apply instanceAfter_set.
    - rewrite He. simpl. exact IH. }
  split; [exact Hnone|]. split; [exact H|].
  intros later. by rewrite H.
Qed.

Lemma X7_witness_configured_late :
  getInstance (instanceAfter None ([∅] ++ envOpenAI :: [envLmStudio])) envLmStudio
  = (inr {| registry := registryOf envOpenAI |},
     Some {| registry := registryOf envOpenAI |}).
Proof.
  apply (X7_singleton_keeps_first_registry [∅] envOpenAI [envLmStudio]
           (registryOf envOpenAI)).
  - repeat constructor. eexists. vm_compute. reflexivity.
  - vm_compute. reflexivity.
Defined.

End SingletonProperties.

(* ===================================================================== *)
(** ** Further properties: the classification activity *)
(* ===================================================================== *)

Section ActivityProperties.
Import JS Json Types LlmConfig Activities Examples Reading.

#[local] Arguments lit : simpl never.

Lemma trimStart_nil_inv (s : list N) :
  trimStart s = [] -> Forall (fun c => isWhiteSpace c = true) s.
Proof.
  induction s as [|c s IH]; simpl; [constructor|].
  destruct (isWhiteSpace c) eqn:Hc; [|discriminate].
  intros H. constructor; [done | by apply IH].
Qed.

Lemma trimStart_head (s t : list N) (c : N) :
  trimStart s = c :: t -> isWhiteSpace c = false.
Proof.
  induction s as [|x s IH]; simpl; [discriminate|].
  destruct (isWhiteSpace x) eqn:Hx; [exact IH|]. by intros [= <- _].
Qed.

Lemma trim_nil_inv (s : list N) :
  trim s = [] -> Forall (fun c => isWhiteSpace c = true) s.
Proof.
  unfold trim, trimEnd. intros H.
  assert (H1 : trimStart (rev (trimStart s)) = []).
  { destruct (trimStart (rev (trimStart s))) as [|x l]; [done|].
    simpl in H. by destruct (rev l). }
  apply trimStart_nil_inv in H1. apply Forall_rev in H1. rewrite rev_involutive in H1.
  destruct (trimStart s) as [|c t] eqn:Ht; [by apply trimStart_nil_inv|].
  apply trimStart_head in Ht. inversion H1; congruence.
Qed.

(** The guard of the activity rejects exactly the missing message and
    the messages made of white space only. *)
Lemma messageRejected_iff (m : option (list N)) :
  messageRejected m = true <->
  m = None \/ exists s, m = Some s /\ Forall (fun c => isWhiteSpace c = true) s.
Proof.
  split.
  - destruct m as [s|]; [|by left]. simpl. intros H. right. exists s. split; [done|].
    apply orb_true_iff in H as [H|H].
    + destruct s; [constructor | discriminate].
    + apply Nat.eqb_eq in H. apply trim_nil_inv. by destruct (trim s).
  - intros [-> | (s & -> & H)]; [done|]. by apply messageRejected_blank.
Qed.

(** The four shapes a run of the activity can have. *)
Lemma classifyMessage_shapes registry env w request :
  let result := classifyMessage registry env w request in
  (messageRejected (message request) = true /\ trace result = []
   /\ outcome result
      = inl (ClassificationError (lit "Message cannot be empty") request None))
  \/ (messageRejected (message request) = false
      /\ exists e, getModel registry None env = inl e
                   /\ trace result
                      = [GetModel (getModelProvider None env) (getModelName None env)]
                   /\ outcome result = inl e)
  \/ (messageRejected (message request) = false
      /\ exists msg handle,
           message request = Some msg
           /\ getModel registry None env = inr handle
           /\ ((envProvider env = lit "lmstudio"
                /\ trace result
                   = [GetModel (getModelProvider None env) (getModelName None env);
                      GenerateText (textArgs handle (userPromptOf msg))])
               \/ (envProvider env <> lit "lmstudio"
                   /\ trace result
                      = [GetModel (getModelProvider None env) (getModelName None env);
                         GenerateObject (objectArgs handle (userPromptOf msg))]))).
Proof.
  intros result. subst result.
  destruct (messageRejected (message request)) eqn:Hrej.
  { left. by rewrite (classifyMessage_rejected _ _ _ _ Hrej). }
  right. destruct (getModel registry None env) as [e|handle] eqn:Hm.
  { left. split; [done|]. exists e.
    by rewrite (classifyMessage_unresolved _ _ _ _ _ Hrej Hm). }
  right. split; [done|].
  destruct (message request) as [msg|] eqn:Hmsg; [|discriminate].
  exists msg, handle. split; [done|]. split; [done|].
  destruct (decide (envProvider env = lit "lmstudio")) as [Hp|Hp]; [left|right];
    (split; [done|]).
  - by rewrite (classifyMessage_lmstudio _ _ _ _ _ _ Hmsg Hrej Hm Hp).
  - by rewrite (classifyMessage_structured _ _ _ _ _ _ Hmsg Hrej Hm Hp).
Qed.

(** X8. Whatever goes wrong, [classifyMessage] throws one of the two
    domain errors: a [ClassificationError] or an [LLMProviderError],
    never a bare [Error] and never a value that is not an [Error]. *)
Theorem X8_activity_throws_only_domain_errors
    (registry : gmap (list N) Provider) (env : Env) (w : World)
    (request : MessageClassificationRequest) (e : Exn) :
  outcome (classifyMessage registry env w request) = inl e ->
  isDomainError e = true.
Proof.
  intros He.
  destruct (messageRejected (message request)) eqn:Hrej.
  { rewrite (classifyMessage_rejected _ _ _ _ Hrej) in He. by injection He as <-. }
  destruct (getModel registry None env) as [e0|handle] eqn:Hm.
  { rewrite (classifyMessage_unresolved _ _ _ _ _ Hrej Hm) in He. injection He as <-.
    revert Hm. unfold getModel. destruct (languageModel _ _); [|done]. by intros [= <-]. }
  destruct (message request) as [msg|] eqn:Hmsg; [|discriminate].
  destruct (decide (envProvider env = lit "lmstudio")) as [Hp|Hp].
  - rewrite (classifyMessage_lmstudio _ _ _ _ _ _ Hmsg Hrej Hm Hp) in He.
    unfold outcome in He. simpl in He.
    destruct (textOf w _) as [e1|text].
    + destruct (handleActivityError_throws request e1) as (e' & Heq & Hd & _).
      rewrite Heq in He. simpl in He. by injection He as <-.
    + destruct (extractClassification text); [|discriminate]. by injection He as <-.
  - rewrite (classifyMessage_structured _ _ _ _ _ _ Hmsg Hrej Hm Hp) in He.
    unfold outcome in He. simpl in He.
    destruct (objectOf w _) as [e1|raw].
    + destruct (handleActivityError_throws request e1) as (e' & Heq & Hd & _).
      rewrite Heq in He. simpl in He. by injection He as <-.
    + destruct (classificationSchema raw); [|discriminate]. by injection He as <-.
Qed.

Lemma X8_witness_provider_down :
  isDomainError
    (ClassificationError (lit "Failed to classify message: Service Unavailable")
       hello (Some unavailable)) = true.
Proof.
  apply (X8_activity_throws_only_domain_errors (registryOf envOpenAI) envOpenAI
           (failing unavailable) hello).
  vm_compute. reflexivity.
Defined.

(** X9. One run of [classifyMessage] invokes [generateText] or
    [generateObject] at most once, the two never together and neither in
    a loop of the activity's own, and exactly once when the message
    passes the guard and the model handle is resolved; the handle is
    asked for right before the invocation. How many requests the [ai]
    package sends within that one invocation is not counted: the
    activity passes no [maxRetries], so the package's own retries
    apply. *)
Theorem X9_at_most_one_generate_invocation
    (registry : gmap (list N) Provider) (env : Env) (w : World)
    (request : MessageClassificationRequest) :
  length (modelCalls (trace (classifyMessage registry env w request))) <= 1
  /\ (length (modelCalls (trace (classifyMessage registry env w request))) = 1 <->
      messageRejected (message request) = false
      /\ exists handle, getModel registry None env = inr handle)
  /\ (forall call, call ∈ modelCalls (trace (classifyMessage registry env w request)) ->
        exists provider model rest,
          trace (classifyMessage registry env w request)
          = GetModel provider model :: call :: rest).
Proof.
  destruct (classifyMessage_shapes registry env w request)
    as [(Hrej & -> & _) | [(Hrej & e & Hm & -> & _)
       | (Hrej & msg & handle & Hmsg & Hm & [[_ ->] | [_ ->]])]];
    simpl; (split; [lia|]); split.
  - split; [lia | intros [H _]; congruence].
  - intros call H. inversion H.
  - split; [lia | intros [_ [h H]]; congruence].
  - intros call H. inversion H.
  - split; [eauto | done].
  - intros call ->%list_elem_of_singleton. eauto.
  - split; [eauto | done].
  - intros call ->%list_elem_of_singleton. eauto.
Qed.

(** X10. [classifyMessage] stops before any event exactly when the
    message is missing or made of white space only; any message with one
    other code unit gets as far as the model lookup. *)
Theorem X10_guard_stops_exactly_blank_messages
    (registry : gmap (list N) Provider) (env : Env) (w : World)
    (request : MessageClassificationRequest) :
  trace (classifyMessage registry env w request) = [] <->
  message request = None
  \/ exists s, message request = Some s
               /\ Forall (fun c => isWhiteSpace c = true) s.
Proof.
  rewrite <- messageRejected_iff.
  destruct (classifyMessage_shapes registry env w request)
    as [(Hrej & -> & _) | [(Hrej & e & Hm & -> & _)
       | (Hrej & msg & handle & Hmsg & Hm & [[_ ->] | [_ ->]])]];
    rewrite Hrej; split; done.
Qed.

End ActivityProperties.

Section ActivityErrorProperties.
Import JS Json Types LlmConfig Activities Examples Reading.

#[local] Arguments lit : simpl never.
#[local] Transparent handleActivityError.

Lemma handleActivityError_wrapped request e :
  handleActivityError request e = ([], inl (wrapped request e)).
Proof.
  unfold handleActivityError, wrapped. destruct e as [n m| | |]; simpl; try done.
  by destruct (includes m (lit "schema")).
Qed.

(** X11. When the call to the provider throws, on either path, the
    activity throws in its turn: an error of the two domain classes as
    it is; another [Error] as a [ClassificationError] that carries the
    request, keeps the error as its cause and quotes its message, under
    the heading [LLM response validation failed] when that message holds
    the word [schema] and [Failed to classify message] otherwise; a thrown
    value that is no [Error] as [Failed to classify message: Unknown
    error] without a cause. *)
Theorem X11_provider_failure_is_wrapped
    (registry : gmap (list N) Provider) (env : Env) (w : World)
    (request : MessageClassificationRequest) (msg : list N) (handle : ModelHandle)
    (e : Exn) :
  message request = Some msg ->
  messageRejected (Some msg) = false ->
  getModel registry None env = inr handle ->
  (envProvider env = lit "lmstudio"
   /\ textOf w (textArgs handle (userPromptOf msg)) = inl e)
  \/ (envProvider env <> lit "lmstudio"
      /\ objectOf w (objectArgs handle (userPromptOf msg)) = inl e) ->
  outcome (classifyMessage registry env w request)
  = inl match e with
        | LLMProviderError _ _ _ | ClassificationError _ _ _ => e
        | Error _ m =>
            if includes m (lit "schema") then
              ClassificationError
                (lit "LLM response validation failed: " ++ m
                 ++ lit ". This indicates the model couldn't generate properly structured output.")
                request (Some e)
            else
              ClassificationError (lit "Failed to classify message: " ++ m)
                request (Some e)
        | Thrown =>
            ClassificationError (lit "Failed to classify message: Unknown error")
              request None
        end.
Proof.
  intros Hmsg Hok Hm [[Hp He] | [Hp He]].
  - rewrite (classifyMessage_lmstudio _ _ _ _ _ _ Hmsg Hok Hm Hp).
    unfold outcome. cbn [snd]. rewrite He.
    by rewrite handleActivityError_wrapped.
  - rewrite (classifyMessage_structured _ _ _ _ _ _ Hmsg Hok Hm Hp).
    unfold outcome. cbn [snd]. rewrite He.
    by rewrite handleActivityError_wrapped.
Qed.

Lemma X11_witness_service_unavailable :
  outcome (classifyMessage (registryOf envOpenAI) envOpenAI (failing unavailable) hello)
  = inl (ClassificationError (lit "Failed to classify message: Service Unavailable")
           hello (Some unavailable)).
Proof.
  apply (X11_provider_failure_is_wrapped (registryOf envOpenAI) envOpenAI
           (failing unavailable) hello (lit "hello")
           {| handleProvider := OpenAI (lit "sk-test") None;
              handleModelId := lit "gpt-4o-mini" |} unavailable);
    try (vm_compute; reflexivity).
  right. split; [vm_compute; discriminate | reflexivity].
Defined.

(** X12. With a provider that throws no domain error of its own, every
    [ClassificationError] of the activity carries the request of the
    call, and an [LLMProviderError] comes from nowhere but [getModel]. *)
Theorem X12_errors_carry_the_request
    (registry : gmap (list N) Provider) (env : Env) (w : World)
    (request : MessageClassificationRequest) (e : Exn) :
  plainFailures w ->
  outcome (classifyMessage registry env w request) = inl e ->
  (exists m cause, e = ClassificationError m request cause)
  \/ (getModel registry None env = inl e
      /\ exists m p cause, e = LLMProviderError m p cause).
Proof.
  intros [Htext Hobj] He.
  destruct (messageRejected (message request)) eqn:Hrej.
  { rewrite (classifyMessage_rejected _ _ _ _ Hrej) in He. injection He as <-. eauto. }
  destruct (getModel registry None env) as [e0|handle] eqn:Hm.
  { rewrite (classifyMessage_unresolved _ _ _ _ _ Hrej Hm) in He. injection He as <-.
    right. split; [done|]. revert Hm. unfold getModel.
    destruct (languageModel _ _); [|done]. intros [= <-]. eauto. }
  destruct (message request) as [msg|] eqn:Hmsg; [|discriminate].
  assert (Hw : forall e1, isDomainError e1 = false ->
             exists m cause, wrapped request e1 = ClassificationError m request cause).
  { intros [n m| | |] H; try discriminate; simpl; [|eauto].
    destruct (includes m (lit "schema")); eauto. }
  left.
  destruct (decide (envProvider env = lit "lmstudio")) as [Hp|Hp].
  - rewrite (classifyMessage_lmstudio _ _ _ _ _ _ Hmsg Hrej Hm Hp) in He.
    unfold outcome in He. cbn [snd] in He.
    destruct (textOf w _) as [e1|text] eqn:Ht.
    + rewrite handleActivityError_wrapped in He. injection He as <-.
      apply Hw. by apply (Htext _ _ Ht).
    + destruct (extractClassification text); [|discriminate]. injection He as <-. eauto.
  - rewrite (classifyMessage_structured _ _ _ _ _ _ Hmsg Hrej Hm Hp) in He.
    unfold outcome in He. cbn [snd] in He.
    destruct (objectOf w _) as [e1|raw] eqn:Ht.
    + rewrite handleActivityError_wrapped in He. injection He as <-.
      apply Hw. by apply (Hobj _ _ Ht).
    + destruct (classificationSchema raw); [|discriminate]. injection He as <-.
      unfold schemaMismatch. eauto.
Qed.

Lemma X12_witness_provider_down :
  (exists m cause,
     ClassificationError (lit "Failed to classify message: Service Unavailable")
       hello (Some unavailable) = ClassificationError m hello cause)
  \/ (getModel (registryOf envOpenAI) None envOpenAI
      = inl (ClassificationError (lit "Failed to classify message: Service Unavailable")
               hello (Some unavailable))
      /\ exists m p cause,
           ClassificationError (lit "Failed to classify message: Service Unavailable")
             hello (Some unavailable) = LLMProviderError m p cause).
Proof.
  apply (X12_errors_carry_the_request (registryOf envOpenAI) envOpenAI
           (failing unavailable) hello).
  - split; intros args e [= <-]; reflexivity.
  - vm_compute. reflexivity.
Defined.

Lemma getSubstitution_plain (matched before after repl : list N) :
  lacks 36 repl -> getSubstitution matched before after repl = repl.
Proof.
  induction 1 as [|c r Hc _ IH]; simpl; [done|].
  apply N.eqb_neq in Hc. by rewrite Hc, IH.
Qed.

(** X13. For a message without a dollar sign the user prompt is the
    template with the message in the place of [{message}], code unit for
    code unit, between the two double quotes. (A dollar sign is read by
    [String.prototype.replace] as the start of a replacement pattern.) *)
Theorem X13_prompt_holds_the_message_verbatim (msg : list N) :
  lacks 36 msg ->
  userPromptOf msg
  = lit "Classify this message for offensive content: " ++ dq ++ msg ++ dq.
Proof.
  intros H. unfold userPromptOf, replace.
  replace (indexOf userPromptTemplate (lit "{message}")) with (Some 46)
    by (vm_compute; reflexivity).
  rewrite (getSubstitution_plain _ _ _ _ H).
  replace (take 46 userPromptTemplate)
    with (lit "Classify this message for offensive content: " ++ dq)
    by (vm_compute; reflexivity).
  replace (drop (46 + length (lit "{message}")) userPromptTemplate) with dq
    by (vm_compute; reflexivity).
  by rewrite <- app_assoc.
Qed.

Lemma X13_witness_hello :
  userPromptOf (lit "hello")
  = lit "Classify this message for offensive content: " ++ dq ++ lit "hello" ++ dq.
Proof.
  apply X13_prompt_holds_the_message_verbatim.
  vm_compute. repeat constructor; discriminate.
Defined.

End ActivityErrorProperties.

Section ExtractionProperties.
Import JS Json Types LlmConfig Activities Examples Reading.

#[local] Arguments lit : simpl never.

Lemma lacks_indexOfUnit (c : N) (s : list N) :
  lacks c s <-> indexOfUnit c s = None.
Proof.
  unfold lacks. induction s as [|x s IH]; simpl; [split; [done|constructor]|].
  destruct (x =? c)%N eqn:E.
  - apply N.eqb_eq in E. split; [|done]. intros H. inversion H; congruence.
  - apply N.eqb_neq in E. rewrite Forall_cons, IH.
    destruct (indexOfUnit c s); simpl; naive_solver.
Qed.

Lemma indexOfUnit_split (c : N) (s : list N) (i : nat) :
  indexOfUnit c s = Some i ->
  exists pre rest, s = pre ++ c :: rest /\ length pre = i /\ lacks c pre.
Proof.
  revert i. induction s as [|x s IH]; intros i; simpl; [done|].
  destruct (x =? c)%N eqn:E.
  - apply N.eqb_eq in E as ->. intros [= <-]. exists [], s. repeat split. constructor.
  - destruct (indexOfUnit c s) as [j|]; [|done]. simpl. intros [= <-].
    destruct (IH j eq_refl) as (pre & rest & -> & Hlen & Hl).
    exists (x :: pre), rest. simpl. repeat split; [by rewrite Hlen|].
    constructor; [by apply N.eqb_neq | done].
Qed.

Lemma lastIndexOfUnit_split (c : N) (s : list N) (j : nat) :
  lastIndexOfUnit c s = Some j ->
  exists front post, s = front ++ c :: post /\ length front = j /\ lacks c post.
Proof.
  revert j. induction s as [|x s IH]; intros j; simpl; [done|].
  destruct (lastIndexOfUnit c s) as [k|] eqn:Hk.
  - intros [= <-]. destruct (IH k eq_refl) as (front & post & -> & Hlen & Hl).
    exists (x :: front), post. simpl. by rewrite Hlen.
  - destruct (x =? c)%N eqn:E; [|done]. apply N.eqb_eq in E as ->. intros [= <-].
    exists [], s. repeat split. apply lacks_indexOfUnit.
    by apply indexOfUnit_none_last.
Qed.

(** X14. The match of the activity's regular expression, when there is
    one, is the piece of the answer that runs from its first [{] to its
    last [}]: nothing before it holds a [{], nothing after it holds a
    [}]. Every answer of that form has that match, and an answer has no
    match exactly when it is of no such form. *)
Theorem X14_match_runs_from_first_to_last_brace (text m : list N) :
  matchBraces text = Some m <->
  exists pre body post,
    text = pre ++ m ++ post
    /\ m = 123%N :: body ++ [125%N]
    /\ lacks 123 pre
    /\ lacks 125 post.
Proof.
  split.
  - unfold matchBraces.
    destruct (indexOfUnit 123 text) as [i|] eqn:Hi; [|done].
    destruct (indexOfUnit_split _ _ _ Hi) as (pre & rest & -> & Hlen & Hpre).
    rewrite <- Hlen, drop_app_length.
    remember (123%N :: rest) as s1 eqn:Hs1.
    destruct (lastIndexOfUnit 125 s1) as [j|] eqn:Hj; [|done].
    destruct (lastIndexOfUnit_split _ _ _ Hj) as (front & post & Heq & Hlen' & Hpost).
    assert (Htake : take (S j) s1 = front ++ [125%N]).
    { rewrite Heq.
      replace (S j) with (length (front ++ [125%N]))
        by (rewrite length_app; simpl; lia).
      replace (front ++ 125%N :: post) with ((front ++ [125%N]) ++ post)
        by (by rewrite <- app_assoc).
      by rewrite take_app_length. }
    rewrite Htake. intros [= <-].
    destruct front as [|x front]; [rewrite Heq in Hs1; discriminate|].
    rewrite Heq in Hs1. injection Hs1 as -> Hrest.
    exists pre, front, post. repeat split; try done.
    rewrite Heq. simpl. by rewrite <- app_assoc.
  - intros (pre & body & post & -> & -> & Hpre & Hpost).
    apply matchBraces_embedded; by apply lacks_indexOfUnit.
Qed.

Lemma allStrings_iff (items : list json) (ss : list (list N)) :
  allStrings items = Some ss <-> items = JString <$> ss.
Proof.
  revert ss. induction items as [|v items IH]; intros ss; simpl.
  - split; [by intros [= <-] | by destruct ss].
  - destruct v as [| | |s| |]; try (split; [done | by destruct ss]).
    destruct (allStrings items) as [ss'|] eqn:E; simpl.
    + split.
      * intros [= <-]. simpl. f_equal. by apply IH.
      * destruct ss as [|s0 ss0]; [done|]. simpl. intros [= -> H].
        apply IH in H. by injection H as ->.
    + split; [done|]. destruct ss as [|s0 ss0]; [done|]. simpl. intros [= -> H].
      apply IH in H. discriminate.
Qed.

(** X15. [classificationSchema] accepts exactly the JSON objects in
    which [isOffensive] is a boolean, [confidence] a number from 0 to 1,
    [reasoning] a string and [categories] either missing or an array of
    strings, and it returns those four values; every other key of the
    object is ignored, and of a key written twice the last one counts. *)
Theorem X15_schema_accepts_exactly (data : json) (d : ClassificationData) :
  classificationSchema data = inr d <->
  exists members,
    data = JObject members
    /\ getProp (lit "isOffensive") members = Some (JBool (dataIsOffensive d))
    /\ getProp (lit "confidence") members = Some (JNumber (dataConfidence d))
    /\ (0 <= dataConfidence d)%Q /\ (dataConfidence d <= 1)%Q
    /\ getProp (lit "reasoning") members = Some (JString (dataReasoning d))
    /\ match dataCategories d with
       | None => getProp (lit "categories") members = None
       | Some ss =>
           getProp (lit "categories") members = Some (JArray (JString <$> ss))
       end.
Proof.
  split.
  - unfold classificationSchema. destruct data as [| | | | |members]; try discriminate.
    unfold zBoolean, zNumberMinMax, zString, zOptionalStringArray.
    destruct (getProp (lit "isOffensive") members) as [[| b | | | |]|] eqn:H1;
      try discriminate.
    destruct (getProp (lit "confidence") members) as [[| | q | | |]|] eqn:H2;
      try discriminate.
    destruct (Qle_bool 0 q) eqn:Hlo; [|discriminate].
    destruct (Qle_bool q 1) eqn:Hhi; [|discriminate].
    destruct (getProp (lit "reasoning") members) as [[| | | s | |]|] eqn:H3;
      try discriminate.
    cbn [negb].
    destruct (getProp (lit "categories") members) as [[| | | |items|]|] eqn:H4;
      try discriminate.
    + destruct (allStrings items) as [ss|] eqn:Hs; [|discriminate].
      intros [= <-]. exists members. cbn.
      apply allStrings_iff in Hs as ->.
      repeat split; try done; by apply Qle_bool_iff.
    + intros [= <-]. exists members. cbn.
      repeat split; try done; by apply Qle_bool_iff.
  - intros (members & -> & H1 & H2 & Hlo & Hhi & H3 & H4).
    apply Qle_bool_iff in Hlo, Hhi.
    unfold classificationSchema, zBoolean, zNumberMinMax, zString, zOptionalStringArray.
    rewrite H1, H2, H3, Hlo, Hhi. cbn [negb].
    destruct d as [b q s [ss|]]; cbn in *; rewrite H4.
    + assert (Hs : allStrings (JString <$> ss) = Some ss) by (by apply allStrings_iff).
      by rewrite Hs.
    + done.
Qed.

End ExtractionProperties.

(* ===================================================================== *)
(** ** Further properties: the greeting and the workflows *)
(* ===================================================================== *)

Section GreetingProperties.
Import JS Types Activities Workflows Greeting Examples Reading.

#[local] Arguments lit : simpl never.

(** X16. [sayName] never throws and records nothing; it greets the name
    it was given when that name is not empty and [anonymous human]
    otherwise, so no greeting is ever addressed to the empty name, and
    two different names that are not empty get different greetings. *)
Theorem X16_greeting_names_somebody (name : option (list N)) :
  (exists who,
     sayName name = ([], inr (lit "Hello, " ++ who ++ lit "!"))
     /\ who <> []
     /\ (truthyOpt name = true -> name = Some who)
     /\ (truthyOpt name = false -> who = lit "anonymous human"))
  /\ (forall other,
        truthyOpt name = true -> truthyOpt other = true ->
        sayName name = sayName other -> name = other).
Proof.
  split.
  - exists (orElse name (lit "anonymous human")). split; [done|].
    destruct name as [[|c s]|]; simpl; repeat split; try done.
  - intros other Hn Ho. unfold sayName, ret.
    destruct name as [[|c s]|]; try discriminate.
    destruct other as [[|c' s']|]; try discriminate.
    cbn [orElse truthy]. intros H.
    assert (H' : lit "Hello, " ++ (c :: s) ++ lit "!"
                 = lit "Hello, " ++ (c' :: s') ++ lit "!") by congruence.
    apply app_inv_head in H'. apply app_inv_tail in H'. by rewrite H'.
Qed.

(** X17. [helloWorldWorkflow] returns the greeting of [sayName] as soon
    as one of its three attempts ends within the two minutes of
    [startToCloseTimeout]; it fails only when all three run past it, and
    then with the time-out of the third. *)
Theorem X17_hello_fails_only_by_timing_out
    (elapsedOf : nat -> Z) (name : option (list N)) :
  let result := (helloWorldWorkflow elapsedOf name).2 in
  let greeting := lit "Hello, " ++ orElse name (lit "anonymous human") ++ lit "!" in
  (result = inr greeting <->
   (elapsedOf 1%nat <= 120000 \/ elapsedOf 2%nat <= 120000
    \/ elapsedOf 3%nat <= 120000)%Z)
  /\ (result = inl timeoutFailure <->
      (120000 < elapsedOf 1%nat /\ 120000 < elapsedOf 2%nat
       /\ 120000 < elapsedOf 3%nat)%Z)
  /\ (result = inr greeting \/ result = inl timeoutFailure).
Proof.
  intros result greeting. subst result.
  unfold helloWorldWorkflow. rewrite executeActivity_unfold.
  assert (Hobs : forall k,
             observe activityOptions (sayNameAttempt elapsedOf name k)
             = if (120000 <? elapsedOf k)%Z then inl timeoutFailure else inr greeting).
  { intros k. unfold observe, sayNameAttempt. cbn [duration run].
    change (startToCloseTimeout activityOptions) with 120000%Z.
    by destruct (120000 <? elapsedOf k)%Z. }
  rewrite !Hobs.
  destruct (Z.ltb_spec 120000 (elapsedOf 1)), (Z.ltb_spec 120000 (elapsedOf 2)),
    (Z.ltb_spec 120000 (elapsedOf 3)); cbn [snd];
    (split; [|split]); try (split; intros; try done; try lia);
    try (by left); try (by right).
  all: try (intros [? | [? | ?]]; lia).
  all: try (intros (? & ? & ?); lia).
Qed.

End GreetingProperties.

Section WorkflowProperties.
Import JS Json Types LlmConfig Activities Workflows Examples Reading.

#[local] Arguments lit : simpl never.

(** X18. On a list that is not empty the batch workflow schedules every
    request, once, in the order of the list, whichever of them fail and
    whatever the order of completion; each scheduled activity takes one
    to three attempts. *)
Theorem X18_batch_schedules_every_request
    (registry : gmap (list N) Provider) (env : Env)
    (worlds : nat -> nat -> AttemptWorld) (completion : list nat)
    (requests : list MessageClassificationRequest) :
  requests <> [] ->
  let scheduled :=
    (batchMessageClassificationWorkflow registry env worlds completion
       (Some requests)).1 in
  scheduledRequest <$> scheduled = requests
  /\ forall i s, scheduled !! i = Some s ->
       scheduledAttempts s
       = (classifyMessageProxy registry env (worlds i) (scheduledRequest s)).1
       /\ 1 <= length (scheduledAttempts s) <= 3.
Proof.
  intros Hne scheduled. subst scheduled.
  destruct requests as [|r rs]; [done|].
  unfold batchMessageClassificationWorkflow. cbn [fst].
  set (reqs := r :: rs). clearbody reqs. clear Hne r rs.
  unfold scheduleAll. split.
  - apply list_eq. intros i.
    rewrite list_lookup_fmap, lookup_zip_with, list_lookup_imap.
    by destruct (reqs !! i).
  - intros i s. rewrite lookup_zip_with, list_lookup_imap.
    destruct (reqs !! i) as [request|]; [|done]. simpl. intros [= <-]. simpl.
    split; [done|].
    unfold classifyMessageProxy. rewrite executeActivity_unfold.
    repeat destruct (observe _ _); simpl; lia.
Qed.

Lemma X18_witness_one_blank :
  scheduledRequest <$>
    (batchMessageClassificationWorkflow (registryOf envOpenAI) envOpenAI
       (fun _ _ => {| elapsed := 10; world := answering [] |}) [0]
       (Some [hello; requestOf (lit " ")])).1
  = [hello; requestOf (lit " ")].
Proof.
  apply (X18_batch_schedules_every_request (registryOf envOpenAI) envOpenAI
           (fun _ _ => {| elapsed := 10; world := answering [] |}) [0]
           [hello; requestOf (lit " ")]).
  discriminate.
Defined.

Lemma firstRejection_Some {A} (outs : list (Exn + A)) (completion : list nat)
    (i : nat) (e : Exn) :
  firstRejection outs completion = Some (i, e) -> outs !! i = Some (inl e).
Proof.
  induction completion as [|j rest IH]; simpl; [done|].
  destruct (outs !! j) as [[e0|v]|] eqn:Hj; try exact IH. by intros [= <- <-].
Qed.

(** [Promise.all] rejects exactly with the first rejection in the order
    of completion. *)
Lemma promiseAllLoop_rejected_iff {A} (outs : list (Exn + A)) (completion : list nat)
    (values : list (option A)) (remaining : nat) (e : Exn) :
  slotsAgree outs values remaining ->
  promiseAllLoop outs completion values remaining = Rejected e <->
  exists i, firstRejection outs completion = Some (i, e).
Proof.
  revert values remaining.
  induction completion as [|j rest IH]; intros values remaining Hinv; simpl.
  { split; [done | by intros [i [=]]]. }
  destruct (outs !! j) as [[e0|v]|] eqn:Hout.
  - split; [intros [= <-]; by exists j | by intros [i [= _ <-]]].
  - destruct (values !! j) as [[u|]|] eqn:Hslot; try by apply IH.
    pose proof (slotsAgree_fill _ _ _ _ _ Hinv Hout Hslot) as Hinv'.
    destruct (remaining - 1 =? 0)%nat eqn:Hz; [|by apply IH].
    apply Nat.eqb_eq in Hz. rewrite Hz in Hinv'.
    split; [done|]. intros [i Hi%firstRejection_Some].
    apply slotsAgree_done in Hinv'. rewrite <- Hinv', list_lookup_fmap in Hi.
    by destruct (omap id (<[j:=Some v]> values) !! i).
  - by apply IH.
Qed.

(** X19. A batch on a list that is not empty is rejected exactly when
    some activity that has completed failed, and the error it is rejected
    with is the failure of the first such activity in the order of
    completion, which need not be the first one in the list. *)
Theorem X19_batch_rejects_with_first_completed_failure
    (registry : gmap (list N) Provider) (env : Env)
    (worlds : nat -> nat -> AttemptWorld) (completion : list nat)
    (requests : list MessageClassificationRequest) (e : Exn) :
  requests <> [] ->
  (batchMessageClassificationWorkflow registry env worlds completion (Some requests)).2
    = Rejected e
  <-> exists i,
        firstRejection (snd <$> scheduleAll registry env worlds requests) completion
        = Some (i, e).
Proof.
  intros Hne. rewrite (batch_outcome _ _ _ _ _ Hne).
  rewrite <- (scheduleAll_length registry env worlds requests).
  apply promiseAllLoop_rejected_iff, slotsAgree_start.
Qed.

Lemma X19_witness_second_fails_first :
  (batchMessageClassificationWorkflow (registryOf envOpenAI) envOpenAI
     (fun _ _ => {| elapsed := 10; world := answering [] |}) [2; 1; 0]
     (Some [requestOf []; hello; requestOf (lit " ")])).2
  = Rejected (ClassificationError (lit "Message cannot be empty")
                (requestOf (lit " ")) None).
Proof.
  apply (X19_batch_rejects_with_first_completed_failure (registryOf envOpenAI)
           envOpenAI (fun _ _ => {| elapsed := 10; world := answering [] |})
           [2; 1; 0] [requestOf []; hello; requestOf (lit " ")]).
  - discriminate.
  - exists 2. vm_compute. reflexivity.
Defined.

(** X20. A failure that no retry can cure is retried all the same: when
    the message passes the workflow's check but not the activity's, or
    when the model handle cannot be resolved, the single workflow makes
    exactly three attempts, waits 1 s and 2 s between them, calls no
    provider in any of them and ends with a failure. *)
Theorem X20_hopeless_failure_takes_three_attempts
    (registry : gmap (list N) Provider) (env : Env)
    (worlds : nat -> AttemptWorld) (request : MessageClassificationRequest) :
  invalidRequest (Some request) = false ->
  messageRejected (message request) = true
  \/ (exists e, getModel registry None env = inl e) ->
  exists logs failure,
    messageClassificationWorkflow registry env worlds (Some request)
    = ([{| scheduledRequest := request; scheduledAttempts := logs |}], inl failure)
    /\ attemptNumber <$> logs = [1; 2; 3]
    /\ waitedBefore <$> logs = [0; 1000; 2000]%Z
    /\ Forall (fun log => modelCalls (attemptEvents log) = []) logs
    /\ Forall (fun log => exists e, attemptOutcome log = inl e) logs.
Proof.
  intros Hok Hfail.
  assert (Hrun : forall k, exists e,
             outcome (classifyMessage registry env (world (worlds k)) request) = inl e
             /\ modelCalls (trace (classifyMessage registry env (world (worlds k))
                                     request)) = []).
  { intros k. destruct Hfail as [Hrej | [e Hm]].
    - rewrite (classifyMessage_rejected _ _ _ _ Hrej). by eexists.
    - destruct (messageRejected (message request)) eqn:Hrej.
      + rewrite (classifyMessage_rejected _ _ _ _ Hrej). by eexists.
      + rewrite (classifyMessage_unresolved _ _ _ _ _ Hrej Hm). by eexists. }
  assert (Hobs : forall k, exists e,
             observe activityOptions (classifyAttempt registry env worlds request k)
             = inl e).
  { intros k. unfold observe, classifyAttempt. cbn [duration run].
    destruct (_ <? _)%Z; [by eexists|]. destruct (Hrun k) as (e & -> & _). by eexists. }
  rewrite (workflow_dispatches _ _ _ _ Hok).
  unfold classifyMessageProxy. rewrite executeActivity_unfold.
  destruct (Hobs 1) as [e1 H1], (Hobs 2) as [e2 H2], (Hobs 3) as [e3 H3].
  rewrite H1, H2. cbn [fst snd].
  exists [logOf (classifyAttempt registry env worlds request) 1 0;
          logOf (classifyAttempt registry env worlds request) 2 1000;
          logOf (classifyAttempt registry env worlds request) 3 2000], e3.
  split; [by rewrite H3|].
  split; [done|]. split; [done|]. split.
  - destruct (Hrun 1) as (? & _ & Hc1), (Hrun 2) as (? & _ & Hc2),
      (Hrun 3) as (? & _ & Hc3).
    repeat constructor; done.
  - repeat constructor; cbn [logOf attemptOutcome]; by eexists.
Qed.

Lemma X20_witness_unregistered_provider :
  exists logs failure,
    messageClassificationWorkflow (registryOf envUnregistered) envUnregistered
      recovering (Some hello)
    = ([{| scheduledRequest := hello; scheduledAttempts := logs |}], inl failure)
    /\ attemptNumber <$> logs = [1; 2; 3]
    /\ waitedBefore <$> logs = [0; 1000; 2000]%Z
    /\ Forall (fun log => modelCalls (attemptEvents log) = []) logs
    /\ Forall (fun log => exists e, attemptOutcome log = inl e) logs.
Proof.
  apply (X20_hopeless_failure_takes_three_attempts (registryOf envUnregistered)
           envUnregistered recovering hello).
  - reflexivity.
  - right. eexists. vm_compute. reflexivity.
Defined.

End WorkflowProperties.

(* ===================================================================== *)
(** ** Further properties: the worker and the client *)
(* ===================================================================== *)

Section WorkerProperties.
Import JS Types LlmConfig Process Examples Reading.

#[local] Arguments lit : simpl never.

Lemma emitAll_events (evs : list Event) : emitAll evs = (evs, Done tt).
Proof.
  induction evs as [|ev evs IH]; [done|]. simpl. by rewrite IH.
Qed.

Lemma exitCode_reports (lines : list (list N)) (code : Z) :
  exitCode (map Stderr lines ++ [Exit code]) = code.
Proof. induction lines as [|l lines IH]; simpl; done. Qed.

(** The whole of the worker process, case by case. *)
Lemma worker_main_cases (env : Env) (taskQueue : list N) (w : Worker.WorkerWorld) :
  Worker.main env taskQueue w
  = match createRegistry env with
    | inl e => [StderrValue [] e; Exit 1]
    | inr _ =>
        if isValid (validateConfiguration env) then
          banner env ++
          connectEvent env ::
          match Worker.connectResult w with
          | inl e => [StderrValue [] e; Exit 1]
          | inr _ =>
              CreateWorker (env !! "TEMPORAL_NAMESPACE") taskQueue ::
              match Worker.createResult w with
              | inl e =>
                  CloseConnection ::
                  match Worker.closeResult w with
                  | inl e' => [StderrValue [] e'; Exit 1]
                  | inr _ => [StderrValue [] e; Exit 1]
                  end
              | inr _ =>
                  RunWorker :: CloseConnection ::
                  match Worker.closeResult w, Worker.runResult w with
                  | inl e', _ => [StderrValue [] e'; Exit 1]
                  | inr _, inl e => [StderrValue [] e; Exit 1]
                  | inr _, inr _ => []
                  end
              end
          end
        else Stderr (lit "LLM configuration validation failed:")
             :: map Stderr (map (fun error => lit "  - " ++ error)
                              (errors (validateConfiguration env)))
             ++ [Exit 1]
    end.
Proof.
  unfold Worker.main. destruct (createRegistry env) as [e|r]; [done|].
  unfold Worker.run, banner.
  destruct (isValid (validateConfiguration env)); cbn [negb].
  - destruct w as [[e1|[]] [e2|[]] [e3|[]] [e4|[]]]; reflexivity.
  - cbn [pbind emit]. rewrite emitAll_events, map_map. reflexivity.
Qed.

(** X21. The worker asks the engine for a connection exactly when some
    provider is configured and [LLM_PROVIDER] is unset, empty, or the
    name of a configured provider. In every other environment it creates
    no worker, runs nothing and ends with exit status 1. *)
Theorem X21_worker_connects_exactly_when_check_passes
    (env : Env) (taskQueue : list N) (w : Worker.WorkerWorld) :
  (connectEvent env ∈ Worker.main env taskQueue w <->
   getAvailableProviders env <> []
   /\ (truthyOpt (env !! "LLM_PROVIDER") = false
       \/ exists sel, env !! "LLM_PROVIDER" = Some sel
                      /\ sel ∈ getAvailableProviders env))
  /\ ((connectEvent env ∉ Worker.main env taskQueue w) ->
      exitCode (Worker.main env taskQueue w) = 1%Z
      /\ (RunWorker ∉ Worker.main env taskQueue w)
      /\ forall namespace queue,
           (CreateWorker namespace queue ∉ Worker.main env taskQueue w)).
Proof.
  rewrite worker_main_cases. rewrite <- validateConfiguration_valid_iff.
  pose proof (createRegistry_cases env) as Hc.
  destruct (createRegistry env) as [e|r].
  - destruct Hc as (H1 & H2 & _).
    assert (Hinvalid : isValid (validateConfiguration env) = false).
    { destruct (isValid (validateConfiguration env)) eqn:Hv; [|done].
      apply validateConfiguration_valid_iff in Hv as [Hav _].
      exfalso. apply Hav. by apply getAvailableProviders_nil. }
    rewrite Hinvalid. split.
    + split; [|done]. intros H. by (repeat (inversion H as [|? ? ? H']; subst; clear H; rename H' into H)).
    + intros _. split; [done|]. split.
      * intros H. by (repeat (inversion H as [|? ? ? H']; subst; clear H; rename H' into H)).
      * intros ns q H. by (repeat (inversion H as [|? ? ? H']; subst; clear H; rename H' into H)).
  - destruct (isValid (validateConfiguration env)).
    + split; [|intros H; exfalso; apply H].
      * split; [done|]. intros _. unfold banner. set_solver.
      * unfold banner. set_solver.
    + assert (Hno : forall ev, (forall l, ev <> Stderr l) -> ev <> Exit 1 ->
                ev ∉ Stderr (lit "LLM configuration validation failed:")
                     :: map Stderr (map (fun error => lit "  - " ++ error)
                                      (errors (validateConfiguration env)))
                     ++ [Exit 1]).
      { intros ev H1 H2 Hin. apply elem_of_cons in Hin as [->|Hin]; [by eapply H1|].
        apply elem_of_app in Hin as [Hin|Hin].
        - apply list_elem_of_In, in_map_iff in Hin as (l & <- & _). by eapply H1.
        - apply list_elem_of_singleton in Hin. done. }
      split.
      * split; [|done]. intros H. by apply Hno in H.
      * intros _. split; [|split].
        -- cbn [exitCode]. apply exitCode_reports.
        -- by apply Hno.
        -- intros ns q. by apply Hno.
Qed.

Lemma closes_app (a b : list Event) : closes (a ++ b) = closes a + closes b.
Proof. unfold closes. by rewrite List.filter_app, length_app. Qed.

(** X22. Once its check has passed, the worker closes the connection
    exactly once when the connection was made, whether creating or
    running the worker then throws or not, and not at all when the
    connection failed; its exit status is 0 when all four calls to the
    engine went well and 1 otherwise. *)
Theorem X22_worker_closes_what_it_opened
    (env : Env) (taskQueue : list N) (w : Worker.WorkerWorld)
    (r : gmap (list N) Provider) :
  createRegistry env = inr r ->
  isValid (validateConfiguration env) = true ->
  closes (Worker.main env taskQueue w)
    = match Worker.connectResult w with inl _ => 0 | inr _ => 1 end
  /\ (exitCode (Worker.main env taskQueue w) = 0%Z <->
      succeeded (Worker.connectResult w) /\ succeeded (Worker.createResult w)
      /\ succeeded (Worker.runResult w) /\ succeeded (Worker.closeResult w))
  /\ (exitCode (Worker.main env taskQueue w) = 0%Z
      \/ exitCode (Worker.main env taskQueue w) = 1%Z).
Proof.
  intros Hreg Hvalid. rewrite worker_main_cases, Hreg, Hvalid.
  destruct w as [[e1|[]] [e2|[]] [e3|[]] [e4|[]]]; cbn;
    (split; [done|]); (split; [|by (left + right)]);
    split; try done; intros (H1 & H2 & H3 & H4); done.
Qed.

Lemma X22_witness_worker_creation_fails :
  closes (Worker.main envOpenAI (lit "hackathon")
            {| Worker.connectResult := inr tt;
               Worker.createResult := inl unavailable;
               Worker.runResult := inr tt;
               Worker.closeResult := inr tt |}) = 1.
Proof.
  apply (X22_worker_closes_what_it_opened envOpenAI (lit "hackathon")
           {| Worker.connectResult := inr tt;
              Worker.createResult := inl unavailable;
              Worker.runResult := inr tt;
              Worker.closeResult := inr tt |} (registryOf envOpenAI));
    vm_compute; reflexivity.
Defined.

(** X23. The worker never prints the first error of
    [validateConfiguration]: where no provider is configured, loading
    [llm-config] has already thrown the constructor's error, which is
    what the process prints before it ends with status 1. *)
Theorem X23_worker_never_reports_no_providers
    (env : Env) (taskQueue : list N) (w : Worker.WorkerWorld) :
  (Stderr (lit "  - " ++ lit "No LLM providers are configured")
     ∉ Worker.main env taskQueue w)
  /\ (getAvailableProviders env = [] ->
      Worker.main env taskQueue w
      = [StderrValue []
           (LLMProviderError
              (lit "No LLM providers configured. Please check your environment variables.")
              (lit "none") None);
         Exit 1]).
Proof.
  rewrite worker_main_cases.
  pose proof (createRegistry_cases env) as Hc.
  destruct (createRegistry env) as [e|r].
  - destruct Hc as (_ & _ & ->). split; [|done].
    intros H. by (repeat (inversion H as [|? ? ? H']; subst; clear H; rename H' into H)).
  - destruct Hc as (Hsome & _). split.
    2:{ intros [H1 H2]%getAvailableProviders_nil. destruct Hsome; congruence. }
    destruct (isValid (validateConfiguration env)).
    { destruct w as [[e1|[]] [e2|[]] [e3|[]] [e4|[]]]; cbn;
        intros H; by (repeat (inversion H as [|? ? ? H']; subst; clear H; rename H' into H)). }
    intros Hin. apply elem_of_cons in Hin as [Hin|Hin]; [by injection Hin|].
    apply elem_of_app in Hin as [Hin|Hin];
      [|by apply list_elem_of_singleton in Hin].
    apply list_elem_of_In, in_map_iff in Hin as (l & Hl & Hin).
    apply in_map_iff in Hin as (error & <- & Hin).
    assert (Hl' : lit "  - " ++ error = lit "  - " ++ lit "No LLM providers are configured")
      by congruence.
    apply app_inv_head in Hl'. subst error. clear Hl.
    revert Hin. unfold validateConfiguration. cbn [errors].
    assert (Hlen : (length (getAvailableProviders env) =? 0)%nat = false).
    { apply Nat.eqb_neq. intros H0. apply length_zero_iff_nil in H0.
      apply getAvailableProviders_nil in H0 as [H1 H2]. destruct Hsome; congruence. }
    rewrite Hlen.
    assert (Hdiff : forall sel : list N,
               lit "Selected provider '" ++ sel
               ++ lit "' is not available. Available providers: "
               ++ join (lit ", ") (getAvailableProviders env)
               <> lit "No LLM providers are configured") by (by intros sel).
    destruct (env !! "LLM_PROVIDER") as [sel|];
      [destruct (truthy sel && negb (arrayIncludes (getAvailableProviders env) sel))|];
      destruct (optEqb _ (lit "openai") && _), (optEqb _ (lit "lmstudio") && _);
      cbn; intros Hin;
      repeat (destruct Hin as [Hin|Hin]; [try discriminate; by apply Hdiff in Hin|]);
      done.
Qed.

End WorkerProperties.

Section ClientProperties.
Import JS Types LlmConfig Process Examples Reading.

#[local] Arguments lit : simpl never.

(** The whole of the client process, case by case. *)
Lemma client_main_cases (argv : list (list N)) (env : Env) (taskQueue : list N)
    (w : Client.ClientWorld) :
  let batch := eqb (orElse (head (drop 2 argv)) (lit "single")) (lit "batch") in
  let failed e := [StderrValue (lit "Error:") e; Exit 1] in
  Client.main argv env taskQueue w
  = connectEvent env ::
    match Client.connectResult w with
    | inl e => failed e
    | inr _ =>
        (if batch
         then StartWorkflow (lit "batchMessageClassificationWorkflow") taskQueue
                (lit "batch-classification-" ++ Client.nanoid w)
         else StartWorkflow (lit "messageClassificationWorkflow") taskQueue
                (lit "message-classification-" ++ Client.nanoid w)) ::
        match Client.startResult w with
        | inl e => failed e
        | inr _ =>
            AwaitResult ::
            (if batch
             then match Client.batchResult w with
                  | inl e => [StderrValue (lit "Batch workflow failed:") e]
                  | inr _ => []
                  end
             else match Client.singleResult w with
                  | inl e => [StderrValue (lit "Workflow failed:") e]
                  | inr _ => []
                  end)
            ++ CloseConnection ::
               match Client.closeResult w with
               | inl e => failed e
               | inr _ => []
               end
        end
    end.
Proof.
  intros batch failed. subst batch failed. unfold Client.main.
  destruct (eqb _ (lit "batch"));
    unfold Client.runBatchClassification, Client.runSingleClassification;
    destruct w as [[e1|[]] [e2|[]] [e3|r3] [e4|r4] [e5|[]] id]; reflexivity.
Qed.

(** X24. The exit status of the client says whether the engine could be
    reached, not whether the classification worked: it is 1 exactly when
    connecting, starting the workflow or closing the connection throws,
    and 0 otherwise, also when the workflow itself failed, whose error
    is printed and dropped. *)
Theorem X24_client_exit_status_ignores_workflow_failure
    (argv : list (list N)) (env : Env) (taskQueue : list N)
    (w : Client.ClientWorld) :
  (exitCode (Client.main argv env taskQueue w) = 1%Z <->
   ~ succeeded (Client.connectResult w)
   \/ ~ succeeded (Client.startResult w)
   \/ ~ succeeded (Client.closeResult w))
  /\ (exitCode (Client.main argv env taskQueue w) = 0%Z <->
      succeeded (Client.connectResult w) /\ succeeded (Client.startResult w)
      /\ succeeded (Client.closeResult w)).
Proof.
  rewrite client_main_cases.
  destruct (eqb _ (lit "batch"));
    destruct w as [[e1|[]] [e2|[]] [e3|r3] [e4|r4] [e5|[]] id]; cbn;
    (split; split; try done; try tauto; intuition done).
Qed.

(** X25. The client closes its connection exactly when the workflow was
    started: a connection over which starting the workflow throws is
    left open, and a workflow that fails afterwards does not prevent the
    closing. *)
Theorem X25_client_closes_only_after_a_start
    (argv : list (list N)) (env : Env) (taskQueue : list N)
    (w : Client.ClientWorld) :
  closes (Client.main argv env taskQueue w)
  = match Client.connectResult w, Client.startResult w with
    | inr _, inr _ => 1
    | _, _ => 0
    end.
Proof.
  rewrite client_main_cases.
  destruct (eqb _ (lit "batch"));
    destruct w as [[e1|[]] [e2|[]] [e3|r3] [e4|r4] [e5|[]] id]; reflexivity.
Qed.

(** X26. The client starts the batch workflow exactly when its first
    argument is [batch]; with no argument, an empty one or any other
    word it starts the single workflow. The id of the workflow is the
    prefix of its kind followed by the drawn id. *)
Theorem X26_client_mode_is_batch_only_on_request
    (argv : list (list N)) (env : Env) (taskQueue : list N)
    (w : Client.ClientWorld) :
  succeeded (Client.connectResult w) ->
  (argv !! 2 = Some (lit "batch") ->
   StartWorkflow (lit "batchMessageClassificationWorkflow") taskQueue
     (lit "batch-classification-" ++ Client.nanoid w)
   ∈ Client.main argv env taskQueue w)
  /\ (argv !! 2 <> Some (lit "batch") ->
      StartWorkflow (lit "messageClassificationWorkflow") taskQueue
        (lit "message-classification-" ++ Client.nanoid w)
      ∈ Client.main argv env taskQueue w)
  /\ (forall kind queue id,
        StartWorkflow kind queue id ∈ Client.main argv env taskQueue w ->
        (kind = lit "batchMessageClassificationWorkflow"
         <-> argv !! 2 = Some (lit "batch"))).
Proof.
  intros Hconn. rewrite client_main_cases.
  assert (Hhead : head (drop 2 argv) = argv !! 2).
  { destruct argv as [|a [|b [|c rest]]]; done. }
  rewrite Hhead.
  assert (Hmode : eqb (orElse (argv !! 2) (lit "single")) (lit "batch") = true
                  <-> argv !! 2 = Some (lit "batch")).
  { rewrite JS_eqb_eq. destruct (argv !! 2) as [[|c m]|]; cbn [orElse truthy].
    - split; intros H; vm_compute in H; discriminate.
    - split; congruence.
    - split; intros H; vm_compute in H; discriminate. }
  destruct (Client.connectResult w) as [e|[]]; [done|].
  destruct (eqb _ (lit "batch")) eqn:Hb.
  - pose proof (proj1 Hmode eq_refl) as Hb'. split; [intros _; set_solver|].
    split; [done|].
    intros kind queue id Hin. split; [done|]. intros _.
    destruct w as [c [e2|[]] [e3|r3] [e4|r4] [e5|[]] nid]; cbn in Hin;
      repeat (apply elem_of_cons in Hin as [Hin|Hin];
              [first [congruence | by unfold connectEvent in Hin]|]);
      by apply elem_of_nil in Hin.
  - assert (Hnb : argv !! 2 <> Some (lit "batch")).
    { intros H. apply Hmode in H. discriminate. }
    split; [done|]. split; [intros _; set_solver|].
    intros kind queue id Hin. split; [|done]. intros ->. exfalso.
    destruct w as [c [e2|[]] [e3|r3] [e4|r4] [e5|[]] nid]; cbn in Hin;
      repeat (apply elem_of_cons in Hin as [Hin|Hin];
              [first [discriminate
                     | by unfold connectEvent in Hin
                     | injection Hin as Hk _ _; vm_compute in Hk; discriminate]|]);
      by apply elem_of_nil in Hin.
Qed.

Lemma X26_witness_no_argument :
  StartWorkflow (lit "messageClassificationWorkflow") (lit "hackathon")
    (lit "message-classification-" ++ lit "V1StGXR8")
  ∈ Client.main [lit "node"; lit "client.js"] envOpenAI (lit "hackathon")
      {| Client.connectResult := inr tt;
         Client.startResult := inr tt;
         Client.singleResult := inl unavailable;
         Client.batchResult := inl unavailable;
         Client.closeResult := inr tt;
         Client.nanoid := lit "V1StGXR8" |}.
Proof.
  refine (proj1 (proj2 (X26_client_mode_is_batch_only_on_request
                          [lit "node"; lit "client.js"] envOpenAI (lit "hackathon")
                          {| Client.connectResult := inr tt;
                             Client.startResult := inr tt;
                             Client.singleResult := inl unavailable;
                             Client.batchResult := inl unavailable;
                             Client.closeResult := inr tt;
                             Client.nanoid := lit "V1StGXR8" |} _)) _).
  - exact I.
  - discriminate.
Defined.

End ClientProperties.
